(** * pycroscopy.core.io.translator: coordinate matrices and dataset assembly

    A shallow embedding of [src/pycroscopy/core/io/translator.py]:
    [make_position_mat], [get_position_slicing], [get_spectral_slicing],
    [build_ind_val_dsets], [generate_dummy_main_parms] and
    [Translator.simple_write], followed by the properties of these
    functions.

    Conventions of the embedding.
    - Axis sizes are the [np.int64] entries of [np.array(num_steps)], as
      integers ([Z]); [np.prod] multiplies in [np.int64] and wraps around
      ([wrap_int64]).  The array of an empty list has dtype [float64] and
      its product is the float [1.0], which [np.zeros] rejects as a shape
      with a [TypeError].
    - A 2-D numpy array is its shape together with its rows.
    - The index matrix has dtype [np.uint32]: every store into it is
      reduced modulo 2^32 ([to_uint32]), which is the stored value for
      every index below 2^32.
    - [np.floor(np.arange(part1) / part2)] is integer floor division: the
      binary64 quotient of two positive integers up to 2^53 has the same
      floor.  Beyond 2^53 the code's quotient is inexact; the theorems on
      the entries of the index matrix are stated for at most 2^53 points.
    - Values are binary64 floats ([PrimFloat]); [np.float32] rounds to
      binary32 ([to_f32]).
    - A raised exception is the [Raise] case of [result]; the messages of
      the exceptions raised inside numpy are those of numpy 1.2x and 2.x.
    - Memory is not modelled: every allocation succeeds. *)

From Stdlib Require Import ZArith Floats.
From stdpp Require Import gmap strings list pretty.

Set Warnings "-register-all".

(** ** Exceptions *)

Inductive exn : Type :=
  | ValueError (msg : string)
  | TypeError (msg : string)
  | IndexError (msg : string)
  | IOError (msg : string).

Inductive result (A : Type) : Type :=
  | Ok (a : A)
  | Raise (e : exn).
Arguments Ok {A} a.
Arguments Raise {A} e.

(** Sequencing: an exception raised by the first statement ends the call. *)
#[global] Instance result_bind : MBind result := λ A B k m,
  match m with
  | Ok a => k a
  | Raise e => Raise e
  end.
#[global] Instance result_ret : MRet result := λ A a, Ok a.

Definition is_Ok {A} (m : result A) : Prop := ∃ a, m = Ok a.

(** ** 2-D arrays *)

Record ndarray (A : Type) : Type := NDArray {
  nrows : nat;
  ncols : nat;
  cells : list (list A)
}.
Arguments NDArray {A} nrows ncols cells.
Arguments nrows {A} _.
Arguments ncols {A} _.
Arguments cells {A} _.

Definition shape {A} (m : ndarray A) : nat * nat := (nrows m, ncols m).

(** [m[r, c]] *)
Definition item {A} (m : ndarray A) (r c : nat) : option A :=
  cells m !! r ≫= (.!! c).

(** [m[:, c]] as a list *)
Definition column {A} (m : ndarray A) (c : nat) : list A :=
  omap (.!! c) (cells m).

(** [np.zeros(shape=(rows, cols), dtype=np.uint32)] *)
Definition np_zeros (rows cols : nat) : ndarray Z :=
  NDArray rows cols (replicate rows (replicate cols 0%Z)).

(** [m.transpose()] *)
Definition transpose {A} (m : ndarray A) : ndarray A :=
  NDArray (ncols m) (nrows m) ((λ c, column m c) <$> seq 0 (ncols m)).

(** An [np.int64] result: the integer modulo 2^64, in two's complement. *)
Definition wrap_int64 (z : Z) : Z := ((z + 2 ^ 63) mod 2 ^ 64 - 2 ^ 63)%Z.

(** [np.prod] of an [np.int64] array: a reduction by the [np.int64]
    multiplication, which wraps around; 1 for an array without entries. *)
Definition np_prod (l : list Z) : Z :=
  foldl (λ acc x, wrap_int64 (acc * x)) 1%Z l.

(** [np.arange(n)] *)
Definition arange (n : Z) : list Z := Z.of_nat <$> seq 0 (Z.to_nat n).

(** [np.tile(l, reps)] for a 1-D array: an empty array is returned as it
    is, without being repeated. *)
Definition np_tile {A} (l : list A) (reps : Z) : result (list A) :=
  match l with
  | [] => Ok []
  | _ =>
      if (reps <? 0)%Z then
        Raise (ValueError "negative dimensions are not allowed")
      else Ok (mjoin (replicate (Z.to_nat reps) l))
  end.

(** Store into a [np.uint32] cell. *)
Definition to_uint32 (z : Z) : Z := (z mod 2 ^ 32)%Z.

(** The exception of an assignment of [n] entries to a column of [m]
    rows. *)
Definition setitem_error (n m : nat) : exn :=
  ValueError ("could not broadcast input array from shape ("
                +:+ pretty n +:+ ",) into shape (" +:+ pretty m +:+ ",)").

(** [pos_mat[:, j] = col]: the right-hand side has one entry per row, or a
    single entry that is broadcast to every row. *)
Definition set_column (pos_mat : ndarray Z) (j : nat) (col : list Z)
  : result (ndarray Z) :=
  if decide (length col = nrows pos_mat) then
    Ok (NDArray (nrows pos_mat) (ncols pos_mat)
          (zip_with (λ row v, <[j := to_uint32 v]> row) (cells pos_mat) col))
  else
    match col with
    | [v] =>
        Ok (NDArray (nrows pos_mat) (ncols pos_mat)
              ((λ row, <[j := to_uint32 v]> row) <$> cells pos_mat))
    | _ => Raise (setitem_error (length col) (nrows pos_mat))
    end.

(** ** make_position_mat *)

(** The body of [for indx, curr_steps in enumerate(num_steps)]; [todo] is
    the part of [num_steps] still to be visited, from position [indx]. *)
Fixpoint fill_columns (num_steps todo : list Z) (indx pos_ind : nat)
    (pos_mat : ndarray Z) : result (ndarray Z) :=
  match todo with
  | [] => Ok pos_mat
  | curr_steps :: todo' =>
      if (1 <? curr_steps)%Z then
        let part1 := np_prod (take (S indx) num_steps) in
        let part2 :=
          if (0 <? indx)%nat then np_prod (take indx num_steps) else 1%Z in
        let part3 :=
          if (S indx =? length num_steps)%nat then 1%Z
          else np_prod (drop (S indx) num_steps) in
        (* [np.floor(np.arange(part1) / part2)]: the floor of the binary64
           quotient, which is the integer quotient up to 2^53 *)
        col ← np_tile ((λ a, a / part2)%Z <$> arange part1) part3;
        pos_mat' ← set_column pos_mat pos_ind col;
        fill_columns num_steps todo' (S indx) (S pos_ind) pos_mat'
      else fill_columns num_steps todo' (S indx) pos_ind pos_mat
  end.

(** Number of axes with more than one step: [len(np.where(num_steps > 1)[0])]. *)
Definition count_active (num_steps : list Z) : nat :=
  length (filter (λ s, (1 < s)%Z) num_steps).

Definition make_position_mat (num_steps : list Z) : result (ndarray Z) :=
  let spat_dims := max 1 (count_active num_steps) in
  match num_steps with
  | [] =>
      (* [np.prod(np.array([]))] is the float [1.0] *)
      Raise (TypeError
               "'numpy.float64' object cannot be interpreted as an integer")
  | _ =>
      let points := np_prod num_steps in
      if (points <? 0)%Z then
        Raise (ValueError "negative dimensions are not allowed")
      else
        fill_columns num_steps num_steps 0 0
          (np_zeros (Z.to_nat points) spat_dims)
  end.

(** ** Floating point and broadcasting *)

(** [np.float32(x)] for a binary64 [x]: round to nearest even, 24 bits. *)
Definition to_f32 (x : float) : float :=
  match Prim2SF x with
  | S754_finite s m e => SF2Prim (binary_round 24 128 s m e)
  | _ => x
  end.

(** The binary64 value of a [np.uint32] cell [i], which is exact. *)
Definition float64_of_uint32 (i : Z) : float :=
  PrimFloat.of_uint63 (Uint63.of_Z i).

(** [np.float32(i)] for a [np.uint32] cell [i]. *)
Definition float32_of_uint32 (i : Z) : float :=
  to_f32 (float64_of_uint32 i).

Definition nd_map {A B} (f : A → B) (m : ndarray A) : ndarray B :=
  NDArray (nrows m) (ncols m) ((λ row : list A, f <$> row) <$> cells m).

(** [np.atleast_2d(l)] for a 1-D sequence: one row. *)
Definition np_atleast_2d {A} (l : list A) : ndarray A :=
  NDArray 1 (length l) [l].

(** numpy's rule for one dimension of two operands; [None] when the two
    extents cannot be broadcast. *)
Definition broadcast_dim (a b : nat) : option nat :=
  if decide (a = b) then Some a
  else if decide (a = 1) then Some b
  else if decide (b = 1) then Some a
  else None.

(** The exception of an elementwise operation on two 2-D operands whose
    shapes cannot be broadcast. *)
Definition shape_repr (s : nat * nat) : string :=
  "(" +:+ pretty s.1 +:+ "," +:+ pretty s.2 +:+ ")".

Definition broadcast_error (x y : nat * nat) : exn :=
  ValueError ("operands could not be broadcast together with shapes "
                +:+ shape_repr x +:+ " " +:+ shape_repr y +:+ " ").

(** Index into a dimension of extent [n] of an operand being broadcast. *)
Definition bidx (n i : nat) : nat := if decide (n = 1) then 0 else i.

(** Elementwise [f] on two 2-D operands, with broadcasting. *)
Definition broadcast2 {A B C} (f : A → B → C) (x : ndarray A) (y : ndarray B)
  : result (ndarray C) :=
  match broadcast_dim (nrows x) (nrows y), broadcast_dim (ncols x) (ncols y)
  with
  | Some rows, Some cols =>
      Ok (NDArray rows cols
            ((λ r, omap (λ c,
                      xv ← item x (bidx (nrows x) r) (bidx (ncols x) c);
                      yv ← item y (bidx (nrows y) r) (bidx (ncols y) c);
                      Some (f xv yv)) (seq 0 cols)) <$> seq 0 rows))
  | _, _ => Raise (broadcast_error (shape x) (shape y))
  end.

(** ** Slices and region slicing *)

(** Python's [slice(start, stop, step)]; [None] is an omitted bound. *)
Record slice : Type := Slice {
  start : option Z;
  stop : option Z;
  step : option Z
}.

#[global] Instance slice_eq_dec : EqDecision slice.
Proof. solve_decision. Defined.

(** [slice(stop)] and [slice(start, stop)] *)
Definition slice1 (stop : option Z) : slice := Slice None stop None.
Definition slice2 (start stop : Z) : slice := Slice (Some start) (Some stop) None.

Definition get_position_slicing (pos_lab : list string) (curr_pix : option Z)
  : gmap string (slice * slice) :=
  foldl (λ slice_dict '(spat_ind, spat_dim),
           <[spat_dim := (slice1 curr_pix,
                          slice2 (Z.of_nat spat_ind) (Z.of_nat spat_ind + 1))]>
             slice_dict)
    ∅ (zip (seq 0 (length pos_lab)) pos_lab).

Definition get_spectral_slicing (spec_lab : list string) (curr_spec : option Z)
  : gmap string (slice * slice) :=
  foldl (λ slice_dict '(spat_ind, spat_dim),
           <[spat_dim := (slice2 (Z.of_nat spat_ind) (Z.of_nat spat_ind + 1),
                          slice1 curr_spec)]>
             slice_dict)
    ∅ (zip (seq 0 (length spec_lab)) spec_lab).

(** [s.indices(n)] for a slice without step: the half-open range of
    positions it selects in a dimension of extent [n]. *)
Definition clip_bound (n : nat) (b : Z) : nat :=
  if (b <? 0)%Z then Z.to_nat (Z.max (b + Z.of_nat n) 0)
  else Z.to_nat (Z.min b (Z.of_nat n)).

Definition slice_indices (s : slice) (n : nat) : nat * nat :=
  (from_option (clip_bound n) 0 (start s),
   from_option (clip_bound n) n (stop s)).

Definition sublist {A} (lo hi : nat) (l : list A) : list A :=
  take (hi - lo) (drop lo l).

(** [m[rs, cs]] for a pair of slices *)
Definition getitem {A} (m : ndarray A) (sel : slice * slice) : ndarray A :=
  let '(r0, r1) := slice_indices sel.1 (nrows m) in
  let '(c0, c1) := slice_indices sel.2 (ncols m) in
  NDArray (r1 - r0) (c1 - c0)
    (sublist c0 c1 <$> sublist r0 r1 (cells m)).

(** ** Datasets *)

Inductive np_dtype : Type := np_uint32 | np_float32.

(** Values stored in an attribute dictionary. *)
Inductive attr_value : Type :=
  | AStr (s : string)
  | AInt (z : Z)
  | AFloat (x : float)
  | ASlices (region_slices : gmap string (slice * slice))
  | AStrList (l : list string).

(** Modelled from the spec: the dataset node [MicroDataset] of
    [microdata.py], which is not part of the sources at hand: a named node
    holding one array payload of a given element type, with an attribute
    dictionary that starts out empty. *)
Record MicroDataset (A : Type) : Type := mkMicroDataset {
  name : string;
  data : ndarray A;
  dtype : np_dtype;
  attrs : gmap string attr_value
}.
Arguments mkMicroDataset {A} name data dtype attrs.
Arguments name {A} _.
Arguments data {A} _.
Arguments dtype {A} _.
Arguments attrs {A} _.

(** [ds.attrs[key] = v] *)
Definition set_attr {A} (key : string) (v : attr_value) (ds : MicroDataset A)
  : MicroDataset A :=
  mkMicroDataset (name ds) (data ds) (dtype ds) (<[key := v]> (attrs ds)).

(** ** build_ind_val_dsets *)

(** Line 328, [initial_values + np.float32(indices) * steps], on 2-D
    operands: a binary64 product and sum, each with broadcasting. *)
Definition indices_to_values (indices : ndarray Z)
    (steps initial_values : ndarray float) : result (ndarray float) :=
  scaled ← broadcast2 PrimFloat.mul (nd_map float32_of_uint32 indices) steps;
  broadcast2 PrimFloat.add initial_values scaled.

(** An optional per-axis array: its default when omitted, a [ValueError]
    when its length is not the number of dimensions. *)
Definition default_or_check {A B} (dimensions : list B) (arg : option (list A))
    (default : A) (msg : string) : result (list A) :=
  match arg with
  | None => Ok (replicate (length dimensions) default)
  | Some l =>
      if decide (length l ≠ length dimensions) then Raise (ValueError msg)
      else Ok l
  end.

Definition build_ind_val_dsets (dimensions : list Z) (is_spectral : bool)
    (steps initial_values : option (list float))
    (labels units : option (list string))
  : result (MicroDataset Z * MicroDataset float) :=
  steps ← default_or_check dimensions steps 1%float
    "The arrays for step sizes and dimension sizes must be the same.";
  let steps := np_atleast_2d steps in
  initial_values ← default_or_check dimensions initial_values 0%float
    "The arrays for initial values and dimension sizes must be the same.";
  let initial_values := np_atleast_2d initial_values in
  labels ← default_or_check dimensions labels ""
    "The arrays for labels and dimension sizes must be the same.";
  (* Get the indices for all dimensions *)
  indices ← make_position_mat dimensions;
  (* Convert the indices to values *)
  values ← indices_to_values indices steps initial_values;
  (* Create the slices that will define the labels *)
  let '(mode, indices, values, region_slices) :=
    if is_spectral then
      ("Spectroscopic_", transpose indices, transpose values,
       get_spectral_slicing labels None)
    else
      ("Position_", indices, values, get_position_slicing labels None) in
  (* Create the MicroDatasets for both Indices and Values *)
  let ds_indices :=
    set_attr "labels" (ASlices region_slices)
      (mkMicroDataset (mode +:+ "Indices") indices np_uint32 ∅) in
  let ds_values :=
    set_attr "labels" (ASlices region_slices)
      (mkMicroDataset (mode +:+ "Values") (nd_map to_f32 values) np_float32 ∅) in
  match units with
  | None => Ok (ds_indices, ds_values)
  | Some u =>
      if decide (length u ≠ length dimensions) then
        Raise (ValueError
                 "The arrays for labels and dimension sizes must be the same.")
      else
        Ok (set_attr "units" (AStrList u) ds_indices,
            set_attr "units" (AStrList u) ds_values)
  end.

(** ** generate_dummy_main_parms and Translator.simple_write *)

(** The two clock readings, [tm.strftime("%Y_%m_%d")] and [tm.time()], are
    arguments. *)
Definition generate_dummy_main_parms (translate_date : string)
    (experiment_unix_time : float) : gmap string attr_value :=
  let main_parms : gmap string attr_value := ∅ in
  let main_parms := <["translate_date" := AStr translate_date]> main_parms in
  let main_parms := <["instrument" := AStr "cypher_west"]> main_parms in
  let main_parms := <["xcams_id" := AStr "abc"]> main_parms in
  let main_parms := <["user_name" := AStr "John Doe"]> main_parms in
  let main_parms := <["sample_name" := AStr "PZT"]> main_parms in
  let main_parms := <["sample_description" := AStr "Thin Film"]> main_parms in
  let main_parms := <["project_name" := AStr "Band Excitation"]> main_parms in
  let main_parms := <["project_id" := AStr "CNMS_2015B_X0000"]> main_parms in
  let main_parms := <["comments" := AStr "Band Excitation data"]> main_parms in
  let main_parms := <["data_tool" := AStr "be_analyzer"]> main_parms in
  let main_parms :=
    <["experiment_date" := AStr "2015-10-05 14:55:05"]> main_parms in
  let main_parms :=
    <["experiment_unix_time" := AFloat experiment_unix_time]> main_parms in
  let main_parms := <["grid_size_x" := AInt 1]> main_parms in
  let main_parms := <["grid_size_y" := AInt 1]> main_parms in
  let main_parms := <["current_position_x" := AInt 1]> main_parms in
  let main_parms := <["current_position_y" := AInt 1]> main_parms in
  main_parms.

Section ContainerAssembler.

(** The payload of a dataset is opaque to the assembler, which reads
    only its name. *)
Variable dataset : Type.
Variable dataset_name : dataset → string.

(** Modelled from the spec: the tree nodes [MicroDataGroup] and
    [MicroDataset] of [microdata.py], which is not part of the sources at
    hand: a node is a dataset or a named group with attributes and
    ordered children; [add_children] appends to the children. *)
Inductive MicroData : Type :=
  | MDataset (ds : dataset)
  | MicroDataGroup (name : string) (attrs : gmap string attr_value)
      (children : list MicroData).

Definition group_attrs (node : MicroData) : gmap string attr_value :=
  match node with
  | MDataset _ => ∅
  | MicroDataGroup _ a _ => a
  end.

Definition group_children (node : MicroData) : list MicroData :=
  match node with
  | MDataset _ => []
  | MicroDataGroup _ _ c => c
  end.

Definition node_name (node : MicroData) : string :=
  match node with
  | MDataset ds => dataset_name ds
  | MicroDataGroup n _ _ => n
  end.

Definition set_attrs (a : gmap string attr_value) (node : MicroData) : MicroData :=
  match node with
  | MDataset ds => MDataset ds
  | MicroDataGroup n _ c => MicroDataGroup n a c
  end.

Definition add_children (new : list MicroData) (node : MicroData) : MicroData :=
  match node with
  | MDataset ds => MDataset ds
  | MicroDataGroup n a c => MicroDataGroup n a (c ++ new)
  end.

(** The file system and the container writer ([os.path.exists],
    [os.remove], [ioHDF5], [get_h5_obj_refs], [link_h5_objects_as_attrs])
    are external: any behaviour on a state [world], each call either
    raising or returning. *)
Variables world hdf h5ref : Type.
Variable path_exists : string → world → bool.
Variable remove : string → world → result world.
Variable ioHDF5 : string → world → result (hdf * world).
Variable writeData : hdf → MicroData → world → result (list h5ref * world).
Variable get_h5_obj_refs : list string → list h5ref → list h5ref.
Variable link_h5_objects_as_attrs : h5ref → list h5ref → world → result world.
Variable hdf_close : hdf → world → result world.
Variables (translate_date : string) (experiment_unix_time : float).

(** Lines 94 to 107 of [simple_write]: the tree [spm_data] that is
    handed to the writer. *)
Definition simple_write_tree (data_name translator_name : string)
    (ds_main : dataset) (aux_dset_list : list MicroData)
    (parm_dict : option (gmap string attr_value)) : MicroData :=
  let parm_dict := default ∅ parm_dict in
  let chan_grp := MicroDataGroup "Channel_000" ∅ [] in
  let chan_grp := add_children [MDataset ds_main] chan_grp in
  let chan_grp := add_children aux_dset_list chan_grp in
  let meas_grp := MicroDataGroup "Measurement_000" ∅ [] in
  let meas_grp := set_attrs parm_dict meas_grp in
  let meas_grp := add_children [chan_grp] meas_grp in
  let spm_data := MicroDataGroup "" ∅ [] in
  let global_parms :=
    generate_dummy_main_parms translate_date experiment_unix_time in
  let global_parms := <["data_type" := AStr data_name]> global_parms in
  let global_parms := <["translator" := AStr translator_name]> global_parms in
  let spm_data := set_attrs global_parms spm_data in
  add_children [meas_grp] spm_data.

Definition simple_write (h5_path data_name translator_name : string)
    (ds_main : dataset) (aux_dset_list : list MicroData)
    (parm_dict : option (gmap string attr_value)) (w : world)
  : result (string * world) :=
  let spm_data :=
    simple_write_tree data_name translator_name ds_main aux_dset_list
      parm_dict in
  let aux_dset_names :=
    omap (λ dset, match dset with
                  | MDataset ds => Some (dataset_name ds)
                  | MicroDataGroup _ _ _ => None
                  end) aux_dset_list in
  w ← (if path_exists h5_path w then remove h5_path w else Ok w);
  '(h, w) ← ioHDF5 h5_path w;
  '(h5_refs, w) ← writeData h spm_data w;
  h5_raw ← match get_h5_obj_refs [dataset_name ds_main] h5_refs with
           | h5_raw :: _ => Ok h5_raw
           | [] => Raise (IndexError "list index out of range")
           end;
  w ← link_h5_objects_as_attrs h5_raw
        (get_h5_obj_refs aux_dset_names h5_refs) w;
  w ← hdf_close h w;
  Ok (h5_path, w).

End ContainerAssembler.

Arguments MDataset {dataset} ds.
Arguments MicroDataGroup {dataset} name attrs children.
Arguments group_attrs {dataset} node.
Arguments group_children {dataset} node.
Arguments simple_write_tree {dataset} translate_date experiment_unix_time
  data_name translator_name ds_main aux_dset_list parm_dict.

(** ** Reference definitions for the index matrix *)

(** The product of a list of integers. *)
Definition Zprod (l : list Z) : Z := foldr Z.mul 1%Z l.

(** The values of an [np.int64]. *)
Definition int64 (z : Z) : Prop := (- 2 ^ 63 ≤ z < 2 ^ 63)%Z.

(** A bound on the number of entries of every array that the code builds
    from the sizes, and on every product that it takes: the product of the
    absolute values of the sizes other than 0. *)
Definition magnitude (sizes : list Z) : Z :=
  Zprod ((λ s, Z.max 1 (Z.abs s)) <$> sizes).

(** Sizes for which the index matrix is specified: at least one axis,
    every size positive, and at most 2^53 points, so that no product taken
    by [np.prod] wraps around and every quotient of line 196 is exact. *)
Definition sizes_ok (sizes : list Z) : Prop :=
  sizes ≠ [] ∧ Forall (λ s, (0 < s)%Z) sizes ∧ (Zprod sizes ≤ 2 ^ 53)%Z.

(** The closed form of the specification: the index of axis [i] at row
    [r] is [floor((r mod part1_i) / part2_i)]. *)
Definition index_formula (sizes : list Z) (i : nat) (r : Z) : Z :=
  ((r mod Zprod (take (S i) sizes)) / Zprod (take i sizes))%Z.

(** The cells that the loop writes in row [r] while visiting [todo], the
    axes from position [indx] on. *)
Fixpoint active_entries (sizes todo : list Z) (indx : nat) (r : nat) : list Z :=
  match todo with
  | [] => []
  | s :: todo' =>
      (if (1 <? s)%Z then [to_uint32 (index_formula sizes indx (Z.of_nat r))]
       else [])
      ++ active_entries sizes todo' (S indx) r
  end.

(** The column of the index matrix that holds axis [i]. *)
Definition axis_column (sizes : list Z) (i : nat) : nat :=
  count_active (take i sizes).

(** A matrix is well formed when its rows agree with its shape. *)
Definition wf_ndarray {A} (m : ndarray A) : Prop :=
  length (cells m) = nrows m ∧ Forall (λ row, length row = ncols m) (cells m).

(** The slice pairs assigned at position [k]. *)
Definition position_pair (curr_pix : option Z) (k : nat) : slice * slice :=
  (slice1 curr_pix, slice2 (Z.of_nat k) (Z.of_nat k + 1)).
Definition spectral_pair (curr_spec : option Z) (k : nat) : slice * slice :=
  (slice2 (Z.of_nat k) (Z.of_nat k + 1), slice1 curr_spec).

(** The dictionary built by a loop [for k, l in enumerate(labels): d[l] = pair k]. *)
Definition slicing_of (pair : nat → slice * slice) (labels : list string)
  : gmap string (slice * slice) :=
  foldl (λ slice_dict '(spat_ind, spat_dim), <[spat_dim := pair spat_ind]> slice_dict)
    ∅ (zip (seq 0 (length labels)) labels).

(** The value matrix before the final cast, from 1-D steps and initial
    values. *)
Definition raw_values (indices : ndarray Z) (steps initial_values : list float)
  : result (ndarray float) :=
  indices_to_values indices (np_atleast_2d steps) (np_atleast_2d initial_values).

(** The dictionary and the orientation chosen by [is_spectral]. *)
Definition region_slices_of (is_spectral : bool) (labels : list string)
  : gmap string (slice * slice) :=
  if is_spectral then get_spectral_slicing labels None
  else get_position_slicing labels None.

Definition orient {A} (is_spectral : bool) (m : ndarray A) : ndarray A :=
  if is_spectral then transpose m else m.

(** [m[r, k]] in position mode, [m[k, r]] in spectroscopic mode. *)
Definition item_at {A} (is_spectral : bool) (m : ndarray A) (r k : nat)
  : option A :=
  if is_spectral then item m k r else item m r k.

(** A supplied array whose length is not the number of dimensions. *)
Definition mismatch {A B} (dimensions : list B) (arg : option (list A)) : Prop :=
  match arg with
  | Some l => length l ≠ length dimensions
  | None => False
  end.

(** The array a call works with: the supplied one or the default. *)
Definition resolved {A B} (dimensions : list B) (arg : option (list A))
    (default_value : A) : list A :=
  default (replicate (length dimensions) default_value) arg.

Definition msg_steps : string :=
  "The arrays for step sizes and dimension sizes must be the same.".
Definition msg_initial_values : string :=
  "The arrays for initial values and dimension sizes must be the same.".
Definition msg_labels : string :=
  "The arrays for labels and dimension sizes must be the same.".

#[global] Instance mismatch_dec {A B} (dimensions : list B)
  (arg : option (list A)) : Decision (mismatch dimensions arg).
Proof. destruct arg; simpl; apply _. Defined.

(** Every axis has its own column: no axis of size 1, or a single axis. *)
Definition aligned (dimensions : list Z) : Prop :=
  max 1 (count_active dimensions) = length dimensions.

(** The row number that a row of the index matrix stands for: the sum of
    its entries, each weighted by the product of the sizes of the faster
    axes ([part2] of its axis). Axes of size 1 have no entry. *)
Fixpoint ravel (sizes : list Z) (part2 : Z) (entries : list Z) : Z :=
  match sizes with
  | [] => 0
  | s :: sizes' =>
      if (1 <? s)%Z then
        match entries with
        | e :: entries' => e * part2 + ravel sizes' (part2 * s) entries'
        | [] => 0
        end
      else ravel sizes' (part2 * s) entries
  end%Z.

(** A matrix of [np.uint32] cells. *)
Definition uint32_cells (m : ndarray Z) : Prop :=
  Forall (Forall (λ c, (0 ≤ c < 2 ^ 32)%Z)) (cells m).

(** * Properties *)

(** ** Products of prefixes and suffixes *)

Lemma Zprod_app (l1 l2 : list Z) :
  Zprod (l1 ++ l2) = (Zprod l1 * Zprod l2)%Z.
Proof.
  induction l1 as [|x l1 IH]; simpl.
  - destruct (Zprod l2); reflexivity.
  - rewrite IH. lia.
Qed.

Lemma Zprod_take_drop (n : nat) (l : list Z) :
  (Zprod (take n l) * Zprod (drop n l))%Z = Zprod l.
Proof. rewrite <- Zprod_app, take_drop. reflexivity. Qed.

Lemma Zprod_pos (l : list Z) :
  Forall (λ s, (0 < s)%Z) l → (0 < Zprod l)%Z.
Proof.
  induction 1 as [|x l Hx _ IH]; simpl; lia.
Qed.

Lemma Zprod_take_S (i : nat) (l : list Z) (s : Z) :
  l !! i = Some s → Zprod (take (S i) l) = (Zprod (take i l) * s)%Z.
Proof.
  intros Hi. rewrite (take_S_r l i s Hi), Zprod_app. simpl. lia.
Qed.

Lemma Zprod_take_le (sizes : list Z) (i : nat) :
  Forall (λ s, (0 < s)%Z) sizes →
  (0 < Zprod (take i sizes) ≤ Zprod sizes)%Z.
Proof.
  intros Hpos.
  assert (0 < Zprod (take i sizes))%Z as H1
    by (apply Zprod_pos, Forall_take, Hpos).
  assert (0 < Zprod (drop i sizes))%Z as H2
    by (apply Zprod_pos, Forall_drop, Hpos).
  rewrite <- (Zprod_take_drop i sizes). nia.
Qed.

Lemma Zprod_drop_le (sizes : list Z) (i : nat) :
  Forall (λ s, (0 < s)%Z) sizes →
  (0 < Zprod (drop i sizes) ≤ Zprod sizes)%Z.
Proof.
  intros Hpos.
  assert (0 < Zprod (take i sizes))%Z as H1
    by (apply Zprod_pos, Forall_take, Hpos).
  assert (0 < Zprod (drop i sizes))%Z as H2
    by (apply Zprod_pos, Forall_drop, Hpos).
  rewrite <- (Zprod_take_drop i sizes). nia.
Qed.

Lemma Zprod_zero (l : list Z) : 0%Z ∈ l → Zprod l = 0%Z.
Proof.
  induction l as [|x l IH]; [by intros ?%elem_of_nil|].
  intros [<-|H]%elem_of_cons; simpl; [reflexivity|]. rewrite IH by exact H. lia.
Qed.

(** ** The int64 product *)

Lemma wrap_int64_small (z : Z) :
  (- 2 ^ 63 ≤ z < 2 ^ 63)%Z → wrap_int64 z = z.
Proof. intros H. unfold wrap_int64. rewrite Z.mod_small; lia. Qed.

Lemma wrap_int64_range (z : Z) : (- 2 ^ 63 ≤ wrap_int64 z < 2 ^ 63)%Z.
Proof.
  unfold wrap_int64.
  pose proof (Z.mod_pos_bound (z + 2 ^ 63) (2 ^ 64)). lia.
Qed.

Lemma wrap_int64_mul_l (u v : Z) :
  wrap_int64 (wrap_int64 u * v) = wrap_int64 (u * v).
Proof.
  unfold wrap_int64. f_equal.
  rewrite <- (Zplus_mod_idemp_l (_ * v)), <- (Zplus_mod_idemp_l (u * v)).
  f_equal. f_equal.
  rewrite <- (Zmult_mod_idemp_l _ v), <- (Zmult_mod_idemp_l u v).
  f_equal. f_equal.
  rewrite <- Zminus_mod_idemp_l, Z.mod_mod by lia.
  rewrite Zminus_mod_idemp_l. f_equal. lia.
Qed.

(** The reduction in [np.int64] is the product of the entries, wrapped
    once. *)
Lemma np_prod_wrap (l : list Z) : np_prod l = wrap_int64 (Zprod l).
Proof.
  unfold np_prod.
  assert (∀ a, wrap_int64 a = a →
            foldl (λ acc x, wrap_int64 (acc * x)) a l
            = wrap_int64 (a * Zprod l)) as H.
  { induction l as [|x l IH]; intros a Ha; simpl.
    - rewrite Z.mul_1_r. symmetry. exact Ha.
    - rewrite IH.
      + rewrite wrap_int64_mul_l. f_equal. lia.
      + apply wrap_int64_small, wrap_int64_range. }
  rewrite H by reflexivity. f_equal. lia.
Qed.

Lemma np_prod_exact (l : list Z) :
  (- 2 ^ 63 ≤ Zprod l < 2 ^ 63)%Z → np_prod l = Zprod l.
Proof. intros H. rewrite np_prod_wrap. by apply wrap_int64_small. Qed.

Lemma sizes_ok_pos (sizes : list Z) :
  sizes_ok sizes → Forall (λ s, (0 < s)%Z) sizes.
Proof. by intros (_ & H & _). Qed.

Lemma np_prod_sizes (sizes : list Z) :
  sizes_ok sizes → np_prod sizes = Zprod sizes.
Proof.
  intros (_ & Hpos & Hmax). apply np_prod_exact.
  pose proof (Zprod_pos sizes Hpos). lia.
Qed.

Lemma np_prod_take (sizes : list Z) (i : nat) :
  sizes_ok sizes → np_prod (take i sizes) = Zprod (take i sizes).
Proof.
  intros (_ & Hpos & Hmax). apply np_prod_exact.
  pose proof (Zprod_take_le sizes i Hpos). lia.
Qed.

Lemma np_prod_drop (sizes : list Z) (i : nat) :
  sizes_ok sizes → np_prod (drop i sizes) = Zprod (drop i sizes).
Proof.
  intros (_ & Hpos & Hmax). apply np_prod_exact.
  pose proof (Zprod_drop_le sizes i Hpos). lia.
Qed.

(** The two special cases of the loop body compute the same products. *)
Lemma part2_eq (indx : nat) (l : list Z) :
  (if (0 <? indx)%nat then np_prod (take indx l) else 1%Z)
  = np_prod (take indx l).
Proof. destruct indx; reflexivity. Qed.

Lemma part3_eq (indx : nat) (l : list Z) :
  (if (S indx =? length l)%nat then 1%Z else np_prod (drop (S indx) l))
  = np_prod (drop (S indx) l).
Proof.
  destruct (Nat.eqb_spec (S indx) (length l)) as [E|_]; [|reflexivity].
  rewrite drop_ge by lia. reflexivity.
Qed.

(** ** Tiling *)

Lemma tile_seq {A} (f : Z → A) (p k : nat) :
  mjoin (replicate k (f <$> (Z.of_nat <$> seq 0 p)))
  = (λ r : nat, f (Z.of_nat r mod Z.of_nat p)%Z) <$> seq 0 (k * p).
Proof.
  induction k as [|k IH]; [reflexivity|].
  simpl replicate. simpl mjoin. rewrite IH.
  replace (S k * p) with (p + k * p) by lia.
  rewrite seq_app, fmap_app. f_equal.
  - rewrite <- list_fmap_compose. apply list_fmap_ext.
    intros i r Hr. simpl.
    apply lookup_seq in Hr as [-> Hlt]. simpl.
    rewrite Z.mod_small by lia. reflexivity.
  - replace (seq (0 + p) (k * p)) with (Nat.add p <$> seq 0 (k * p))
      by (rewrite fmap_add_seq; f_equal; lia).
    rewrite <- list_fmap_compose.
    apply list_fmap_ext. intros i r _. simpl.
    f_equal. rewrite Nat2Z.inj_add.
    destruct (decide (p = 0)) as [->|Hp].
    + simpl. rewrite !Z.mod_0_r. lia.
    + rewrite <- (Z.mod_add (Z.of_nat r) 1 (Z.of_nat p)) by lia. f_equal. lia.
Qed.

(** ** The loop of make_position_mat *)

Lemma length_active_entries sizes todo indx r :
  length (active_entries sizes todo indx r) = count_active todo.
Proof.
  revert indx. induction todo as [|s todo IH]; intros indx; [reflexivity|].
  simpl. rewrite length_app, IH. unfold count_active.
  rewrite filter_cons. destruct (Z.ltb_spec 1 s); case_decide; simpl; lia.
Qed.

Lemma count_active_app l1 l2 :
  count_active (l1 ++ l2) = count_active l1 + count_active l2.
Proof. unfold count_active. rewrite filter_app, length_app. reflexivity. Qed.

Lemma count_active_cons s l :
  count_active (s :: l) = (if (1 <? s)%Z then 1 else 0) + count_active l.
Proof.
  unfold count_active. rewrite filter_cons.
  destruct (Z.ltb_spec 1 s); case_decide; simpl; lia.
Qed.

Lemma mjoin_replicate_nil {A} (k : nat) : mjoin (replicate k (@nil A)) = [].
Proof. induction k as [|k IH]; [reflexivity|exact IH]. Qed.

Lemma np_tile_nonneg {A} (l : list A) (reps : Z) :
  (0 ≤ reps)%Z → np_tile l reps = Ok (mjoin (replicate (Z.to_nat reps) l)).
Proof.
  intros H. unfold np_tile. destruct l as [|x l].
  - rewrite mjoin_replicate_nil. reflexivity.
  - destruct (Z.ltb_spec reps 0); [lia|reflexivity].
Qed.

Lemma tile_column (sizes : list Z) (indx : nat) :
  sizes_ok sizes →
  np_tile ((λ a, a / np_prod (take indx sizes))%Z
             <$> arange (np_prod (take (S indx) sizes)))
    (np_prod (drop (S indx) sizes))
  = Ok ((λ r : nat, index_formula sizes indx (Z.of_nat r))
          <$> seq 0 (Z.to_nat (Zprod sizes))).
Proof.
  intros Hok. pose proof (sizes_ok_pos sizes Hok) as Hpos.
  rewrite !np_prod_take, np_prod_drop by exact Hok.
  assert (0 < Zprod (take (S indx) sizes))%Z as H1
    by (apply Zprod_pos, Forall_take, Hpos).
  assert (0 < Zprod (drop (S indx) sizes))%Z as H3
    by (apply Zprod_pos, Forall_drop, Hpos).
  rewrite np_tile_nonneg by lia. unfold arange.
  f_equal. rewrite tile_seq.
  rewrite <- (Zprod_take_drop (S indx) sizes).
  rewrite Z2Nat.inj_mul by lia. rewrite Nat.mul_comm.
  apply list_fmap_ext. intros _ r _. simpl.
  unfold index_formula. rewrite Z2Nat.id by lia. reflexivity.
Qed.

Lemma set_column_rows (rows cols j : nat) (f : nat → list Z) (v : nat → Z) :
  set_column (NDArray rows cols (f <$> seq 0 rows)) j (v <$> seq 0 rows)
  = Ok (NDArray rows cols
          ((λ r, <[j := to_uint32 (v r)]> (f r)) <$> seq 0 rows)).
Proof.
  unfold set_column. simpl. rewrite length_fmap, length_seq.
  rewrite decide_True by reflexivity. do 2 f_equal.
  generalize (seq 0 rows). intros l.
  induction l as [|r l IH]; csimpl; [reflexivity|]. rewrite IH. reflexivity.
Qed.

Lemma count_active_snoc (done : list Z) (s : Z) :
  count_active (done ++ [s])
  = count_active done + (if (1 <? s)%Z then 1 else 0).
Proof. rewrite count_active_app, count_active_cons. simpl. unfold count_active. simpl. lia. Qed.

Lemma fill_columns_spec (sizes : list Z) (rows cols : nat) :
  sizes_ok sizes →
  rows = Z.to_nat (Zprod sizes) →
  ∀ (todo done : list Z) (row : nat → list Z),
    sizes = done ++ todo →
    (∀ r, length (row r) = count_active done) →
    count_active done + count_active todo ≤ cols →
    fill_columns sizes todo (length done) (count_active done)
      (NDArray rows cols
         ((λ r, row r ++ replicate (cols - count_active done) 0%Z)
            <$> seq 0 rows))
    = Ok (NDArray rows cols
            ((λ r, row r ++ active_entries sizes todo (length done) r
                     ++ replicate (cols - count_active done - count_active todo)
                          0%Z)
               <$> seq 0 rows)).
Proof.
  intros Hpos Hrows todo.
  induction todo as [|s todo IH]; intros done row Hsplit Hlen Hcols.
  - simpl. rewrite Nat.sub_0_r. reflexivity.
  - cbn [fill_columns active_entries]. rewrite part2_eq, part3_eq.
    assert (sizes = (done ++ [s]) ++ todo) as Hsplit'
      by (rewrite <- app_assoc; exact Hsplit).
    assert (length (done ++ [s]) = S (length done)) as Hl
      by (rewrite length_app; simpl; lia).
    pose proof (count_active_snoc done s) as Hsnoc.
    rewrite count_active_cons in Hcols. rewrite count_active_cons.
    destruct (1 <? s)%Z.
    + rewrite tile_column by assumption.
      unfold mbind at 1, result_bind at 1.
      rewrite Hrows at 3. rewrite <- Hrows.
      rewrite set_column_rows.
      unfold mbind at 1, result_bind at 1.
      specialize (IH (done ++ [s])
        (λ r, row r ++ [to_uint32 (index_formula sizes (length done) (Z.of_nat r))])
        Hsplit').
      rewrite Hl, Hsnoc in IH.
      replace (count_active done + 1) with (S (count_active done)) in IH by lia.
      etrans; [etrans; [|apply IH]|].
      * f_equal. f_equal. apply list_fmap_ext. intros _ r _. simpl.
        rewrite <- (Hlen r).
        replace (cols - length (row r)) with (S (cols - S (length (row r))))
          by (rewrite Hlen; lia).
        simpl. rewrite insert_app_r_alt by lia. rewrite Nat.sub_diag. simpl.
        rewrite <- app_assoc. reflexivity.
      * intros r. rewrite length_app, Hlen. simpl. lia.
      * lia.
      * do 2 f_equal. apply list_fmap_ext. intros _ r _. simpl.
        rewrite <- !app_assoc. simpl.
        replace (cols - S (count_active done) - count_active todo)
          with (cols - count_active done - S (count_active todo)) by lia.
        reflexivity.
    + specialize (IH (done ++ [s]) row Hsplit').
      rewrite Hl, Hsnoc, !Nat.add_0_r in IH.
      rewrite IH by (assumption || lia). reflexivity.
Qed.

Lemma fmap_const_seq {A} (x : A) (j n : nat) :
  (λ _ : nat, x) <$> seq j n = replicate n x.
Proof.
  revert j. induction n as [|n IH]; intros j; csimpl; [reflexivity|].
  rewrite IH. reflexivity.
Qed.

Lemma make_position_mat_nonempty (sizes : list Z) :
  sizes ≠ [] →
  make_position_mat sizes
  = (if (np_prod sizes <? 0)%Z then
       Raise (ValueError "negative dimensions are not allowed")
     else
       fill_columns sizes sizes 0 0
         (np_zeros (Z.to_nat (np_prod sizes)) (max 1 (count_active sizes)))).
Proof. destruct sizes; [done|reflexivity]. Qed.

(** Closed form of the whole matrix for the sizes it is specified for. *)
Lemma make_position_mat_closed (sizes : list Z) :
  sizes_ok sizes →
  make_position_mat sizes
  = Ok (NDArray (Z.to_nat (Zprod sizes)) (max 1 (count_active sizes))
          ((λ r, active_entries sizes sizes 0 r
                   ++ replicate (max 1 (count_active sizes) - count_active sizes)
                        0%Z)
             <$> seq 0 (Z.to_nat (Zprod sizes)))).
Proof.
  intros Hok. pose proof (sizes_ok_pos sizes Hok) as Hpos.
  rewrite make_position_mat_nonempty by apply Hok.
  rewrite np_prod_sizes by exact Hok.
  pose proof (Zprod_pos sizes Hpos) as Hp.
  destruct (Z.ltb_spec (Zprod sizes) 0) as [?|_]; [lia|].
  pose proof (fill_columns_spec sizes (Z.to_nat (Zprod sizes))
                (max 1 (count_active sizes)) Hok eq_refl sizes [] (λ _, [])
                eq_refl (λ _, eq_refl)) as H.
  simpl in H. rewrite Nat.sub_0_r in H.
  unfold np_zeros.
  replace (replicate (Z.to_nat (Zprod sizes))
             (replicate (1 `max` count_active sizes) 0%Z))
    with ((λ _ : nat, replicate (1 `max` count_active sizes) 0%Z)
            <$> seq 0 (Z.to_nat (Zprod sizes))).
  - apply H. change (count_active []) with 0. lia.
  - apply fmap_const_seq.
Qed.

Lemma active_entries_lookup (sizes todo : list Z) (indx k : nat) (s : Z) (r : nat) :
  todo !! k = Some s → (1 < s)%Z →
  active_entries sizes todo indx r !! count_active (take k todo)
  = Some (to_uint32 (index_formula sizes (indx + k) (Z.of_nat r))).
Proof.
  revert indx k. induction todo as [|t todo IH]; intros indx k Hk Hs; [done|].
  destruct k as [|k]; simpl in Hk.
  - injection Hk as ->. simpl. destruct (Z.ltb_spec 1 s); [|lia].
    rewrite Nat.add_0_r. reflexivity.
  - cbn [take active_entries]. rewrite count_active_cons.
    destruct (1 <? t)%Z; simpl.
    + rewrite (IH (S indx) k Hk Hs). do 3 f_equal. lia.
    + rewrite (IH (S indx) k Hk Hs). do 3 f_equal. lia.
Qed.

Lemma index_formula_bounds (sizes : list Z) (i : nat) (s r : Z) :
  Forall (λ s, (0 < s)%Z) sizes → sizes !! i = Some s → (0 ≤ r)%Z →
  (0 ≤ index_formula sizes i r < s)%Z.
Proof.
  intros Hpos Hi Hr. unfold index_formula.
  rewrite (Zprod_take_S i sizes s Hi).
  assert (0 < Zprod (take i sizes))%Z as H2
    by (apply Zprod_pos, Forall_take, Hpos).
  assert (0 < s)%Z as Hs.
  { rewrite Forall_lookup in Hpos. exact (Hpos i s Hi). }
  split.
  - apply Z.div_pos; [|lia]. apply Z.mod_pos_bound. lia.
  - apply Z.div_lt_upper_bound; [lia|]. apply Z.mod_pos_bound. lia.
Qed.

(** ** Arrays: cells, transposition and broadcasting *)

Lemma item_is_Some {A} (m : ndarray A) (r c : nat) :
  wf_ndarray m → r < nrows m → c < ncols m → is_Some (item m r c).
Proof.
  intros [Hlen Hrows] Hr Hc. unfold item.
  destruct (lookup_lt_is_Some_2 (cells m) r) as [row Hrow]; [lia|].
  rewrite Hrow. simpl. apply lookup_lt_is_Some_2.
  rewrite Forall_lookup in Hrows. rewrite (Hrows r row Hrow). exact Hc.
Qed.

Lemma item_fmap_seq {A} (rows cols : nat) (row : nat → list A) (r c : nat) :
  r < rows →
  item (NDArray rows cols (row <$> seq 0 rows)) r c = row r !! c.
Proof.
  intros Hr. unfold item. simpl.
  rewrite list_lookup_fmap, lookup_seq_lt by assumption. reflexivity.
Qed.

Lemma omap_is_Some {A B} (g : A → option B) (l : list A) :
  Forall (λ x, is_Some (g x)) l →
  length (omap g l) = length l ∧ ∀ i, omap g l !! i = l !! i ≫= g.
Proof.
  induction 1 as [|x l [y Hy] _ [IH1 IH2]]; [by split|].
  csimpl. rewrite Hy. csimpl. split; [lia|].
  intros [|i]; csimpl; [by rewrite Hy|apply IH2].
Qed.

Lemma item_lt {A} (m : ndarray A) (r c : nat) (x : A) :
  wf_ndarray m → item m r c = Some x → r < nrows m ∧ c < ncols m.
Proof.
  intros [Hlen Hrows]. unfold item.
  destruct (cells m !! r) as [row|] eqn:Hrow; [|discriminate]. simpl.
  intros Hc. apply lookup_lt_Some in Hrow as Hr, Hc.
  rewrite Forall_lookup in Hrows. rewrite (Hrows r row Hrow) in Hc. lia.
Qed.

Lemma wf_nd_map {A B} (f : A → B) (m : ndarray A) :
  wf_ndarray m → wf_ndarray (nd_map f m).
Proof.
  intros [H1 H2]. split; simpl.
  - rewrite length_fmap. exact H1.
  - apply Forall_fmap. eapply Forall_impl; [exact H2|].
    intros row Hrow. simpl. rewrite length_fmap. exact Hrow.
Qed.

Lemma item_nd_map {A B} (f : A → B) (m : ndarray A) (r c : nat) :
  item (nd_map f m) r c = f <$> item m r c.
Proof.
  unfold item, nd_map. simpl. rewrite list_lookup_fmap.
  destruct (cells m !! r) as [row|]; simpl; [|reflexivity].
  apply list_lookup_fmap.
Qed.

Lemma wf_atleast_2d {A} (l : list A) : wf_ndarray (np_atleast_2d l).
Proof. split; simpl; [reflexivity|]. by constructor. Qed.

Lemma item_atleast_2d {A} (l : list A) (c : nat) :
  item (np_atleast_2d l) 0 c = l !! c.
Proof. reflexivity. Qed.

Lemma column_fmap {A B} (f : A → B) (rows : list (list A)) (c : nat) :
  omap (.!! c) ((λ row : list A, f <$> row) <$> rows)
  = f <$> omap (.!! c) rows.
Proof.
  induction rows as [|row rows IH]; csimpl; [reflexivity|].
  rewrite list_lookup_fmap. destruct (row !! c); csimpl; rewrite IH; reflexivity.
Qed.

Lemma nd_map_transpose {A B} (f : A → B) (m : ndarray A) :
  nd_map f (transpose m) = transpose (nd_map f m).
Proof.
  unfold nd_map, transpose, column. simpl. f_equal.
  rewrite <- list_fmap_compose. apply list_fmap_ext. intros _ c _. simpl.
  rewrite column_fmap. reflexivity.
Qed.

(** [transpose] exchanges the two positions of every cell. *)
Lemma item_transpose {A} (m : ndarray A) (r c : nat) :
  wf_ndarray m → c < ncols m →
  item (transpose m) c r = item m r c.
Proof.
  intros [_ Hwf] Hc. unfold item, transpose, column. simpl.
  rewrite list_lookup_fmap, lookup_seq_lt by assumption. simpl.
  apply omap_is_Some. eapply Forall_impl; [exact Hwf|].
  intros row Hrow. simpl in *. apply lookup_lt_is_Some_2. lia.
Qed.

Lemma item_transpose_lt {A} (m : ndarray A) (r c : nat) (x : A) :
  item (transpose m) c r = Some x → c < ncols m.
Proof.
  unfold item, transpose. simpl. rewrite list_lookup_fmap.
  destruct (seq 0 (ncols m) !! c) as [c'|] eqn:Hc; [|discriminate].
  intros _. by apply lookup_seq in Hc as [_ ?].
Qed.

Lemma item_at_orient {A} (sp : bool) (m : ndarray A) (r k : nat) (x : A) :
  wf_ndarray m →
  (item_at sp (orient sp m) r k = Some x ↔ item m r k = Some x).
Proof.
  intros Hwf. destruct sp; simpl; [|reflexivity]. split.
  - intros H. rewrite item_transpose in H; [exact H|exact Hwf|].
    by eapply item_transpose_lt.
  - intros H. rewrite item_transpose; [exact H|exact Hwf|].
    by eapply item_lt.
Qed.

Lemma nd_map_orient {A B} (f : A → B) (sp : bool) (m : ndarray A) :
  nd_map f (orient sp m) = orient sp (nd_map f m).
Proof. destruct sp; [apply nd_map_transpose|reflexivity]. Qed.

Lemma shape_orient {A B} (sp : bool) (m : ndarray A) (m' : ndarray B) :
  shape m' = shape m → shape (orient sp m') = shape (orient sp m).
Proof. unfold shape. destruct sp; simpl; congruence. Qed.

Lemma wf_transpose {A} (m : ndarray A) : wf_ndarray m → wf_ndarray (transpose m).
Proof.
  intros [Hlen Hrows]. split; simpl.
  - rewrite length_fmap, length_seq. reflexivity.
  - apply Forall_fmap, Forall_forall. intros c [_ Hc]%elem_of_seq. simpl.
    unfold column. rewrite <- Hlen. apply omap_is_Some.
    eapply Forall_impl; [exact Hrows|]. intros row Hrow. simpl in *.
    apply lookup_lt_is_Some_2. lia.
Qed.

Lemma wf_orient {A} (sp : bool) (m : ndarray A) :
  wf_ndarray m → wf_ndarray (orient sp m).
Proof. destruct sp; [apply wf_transpose|done]. Qed.

Lemma bidx_lt (a b n i : nat) :
  broadcast_dim a b = Some n → i < n → bidx a i < a ∧ bidx b i < b.
Proof.
  unfold broadcast_dim, bidx. intros H Hi.
  repeat case_decide; simplify_eq; lia.
Qed.

Lemma bidx_id (n i : nat) : i < n → bidx n i = i.
Proof. unfold bidx. intros Hi. case_decide; lia. Qed.

Lemma broadcast_dim_same (a : nat) : broadcast_dim a a = Some a.
Proof. unfold broadcast_dim. by rewrite decide_True. Qed.

Lemma broadcast_dim_1_r (a : nat) : broadcast_dim a 1 = Some a.
Proof. unfold broadcast_dim. repeat case_decide; congruence. Qed.

Lemma broadcast_dim_1_l (a : nat) : broadcast_dim 1 a = Some a.
Proof. unfold broadcast_dim. repeat case_decide; congruence. Qed.

Lemma broadcast2_spec {A B C} (f : A → B → C) (x : ndarray A) (y : ndarray B)
    (rows cols : nat) :
  wf_ndarray x → wf_ndarray y →
  broadcast_dim (nrows x) (nrows y) = Some rows →
  broadcast_dim (ncols x) (ncols y) = Some cols →
  ∃ z, broadcast2 f x y = Ok z
       ∧ nrows z = rows ∧ ncols z = cols ∧ wf_ndarray z
       ∧ ∀ r c, r < rows → c < cols →
           ∃ xv yv,
             item x (bidx (nrows x) r) (bidx (ncols x) c) = Some xv
             ∧ item y (bidx (nrows y) r) (bidx (ncols y) c) = Some yv
             ∧ item z r c = Some (f xv yv).
Proof.
  intros Hx Hy Hrows Hcols. unfold broadcast2. rewrite Hrows, Hcols.
  eexists. split; [reflexivity|].
  assert (∀ r, r < rows →
            Forall (λ c, is_Some
                      (xv ← item x (bidx (nrows x) r) (bidx (ncols x) c);
                       yv ← item y (bidx (nrows y) r) (bidx (ncols y) c);
                       Some (f xv yv))) (seq 0 cols)) as Hall.
  { intros r Hr. apply Forall_forall. intros c [_ Hc]%elem_of_seq.
    destruct (bidx_lt _ _ _ r Hrows Hr) as [Hrx Hry].
    destruct (bidx_lt _ _ _ c Hcols) as [Hcx Hcy]; [lia|].
    destruct (item_is_Some x _ _ Hx Hrx Hcx) as [xv ->].
    destruct (item_is_Some y _ _ Hy Hry Hcy) as [yv ->].
    simpl. eauto. }
  simpl. split; [reflexivity|]. split; [reflexivity|]. split.
  - split; simpl.
    + rewrite length_fmap, length_seq. reflexivity.
    + apply Forall_fmap, Forall_forall. intros r [_ Hr]%elem_of_seq. simpl.
      destruct (omap_is_Some _ _ (Hall r ltac:(lia))) as [-> _].
      apply length_seq.
  - intros r c Hr Hc.
    destruct (bidx_lt _ _ _ r Hrows Hr) as [Hrx Hry].
    destruct (bidx_lt _ _ _ c Hcols Hc) as [Hcx Hcy].
    destruct (item_is_Some x _ _ Hx Hrx Hcx) as [xv Hxv].
    destruct (item_is_Some y _ _ Hy Hry Hcy) as [yv Hyv].
    exists xv, yv. split; [exact Hxv|]. split; [exact Hyv|].
    rewrite item_fmap_seq by assumption.
    destruct (omap_is_Some _ _ (Hall r Hr)) as [_ ->].
    rewrite lookup_seq_lt by assumption. simpl.
    rewrite Hxv, Hyv. reflexivity.
Qed.

(** When the per-axis arrays have one entry per column of the index
    matrix, the value matrix has the shape of the index matrix and each of
    its cells is computed from the cell of the index matrix at the same
    place and the step and initial value of its column. *)
Lemma raw_values_aligned (indices : ndarray Z) (st iv : list float) :
  wf_ndarray indices →
  length st = ncols indices → length iv = ncols indices →
  ∃ values,
    raw_values indices st iv = Ok values
    ∧ shape values = shape indices
    ∧ wf_ndarray values
    ∧ ∀ r c idx, item indices r c = Some idx →
        ∃ s i0, st !! c = Some s ∧ iv !! c = Some i0
                ∧ item values r c
                  = Some (i0 + float32_of_uint32 idx * s)%float.
Proof.
  intros Hwf Hst Hiv. unfold raw_values, indices_to_values.
  destruct (broadcast2_spec PrimFloat.mul (nd_map float32_of_uint32 indices)
              (np_atleast_2d st) (nrows indices) (ncols indices))
    as (scaled & -> & Hr1 & Hc1 & Hwf1 & Hitem1).
  { by apply wf_nd_map. }
  { apply wf_atleast_2d. }
  { apply broadcast_dim_1_r. }
  { simpl. rewrite Hst. apply broadcast_dim_same. }
  cbn [mbind result_bind].
  destruct (broadcast2_spec PrimFloat.add (np_atleast_2d iv) scaled
              (nrows indices) (ncols indices))
    as (values & -> & Hr2 & Hc2 & Hwf2 & Hitem2).
  { apply wf_atleast_2d. }
  { exact Hwf1. }
  { simpl. rewrite Hr1. apply broadcast_dim_1_l. }
  { simpl. rewrite Hiv, Hc1. apply broadcast_dim_same. }
  exists values. split; [reflexivity|].
  split; [unfold shape; congruence|]. split; [exact Hwf2|].
  intros r c idx Hidx.
  destruct (item_lt _ _ _ _ Hwf Hidx) as [Hr Hc].
  destruct (Hitem2 r c Hr Hc) as (i0 & sv & Hi0 & Hsv & Hv).
  destruct (Hitem1 r c Hr Hc) as (fv & s & Hfv & Hs & Hsc).
  simpl in Hi0, Hs, Hfv.
  rewrite Hr1, (bidx_id _ r Hr), Hc1, (bidx_id _ c Hc), Hsc in Hsv.
  injection Hsv as <-.
  rewrite (bidx_id _ r Hr), (bidx_id _ c Hc), item_nd_map, Hidx in Hfv.
  injection Hfv as <-.
  rewrite Hst, (bidx_id _ c Hc) in Hs.
  rewrite Hiv, (bidx_id _ c Hc) in Hi0.
  change (bidx 1 r) with 0 in Hs, Hi0.
  rewrite item_atleast_2d in Hs, Hi0.
  exists s, i0. split; [exact Hs|]. split; [exact Hi0|exact Hv].
Qed.

(** ** build_ind_val_dsets: the steps of a call that returns *)

Lemma default_or_check_Ok {A B} (dims : list B) (arg : option (list A))
    (d : A) (msg : string) (l : list A) :
  default_or_check dims arg d msg = Ok l →
  length l = length dims
  ∧ (arg = None ∧ l = replicate (length dims) d ∨ arg = Some l).
Proof.
  unfold default_or_check. destruct arg as [l'|].
  - case_decide as H; [discriminate|]. intros [= <-]. split; [lia|by right].
  - intros [= <-]. rewrite length_replicate. split; [reflexivity|by left].
Qed.

Lemma build_ind_val_dsets_inv dims sp steps initial_values labels units di dv :
  build_ind_val_dsets dims sp steps initial_values labels units = Ok (di, dv) →
  ∃ st iv lb indices values,
    default_or_check dims steps 1%float
      "The arrays for step sizes and dimension sizes must be the same." = Ok st
    ∧ default_or_check dims initial_values 0%float
        "The arrays for initial values and dimension sizes must be the same."
      = Ok iv
    ∧ default_or_check dims labels ""
        "The arrays for labels and dimension sizes must be the same." = Ok lb
    ∧ make_position_mat dims = Ok indices
    ∧ raw_values indices st iv = Ok values
    ∧ from_option (λ u, length u = length dims) True units
    ∧ data di = orient sp indices
    ∧ data dv = nd_map to_f32 (orient sp values)
    ∧ attrs di !! "labels" = Some (ASlices (region_slices_of sp lb))
    ∧ attrs dv !! "labels" = Some (ASlices (region_slices_of sp lb)).
Proof.
  unfold build_ind_val_dsets, raw_values.
  destruct (default_or_check dims steps _ _) as [st|] eqn:Est; [|discriminate].
  destruct (default_or_check dims initial_values _ _) as [iv|] eqn:Eiv;
    [|discriminate].
  destruct (default_or_check dims labels _ _) as [lb|] eqn:Elb; [|discriminate].
  destruct (make_position_mat dims) as [indices|] eqn:Eind; [|discriminate].
  cbn [mbind result_bind].
  destruct (indices_to_values _ _ _) as [values|] eqn:Eval; [|discriminate].
  cbn [mbind result_bind].
  intros H. exists st, iv, lb, indices, values.
  do 4 (split; [reflexivity|]). split; [exact Eval|].
  destruct sp, units as [u|]; cbn in H;
    try (case_decide as Hu; [discriminate|]); injection H as <- <-;
    cbn; repeat split; try reflexivity; lia.
Qed.

(** C5. With the same arguments, either both modes raise the same
    exception, or both return and the spectroscopic index and value
    matrices are the transposes of the position ones. *)
Theorem orientation_law (dimensions : list Z)
    (steps initial_values : option (list float))
    (labels units : option (list string)) :
  match build_ind_val_dsets dimensions false steps initial_values labels units,
        build_ind_val_dsets dimensions true steps initial_values labels units
  with
  | Ok (pos_inds, pos_vals), Ok (spec_inds, spec_vals) =>
      data spec_inds = transpose (data pos_inds)
      ∧ data spec_vals = transpose (data pos_vals)
  | Raise e_pos, Raise e_spec => e_pos = e_spec
  | _, _ => False
  end.
Proof.
  unfold build_ind_val_dsets.
  destruct (default_or_check dimensions steps _ _) as [st|]; [|reflexivity].
  destruct (default_or_check dimensions initial_values _ _) as [iv|];
    [|reflexivity].
  destruct (default_or_check dimensions labels _ _) as [lb|]; [|reflexivity].
  destruct (make_position_mat dimensions) as [indices|]; [|reflexivity].
  cbn [mbind result_bind].
  destruct (indices_to_values _ _ _) as [values|]; [|reflexivity].
  cbn [mbind result_bind].
  destruct units as [u|]; [case_decide; [reflexivity|]|]; cbn;
    (split; [reflexivity|apply nd_map_transpose]).
Qed.

(** ** The index matrix *)

Lemma to_uint32_small (z : Z) : (0 ≤ z < 2 ^ 32)%Z → to_uint32 z = z.
Proof. intros H. unfold to_uint32. apply Z.mod_small. exact H. Qed.

Lemma axis_column_lt (sizes : list Z) (i : nat) (s : Z) :
  sizes !! i = Some s → (1 < s)%Z → axis_column sizes i < count_active sizes.
Proof.
  intros Hi Hs. unfold axis_column.
  rewrite <- (take_drop i sizes) at 2. rewrite count_active_app.
  rewrite (drop_S sizes s i Hi), count_active_cons.
  destruct (Z.ltb_spec 1 s); lia.
Qed.

Lemma count_active_take_mono (l : list Z) (i j : nat) :
  i ≤ j → count_active (take i l) ≤ count_active (take j l).
Proof.
  intros Hij. rewrite <- (take_drop i (take j l)), count_active_app.
  rewrite take_take. replace (i `min` j) with i by lia. lia.
Qed.

Lemma axis_column_mono (sizes : list Z) (i j : nat) (s : Z) :
  sizes !! i = Some s → (1 < s)%Z → i < j →
  axis_column sizes i < axis_column sizes j.
Proof.
  intros Hi Hs Hij. unfold axis_column.
  pose proof (count_active_take_mono sizes (S i) j Hij) as H.
  rewrite (take_S_r sizes i s Hi), count_active_snoc in H.
  destruct (Z.ltb_spec 1 s); lia.
Qed.

Lemma active_entries_inactive (sizes todo : list Z) (indx r : nat) :
  count_active todo = 0 → active_entries sizes todo indx r = [].
Proof.
  intros H. apply length_zero_iff_nil. rewrite length_active_entries. exact H.
Qed.

Lemma count_active_ones (sizes : list Z) :
  Forall (λ s, s = 1%Z) sizes → count_active sizes = 0 ∧ Zprod sizes = 1%Z.
Proof.
  induction 1 as [|s l -> _ [IH1 IH2]]; [done|].
  rewrite count_active_cons. simpl. rewrite IH2. split; [exact IH1|reflexivity].
Qed.

Lemma make_position_mat_wf (sizes : list Z) (pos_mat : ndarray Z) :
  sizes_ok sizes → make_position_mat sizes = Ok pos_mat →
  wf_ndarray pos_mat.
Proof.
  intros Hok. rewrite make_position_mat_closed by assumption.
  intros [= <-]. split; simpl.
  - rewrite length_fmap, length_seq. reflexivity.
  - apply Forall_fmap, Forall_forall. intros r _. simpl.
    rewrite length_app, length_active_entries, length_replicate. lia.
Qed.

(** The cell of an active axis: the closed form, stored as a [np.uint32]. *)
Lemma item_active_axis_uint32 (sizes : list Z) (i : nat) (s : Z) (r : nat) :
  sizes_ok sizes → sizes !! i = Some s → (1 < s)%Z →
  (Z.of_nat r < Zprod sizes)%Z →
  ∃ pos_mat,
    make_position_mat sizes = Ok pos_mat
    ∧ item pos_mat r (axis_column sizes i)
      = Some (to_uint32 (index_formula sizes i (Z.of_nat r))).
Proof.
  intros Hok Hi Hs Hr.
  eexists. split; [apply make_position_mat_closed, Hok|].
  rewrite item_fmap_seq by lia.
  rewrite lookup_app_l.
  - unfold axis_column.
    rewrite (active_entries_lookup sizes sizes 0 i s r Hi Hs). reflexivity.
  - rewrite length_active_entries. eapply axis_column_lt; eassumption.
Qed.

(** A list with an entry at a position, or without singleton axes, is not
    empty. *)
Lemma sizes_ok_lookup (sizes : list Z) (i : nat) (s : Z) :
  Forall (λ s, (0 < s)%Z) sizes → (Zprod sizes ≤ 2 ^ 53)%Z →
  sizes !! i = Some s → sizes_ok sizes.
Proof. intros Hpos Hmax Hi. split; [|done]. intros ->. discriminate Hi. Qed.

(** C1, as amended. For positive axis sizes with at most 2^53 points,
    every active axis [i] of size at most 2^32 (the range of the matrix
    cells) and every row [r], the cell of row [r] in the column of axis
    [i] is [floor((r mod part1_i) / part2_i)] with
    [part1_i = prod(sizes[0..i])] and [part2_i = prod(sizes[0..i-1])];
    for sizes [3, 2] the matrix has 6 rows and 2 columns, column 0 is
    [0,1,2,0,1,2] and column 1 is [0,0,0,1,1,1]. *)
Theorem make_position_mat_closed_form :
  (∀ (sizes : list Z) (i : nat) (s : Z) (r : nat),
     Forall (λ s, (0 < s)%Z) sizes →
     (Zprod sizes ≤ 2 ^ 53)%Z →
     sizes !! i = Some s → (1 < s ≤ 2 ^ 32)%Z →
     (Z.of_nat r < Zprod sizes)%Z →
     ∃ pos_mat,
       make_position_mat sizes = Ok pos_mat
       ∧ item pos_mat r (axis_column sizes i)
         = Some ((Z.of_nat r mod Zprod (take (S i) sizes))
                   / Zprod (take i sizes))%Z)
  ∧ (∃ pos_mat,
       make_position_mat [3; 2]%Z = Ok pos_mat
       ∧ shape pos_mat = (6, 2)
       ∧ column pos_mat 0 = [0; 1; 2; 0; 1; 2]%Z
       ∧ column pos_mat 1 = [0; 0; 0; 1; 1; 1]%Z).
Proof.
  split.
  - intros sizes i s r Hpos Hmax Hi [Hs Hs32] Hr.
    pose proof (sizes_ok_lookup sizes i s Hpos Hmax Hi) as Hok.
    destruct (item_active_axis_uint32 sizes i s r Hok Hi Hs Hr)
      as (pos_mat & Hmat & Hitem).
    exists pos_mat. split; [exact Hmat|].
    rewrite Hitem. f_equal. apply to_uint32_small.
    pose proof (index_formula_bounds sizes i s (Z.of_nat r) Hpos Hi) as Hb.
    unfold index_formula in Hb. lia.
  - eexists. split; [vm_compute; reflexivity|].
    repeat split.
Qed.

(** The theorem at sizes [3, 2], axis 1, row 4. *)
Lemma make_position_mat_closed_form_witness :
  ∃ pos_mat, make_position_mat [3; 2]%Z = Ok pos_mat
             ∧ item pos_mat 4 (axis_column [3; 2]%Z 1) = Some 1%Z.
Proof.
  destruct (proj1 make_position_mat_closed_form [3; 2]%Z 1 2%Z 4)
    as (pos_mat & H1 & H2).
  - repeat constructor.
  - vm_compute. discriminate.
  - reflexivity.
  - lia.
  - reflexivity.
  - exists pos_mat. split; [exact H1|exact H2].
Defined.

(** C1 as stated, for all positive sizes, fails twice.  At sizes
    [2^62, 2] the product taken by [np.prod] wraps around to -2^63 and
    [np.zeros] raises: there is no matrix.  At the single size 2^32 + 1
    the matrix is returned, and its cell in row 2^32 is a [np.uint32],
    below 2^32, while the formula gives the index 2^32. *)
Lemma make_position_mat_closed_form_counterexample :
  make_position_mat [2 ^ 62; 2]%Z
  = Raise (ValueError "negative dimensions are not allowed")
  ∧ (∃ pos_mat cell,
       make_position_mat [2 ^ 32 + 1]%Z = Ok pos_mat
       ∧ item pos_mat (Z.to_nat (2 ^ 32)) (axis_column [2 ^ 32 + 1]%Z 0)
         = Some cell
       ∧ (cell < 2 ^ 32)%Z
       ∧ index_formula [2 ^ 32 + 1]%Z 0 (2 ^ 32) = (2 ^ 32)%Z)
  ∧ ¬ (∀ (sizes : list Z) (i : nat) (s : Z) (r : nat),
         Forall (λ s, (0 < s)%Z) sizes →
         sizes !! i = Some s → (1 < s)%Z →
         (Z.of_nat r < Zprod sizes)%Z →
         ∃ pos_mat,
           make_position_mat sizes = Ok pos_mat
           ∧ item pos_mat r (axis_column sizes i)
             = Some ((Z.of_nat r mod Zprod (take (S i) sizes))
                       / Zprod (take i sizes))%Z).
Proof.
  assert (make_position_mat [2 ^ 62; 2]%Z
          = Raise (ValueError "negative dimensions are not allowed")) as Hwrap
    by (vm_compute; reflexivity).
  split; [exact Hwrap|]. split.
  - assert (sizes_ok [2 ^ 32 + 1]%Z) as Hok.
    { split; [discriminate|]. split; [|vm_compute; discriminate].
      repeat constructor. }
    destruct (item_active_axis_uint32 [2 ^ 32 + 1]%Z 0 (2 ^ 32 + 1)
                (Z.to_nat (2 ^ 32)) Hok eq_refl)
      as (pos_mat & Hmat & Hitem).
    + reflexivity.
    + rewrite Z2Nat.id by (vm_compute; discriminate). vm_compute. reflexivity.
    + exists pos_mat, 0%Z. split; [exact Hmat|].
      split; [|split; vm_compute; reflexivity].
      rewrite Hitem. rewrite Z2Nat.id by (vm_compute; discriminate).
      f_equal.
  - intros H.
    destruct (H [2 ^ 62; 2]%Z 0 (2 ^ 62)%Z 0) as (pos_mat & Hmat & _).
    + repeat constructor.
    + reflexivity.
    + reflexivity.
    + vm_compute. reflexivity.
    + rewrite Hwrap in Hmat. discriminate Hmat.
Qed.

(** C2, as amended. For a non-empty list of positive axis sizes with at
    most 2^53 points, the position-mode index matrix has
    [prod(sizes)] rows and one column for each axis of size above 1 (each
    such axis has its own column, an axis of size 1 has none), with a
    single zero column in a single row when every axis has size 1; the
    spectroscopic-mode index matrix has [prod(sizes)] columns. *)
Theorem make_position_mat_shape (sizes : list Z) :
  sizes ≠ [] →
  Forall (λ s, (0 < s)%Z) sizes →
  (Zprod sizes ≤ 2 ^ 53)%Z →
  ∃ pos_mat,
    make_position_mat sizes = Ok pos_mat
    ∧ wf_ndarray pos_mat
    ∧ Z.of_nat (nrows pos_mat) = Zprod sizes
    ∧ ncols pos_mat = max 1 (count_active sizes)
    ∧ (0 < count_active sizes → ncols pos_mat = count_active sizes)
    ∧ (∀ i s, sizes !! i = Some s → (1 < s)%Z →
         axis_column sizes i < ncols pos_mat
         ∧ ∀ j, i < j → axis_column sizes i < axis_column sizes j)
    ∧ (Forall (λ s, s = 1%Z) sizes → pos_mat = NDArray 1 1 [[0%Z]])
    ∧ (∀ steps initial_values labels units ds_indices ds_values,
         build_ind_val_dsets sizes true steps initial_values labels units
         = Ok (ds_indices, ds_values) →
         Z.of_nat (ncols (data ds_indices)) = Zprod sizes
         ∧ nrows (data ds_indices) = max 1 (count_active sizes)).
Proof.
  intros Hne Hpos Hmax.
  assert (sizes_ok sizes) as Hok by done.
  pose proof (make_position_mat_closed sizes Hok) as Hclosed.
  pose proof (Zprod_pos sizes Hpos) as Hprod.
  eexists. split; [exact Hclosed|].
  split; [eapply make_position_mat_wf; eassumption|].
  simpl. split; [lia|]. split; [reflexivity|]. split; [lia|].
  split; [|split].
  - intros i s Hi Hs. split.
    + pose proof (axis_column_lt sizes i s Hi Hs). lia.
    + intros j Hij. eapply axis_column_mono; eassumption.
  - intros Hones. destruct (count_active_ones sizes Hones) as [Hc Hp].
    rewrite Hc, Hp. simpl. rewrite active_entries_inactive by exact Hc.
    reflexivity.
  - intros steps initial_values labels units ds_indices ds_values Hb.
    apply build_ind_val_dsets_inv in Hb
      as (st & iv & lb & indices & values & _ & _ & _ & Hind & _ & _ & Hd & _).
    rewrite Hclosed in Hind. injection Hind as <-.
    rewrite Hd. simpl. split; [lia|reflexivity].
Qed.

(** The theorem at sizes [1, 5, 1, 2]. *)
Lemma make_position_mat_shape_witness :
  ∃ pos_mat,
    make_position_mat [1; 5; 1; 2]%Z = Ok pos_mat
    ∧ Z.of_nat (nrows pos_mat) = 10%Z ∧ ncols pos_mat = 2.
Proof.
  destruct (make_position_mat_shape [1; 5; 1; 2]%Z)
    as (pos_mat & H1 & _ & H2 & H3 & _).
  - discriminate.
  - repeat constructor.
  - vm_compute. discriminate.
  - exists pos_mat. split; [exact H1|]. split; [exact H2|exact H3].
Defined.

(** C2 as stated, for every sequence of positive sizes, fails at the
    empty sequence, where [np.prod] is the float 1.0 and [np.zeros] raises
    a [TypeError], and at sizes [2^62, 2], where the product wraps around
    to -2^63 and [np.zeros] raises a [ValueError]: in both cases there is
    no matrix. *)
Lemma make_position_mat_shape_counterexample :
  (∃ msg, make_position_mat [] = Raise (TypeError msg))
  ∧ make_position_mat [2 ^ 62; 2]%Z
    = Raise (ValueError "negative dimensions are not allowed")
  ∧ ¬ (∀ sizes : list Z,
         Forall (λ s, (0 < s)%Z) sizes →
         ∃ pos_mat,
           make_position_mat sizes = Ok pos_mat
           ∧ Z.of_nat (nrows pos_mat) = Zprod sizes
           ∧ ncols pos_mat = max 1 (count_active sizes))
  ∧ ¬ (∀ sizes : list Z,
         sizes ≠ [] → Forall (λ s, (0 < s)%Z) sizes →
         ∃ pos_mat,
           make_position_mat sizes = Ok pos_mat
           ∧ Z.of_nat (nrows pos_mat) = Zprod sizes
           ∧ ncols pos_mat = max 1 (count_active sizes)).
Proof.
  split; [eexists; reflexivity|].
  assert (make_position_mat [2 ^ 62; 2]%Z
          = Raise (ValueError "negative dimensions are not allowed")) as Hwrap
    by (vm_compute; reflexivity).
  split; [exact Hwrap|]. split.
  - intros H. destruct (H [] (Forall_nil_2 _)) as (pos_mat & Hmat & _).
    discriminate Hmat.
  - intros H. destruct (H [2 ^ 62; 2]%Z) as (pos_mat & Hmat & _).
    + discriminate.
    + repeat constructor.
    + rewrite Hwrap in Hmat. discriminate Hmat.
Qed.

(** Sizes [2, 2^62, 2]: the number of points wraps around to 0 and
    [np.zeros] returns a matrix without rows, but [part3] of the first
    axis is -2^63 and [np.tile] raises. *)
Example wrapped_product_raises :
  np_prod [2; 2 ^ 62; 2]%Z = 0%Z
  ∧ make_position_mat [2; 2 ^ 62; 2]%Z
    = Raise (ValueError "negative dimensions are not allowed").
Proof. split; vm_compute; reflexivity. Qed.

(** Scenarios B and C of the specification, and the spectroscopic shape
    for sizes [3, 2]. *)
Example scenario_B :
  make_position_mat [1; 5]%Z
  = Ok (NDArray 5 1 [[0]; [1]; [2]; [3]; [4]]%Z).
Proof. vm_compute. reflexivity. Qed.

Example scenario_C :
  make_position_mat [1; 1]%Z = Ok (NDArray 1 1 [[0%Z]]).
Proof. vm_compute. reflexivity. Qed.

Example spectroscopic_shape_3_2 :
  match build_ind_val_dsets [3; 2]%Z true None None None None with
  | Ok (ds_indices, ds_values) =>
      shape (data ds_indices) = (2, 6) ∧ shape (data ds_values) = (2, 6)
  | Raise _ => False
  end.
Proof. vm_compute. split; reflexivity. Qed.

(** ** The slicing dictionaries *)

Lemma get_position_slicing_eq labels curr_pix :
  get_position_slicing labels curr_pix = slicing_of (position_pair curr_pix) labels.
Proof. reflexivity. Qed.

Lemma get_spectral_slicing_eq labels curr_spec :
  get_spectral_slicing labels curr_spec = slicing_of (spectral_pair curr_spec) labels.
Proof. reflexivity. Qed.

Lemma slicing_of_snoc pair (labels : list string) (l : string) :
  slicing_of pair (labels ++ [l])
  = <[l := pair (length labels)]> (slicing_of pair labels).
Proof.
  unfold slicing_of. rewrite length_app. simpl.
  rewrite seq_app. simpl.
  rewrite zip_with_app by (rewrite length_seq; reflexivity).
  simpl. rewrite foldl_app. reflexivity.
Qed.

(** A label is mapped to the pair of the last position that carries it. *)
Lemma slicing_of_lookup_last pair (labels : list string) (k : nat) (l : string) :
  labels !! k = Some l →
  (∀ j, k < j → labels !! j ≠ Some l) →
  slicing_of pair labels !! l = Some (pair k).
Proof.
  revert k. induction labels as [|x labels IH] using rev_ind; intros k Hk Hlast;
    [done|].
  rewrite slicing_of_snoc.
  destruct (decide (k = length labels)) as [->|Hne].
  - rewrite lookup_app_r, Nat.sub_diag in Hk by lia. injection Hk as ->.
    apply lookup_insert_eq.
  - assert (k < length labels) as Hlt.
    { apply lookup_lt_Some in Hk. rewrite length_app in Hk. simpl in Hk. lia. }
    rewrite lookup_app_l in Hk by assumption.
    rewrite lookup_insert_ne.
    + apply IH; [exact Hk|]. intros j Hj Hj'. apply (Hlast j Hj).
      rewrite lookup_app_l; [exact Hj'|]. by eapply lookup_lt_Some.
    + intros ->. apply (Hlast (length labels) Hlt).
      rewrite lookup_app_r, Nat.sub_diag by lia. reflexivity.
Qed.

Lemma slicing_of_lookup_None pair (labels : list string) (l : string) :
  l ∉ labels → slicing_of pair labels !! l = None.
Proof.
  induction labels as [|x labels IH] using rev_ind; intros Hl; [done|].
  rewrite slicing_of_snoc. rewrite not_elem_of_app in Hl. destruct Hl as [H1 H2].
  rewrite lookup_insert_ne by set_solver. by apply IH.
Qed.

(** Every label that occurs has a last occurrence. *)
Lemma last_occurrence (labels : list string) (i : nat) (l : string) :
  labels !! i = Some l →
  ∃ k, i ≤ k ∧ labels !! k = Some l ∧ ∀ j, k < j → labels !! j ≠ Some l.
Proof.
  revert i. induction labels as [|x labels IH] using rev_ind; intros i Hi; [done|].
  destruct (decide (x = l)) as [->|Hx].
  - exists (length labels). split; [|split].
    + apply lookup_lt_Some in Hi. rewrite length_app in Hi. simpl in Hi. lia.
    + rewrite lookup_app_r, Nat.sub_diag by lia. reflexivity.
    + intros j Hj Hj'. apply lookup_lt_Some in Hj'.
      rewrite length_app in Hj'. simpl in Hj'. lia.
  - assert (i < length labels) as Hlt.
    { destruct (decide (i = length labels)) as [->|]; [|
        apply lookup_lt_Some in Hi; rewrite length_app in Hi; simpl in Hi; lia].
      rewrite lookup_app_r, Nat.sub_diag in Hi by lia. simpl in Hi. congruence. }
    rewrite lookup_app_l in Hi by assumption.
    destruct (IH i Hi) as (k & Hik & Hk & Hlast).
    exists k. split; [exact Hik|]. split.
    + rewrite lookup_app_l; [exact Hk|]. by eapply lookup_lt_Some.
    + intros j Hj Hj'. destruct (decide (j < length labels)) as [Hjl|Hjl].
      * rewrite lookup_app_l in Hj' by assumption. exact (Hlast j Hj Hj').
      * apply lookup_lt_Some in Hj' as Hjb. rewrite length_app in Hjb.
        simpl in Hjb. replace j with (length labels) in Hj' by lia.
        rewrite lookup_app_r, Nat.sub_diag in Hj' by lia. simpl in Hj'. congruence.
Qed.

Lemma slicing_of_replicate pair (l : string) (n : nat) :
  slicing_of pair (replicate (S n) l) = {[ l := pair n ]}.
Proof.
  induction n as [|n IH]; [reflexivity|].
  replace (replicate (S (S n)) l) with (replicate (S n) l ++ [l]).
  - rewrite slicing_of_snoc, IH, length_replicate.
    apply insert_singleton_eq.
  - rewrite <- replicate_cons_app. reflexivity.
Qed.

Lemma slice_indices_slice2 (k n : nat) :
  k < n → slice_indices (slice2 (Z.of_nat k) (Z.of_nat k + 1)) n = (k, S k).
Proof.
  intros Hk. unfold slice_indices, clip_bound. simpl.
  destruct (Z.ltb_spec (Z.of_nat k) 0); [lia|].
  destruct (Z.ltb_spec (Z.of_nat k + 1) 0); [lia|].
  f_equal; lia.
Qed.

Lemma slice_indices_slice1_None (n : nat) :
  slice_indices (slice1 None) n = (0, n).
Proof. reflexivity. Qed.

Lemma slice_indices_slice1_Some (c : Z) (n : nat) :
  (0 ≤ c)%Z → slice_indices (slice1 (Some c)) n = (0, Z.to_nat c `min` n).
Proof.
  intros Hc. unfold slice_indices, clip_bound. simpl.
  destruct (Z.ltb_spec c 0); [lia|]. f_equal. lia.
Qed.

Lemma position_pair_inj (cp : option Z) (i k : nat) :
  position_pair cp i = position_pair cp k → i = k.
Proof. unfold position_pair, slice2. intros [= H]. lia. Qed.

Lemma spectral_pair_inj (cs : option Z) (i k : nat) :
  spectral_pair cs i = spectral_pair cs k → i = k.
Proof. unfold spectral_pair, slice2. intros [= H]. lia. Qed.

(** C6, as amended. The label at position [k], when it does not occur
    again at a later position, is mapped by [get_position_slicing] to the
    pair (rows up to the bound, or all rows when it is omitted; columns
    [k, k+1)) and by [get_spectral_slicing] to the transposed pair. *)
Theorem slicing_last_position (labels : list string) (bound : option Z)
    (k : nat) (l : string) :
  labels !! k = Some l →
  (∀ j, k < j → labels !! j ≠ Some l) →
  get_position_slicing labels bound !! l
  = Some (slice1 bound, slice2 (Z.of_nat k) (Z.of_nat k + 1))
  ∧ get_spectral_slicing labels bound !! l
    = Some (slice2 (Z.of_nat k) (Z.of_nat k + 1), slice1 bound)
  ∧ (∀ n, k < n →
       slice_indices (slice2 (Z.of_nat k) (Z.of_nat k + 1)) n = (k, S k))
  ∧ (∀ n, bound = None → slice_indices (slice1 bound) n = (0, n))
  ∧ (∀ n c, bound = Some c → (0 ≤ c)%Z →
       slice_indices (slice1 bound) n = (0, Z.to_nat c `min` n)).
Proof.
  intros Hk Hlast. repeat split.
  - rewrite get_position_slicing_eq.
    apply (slicing_of_lookup_last (position_pair bound) labels k l Hk Hlast).
  - rewrite get_spectral_slicing_eq.
    apply (slicing_of_lookup_last (spectral_pair bound) labels k l Hk Hlast).
  - intros n Hn. by apply slice_indices_slice2.
  - intros n ->. reflexivity.
  - intros n c -> Hc. by apply slice_indices_slice1_Some.
Qed.

(** The theorem at labels [X, Y], position 0. *)
Lemma slicing_last_position_witness :
  get_position_slicing ["X"; "Y"] None !! "X"
  = Some (slice1 None, slice2 0 1)
  ∧ get_spectral_slicing ["X"; "Y"] None !! "X"
    = Some (slice2 0 1, slice1 None).
Proof.
  destruct (slicing_last_position ["X"; "Y"] None 0 "X") as (H1 & H2 & _).
  - reflexivity.
  - intros [|[|[|j]]] Hj; simpl; (lia || discriminate).
  - split; [exact H1|exact H2].
Defined.

(** C6 as stated fails when a label recurs: at labels [X, X] the label at
    position 0 is mapped to the pair of position 1 in both orientations. *)
Lemma slicing_by_position_counterexample :
  ¬ (∀ (labels : list string) (bound : option Z) (k : nat) (l : string),
       labels !! k = Some l →
       get_position_slicing labels bound !! l
       = Some (slice1 bound, slice2 (Z.of_nat k) (Z.of_nat k + 1))
       ∧ get_spectral_slicing labels bound !! l
         = Some (slice2 (Z.of_nat k) (Z.of_nat k + 1), slice1 bound)).
Proof.
  intros H. destruct (H ["X"; "X"] None 0 "X" eq_refl) as [H1 _].
  vm_compute in H1. discriminate H1.
Qed.

(** C10. When two axes share a label, the dictionary holds for that label
    the slice pair of a later axis (the last one with that label) and not
    the pair of the earlier one; when the labels are omitted and there is
    more than one axis, the [labels] attribute of both datasets has exactly
    one entry, for the empty label and the last axis, and no entry holds
    the pair of an earlier axis. *)
Theorem shared_label_keeps_last :
  (∀ (labels : list string) (bound : option Z) (i j : nat) (l : string),
     i < j → labels !! i = Some l → labels !! j = Some l →
     ∃ k, j ≤ k ∧ labels !! k = Some l
          ∧ get_position_slicing labels bound !! l
            = Some (position_pair bound k)
          ∧ get_spectral_slicing labels bound !! l
            = Some (spectral_pair bound k)
          ∧ get_position_slicing labels bound !! l
            ≠ Some (position_pair bound i)
          ∧ get_spectral_slicing labels bound !! l
            ≠ Some (spectral_pair bound i))
  ∧ (∀ (dimensions : list Z) (is_spectral : bool)
       (steps initial_values : option (list float))
       (units : option (list string)) ds_indices ds_values,
       1 < length dimensions →
       build_ind_val_dsets dimensions is_spectral steps initial_values None units
       = Ok (ds_indices, ds_values) →
       ∃ region_slices,
         attrs ds_indices !! "labels" = Some (ASlices region_slices)
         ∧ attrs ds_values !! "labels" = Some (ASlices region_slices)
         ∧ size region_slices = 1
         ∧ region_slices
           = {[ "" := if is_spectral
                      then spectral_pair None (length dimensions - 1)
                      else position_pair None (length dimensions - 1) ]}
         ∧ ∀ k l, k < length dimensions - 1 →
             region_slices !! l
             ≠ Some (if is_spectral then spectral_pair None k
                     else position_pair None k)).
Proof.
  split.
  - intros labels bound i j l Hij Hi Hj.
    destruct (last_occurrence labels j l Hj) as (k & Hjk & Hk & Hlast).
    exists k. split; [exact Hjk|]. split; [exact Hk|].
    rewrite get_position_slicing_eq, get_spectral_slicing_eq.
    rewrite !(slicing_of_lookup_last _ labels k l Hk Hlast).
    repeat split.
    + intros H. apply (inj Some), position_pair_inj in H. lia.
    + intros H. apply (inj Some), spectral_pair_inj in H. lia.
  - intros dimensions is_spectral steps initial_values units ds_indices
      ds_values Hn Hb.
    apply build_ind_val_dsets_inv in Hb
      as (st & iv & lb & indices & values & _ & _ & Hlb & _ & _ & _ & _ & _
          & Hai & Hav).
    injection Hlb as <-.
    exists (region_slices_of is_spectral (replicate (length dimensions) "")).
    split; [exact Hai|]. split; [exact Hav|].
    assert (region_slices_of is_spectral (replicate (length dimensions) "")
            = {[ "" := if is_spectral
                       then spectral_pair None (length dimensions - 1)
                       else position_pair None (length dimensions - 1) ]}) as E.
    { destruct (length dimensions) as [|n]; [lia|].
      replace (S n - 1) with n by lia.
      destruct is_spectral; simpl.
      - rewrite get_spectral_slicing_eq. apply slicing_of_replicate.
      - rewrite get_position_slicing_eq. apply slicing_of_replicate. }
    rewrite E. split; [apply map_size_singleton|]. split; [reflexivity|].
    intros k l Hk.
    destruct (decide (l = "")) as [->|Hl].
    + rewrite lookup_singleton_eq.
      destruct is_spectral.
      * intros H. apply (inj Some), spectral_pair_inj in H. lia.
      * intros H. apply (inj Some), position_pair_inj in H. lia.
    + rewrite lookup_singleton_ne by congruence. discriminate.
Qed.

(** The theorem at labels [X, Y, X] and at two axes of sizes 3 and 2
    without labels. *)
Lemma shared_label_keeps_last_witness :
  (∃ k, 2 ≤ k
        ∧ get_position_slicing ["X"; "Y"; "X"] None !! "X"
          = Some (position_pair None k))
  ∧ (∃ ds_indices ds_values region_slices,
       build_ind_val_dsets [3; 2]%Z false None None None None
       = Ok (ds_indices, ds_values)
       ∧ attrs ds_indices !! "labels" = Some (ASlices region_slices)
       ∧ size region_slices = 1).
Proof.
  split.
  - destruct (proj1 shared_label_keeps_last ["X"; "Y"; "X"] None 0 2 "X")
      as (k & Hk & _ & Hp & _).
    + lia.
    + reflexivity.
    + reflexivity.
    + exists k. split; [exact Hk|exact Hp].
  - destruct (build_ind_val_dsets [3; 2]%Z false None None None None)
      as [[ds_indices ds_values]|e] eqn:Hb; [|vm_compute in Hb; discriminate Hb].
    destruct (proj2 shared_label_keeps_last [3; 2]%Z false None None None
                ds_indices ds_values) as (region_slices & H1 & _ & H2 & _).
    + simpl. lia.
    + exact Hb.
    + exists ds_indices, ds_values, region_slices.
      split; [reflexivity|]. split; [exact H1|exact H2].
Defined.

(** ** The length checks *)

Lemma default_or_check_mismatch {A B} (dims : list B) (arg : option (list A))
    (d : A) (msg : string) :
  mismatch dims arg → default_or_check dims arg d msg = Raise (ValueError msg).
Proof.
  destruct arg as [l|]; simpl; [|done]. intros H.
  unfold default_or_check. by rewrite decide_True.
Qed.

Lemma default_or_check_resolved {A B} (dims : list B) (arg : option (list A))
    (d : A) (msg : string) :
  ¬ mismatch dims arg → default_or_check dims arg d msg = Ok (resolved dims arg d).
Proof.
  destruct arg as [l|]; simpl; [|done]. intros H.
  unfold default_or_check. by rewrite decide_False.
Qed.

(** A call whose first three checks pass. *)
Lemma build_ind_val_dsets_checked dims sp steps initial_values labels units :
  ¬ mismatch dims steps → ¬ mismatch dims initial_values →
  ¬ mismatch dims labels →
  build_ind_val_dsets dims sp steps initial_values labels units
  = (indices ← make_position_mat dims;
     values ← raw_values indices (resolved dims steps 1%float)
                (resolved dims initial_values 0%float);
     let region_slices := region_slices_of sp (resolved dims labels "") in
     let mode := if sp then "Spectroscopic_" else "Position_" in
     let ds_indices :=
       set_attr "labels" (ASlices region_slices)
         (mkMicroDataset (mode +:+ "Indices") (orient sp indices) np_uint32 ∅) in
     let ds_values :=
       set_attr "labels" (ASlices region_slices)
         (mkMicroDataset (mode +:+ "Values")
            (nd_map to_f32 (orient sp values)) np_float32 ∅) in
     match units with
     | None => Ok (ds_indices, ds_values)
     | Some u =>
         if decide (length u ≠ length dims) then Raise (ValueError msg_labels)
         else Ok (set_attr "units" (AStrList u) ds_indices,
                  set_attr "units" (AStrList u) ds_values)
     end).
Proof.
  intros H1 H2 H3. unfold build_ind_val_dsets.
  rewrite (default_or_check_resolved dims steps) by assumption.
  rewrite (default_or_check_resolved dims initial_values) by assumption.
  rewrite (default_or_check_resolved dims labels) by assumption.
  cbn [mbind result_bind].
  destruct (make_position_mat dims) as [indices|]; [|reflexivity].
  cbn [mbind result_bind]. unfold raw_values.
  destruct (indices_to_values _ _ _) as [values|]; [|reflexivity].
  cbn [mbind result_bind]. destruct sp; reflexivity.
Qed.

Lemma fill_columns_Raise sizes todo indx pos_ind pos_mat e :
  fill_columns sizes todo indx pos_ind pos_mat = Raise e →
  e = ValueError "negative dimensions are not allowed"
  ∨ ∃ n m, e = setitem_error n m.
Proof.
  revert indx pos_ind pos_mat.
  induction todo as [|s todo IH]; intros indx pos_ind pos_mat; [discriminate|].
  cbn [fill_columns]. destruct (1 <? s)%Z; [|apply IH].
  destruct (np_tile _ _) as [col|e'] eqn:Etile; cbn [mbind result_bind].
  - unfold set_column. case_decide; cbn [mbind result_bind]; [apply IH|].
    destruct col as [|v [|v' col]]; cbn [mbind result_bind];
      [intros [= <-]; right; eauto|apply IH|intros [= <-]; right; eauto].
  - intros [= <-]. left. unfold np_tile in Etile.
    repeat case_match; congruence.
Qed.

Lemma make_position_mat_Raise sizes e :
  make_position_mat sizes = Raise e →
  (sizes = [] ∧ ∃ msg, e = TypeError msg)
  ∨ (sizes ≠ []
     ∧ (e = ValueError "negative dimensions are not allowed"
        ∨ ∃ n m, e = setitem_error n m)).
Proof.
  destruct sizes as [|s0 sizes]; [intros [= <-]; left; eauto|].
  rewrite make_position_mat_nonempty by done.
  intros H. right. split; [done|]. revert H.
  case_match; [intros [= <-]; by left|].
  apply fill_columns_Raise.
Qed.

Lemma broadcast2_Raise {A B C} (f : A → B → C) x y e :
  broadcast2 f x y = Raise e → e = broadcast_error (shape x) (shape y).
Proof. unfold broadcast2. repeat case_match; congruence. Qed.

Lemma raw_values_Raise indices st iv e :
  raw_values indices st iv = Raise e → ∃ x y, e = broadcast_error x y.
Proof.
  unfold raw_values, indices_to_values.
  destruct (broadcast2 PrimFloat.mul _ _) eqn:E; cbn [mbind result_bind].
  - intros H%broadcast2_Raise. eauto.
  - intros [= <-]. apply broadcast2_Raise in E. eauto.
Qed.

Lemma raise_steps dims sp steps initial_values labels units :
  mismatch dims steps →
  build_ind_val_dsets dims sp steps initial_values labels units
  = Raise (ValueError msg_steps).
Proof.
  intros H. unfold build_ind_val_dsets.
  rewrite (default_or_check_mismatch dims steps) by assumption.
  reflexivity.
Qed.

Lemma raise_initial_values dims sp steps initial_values labels units :
  ¬ mismatch dims steps → mismatch dims initial_values →
  build_ind_val_dsets dims sp steps initial_values labels units
  = Raise (ValueError msg_initial_values).
Proof.
  intros H1 H2. unfold build_ind_val_dsets.
  rewrite (default_or_check_resolved dims steps) by assumption.
  rewrite (default_or_check_mismatch dims initial_values) by assumption.
  reflexivity.
Qed.

Lemma raise_labels dims sp steps initial_values labels units :
  ¬ mismatch dims steps → ¬ mismatch dims initial_values →
  mismatch dims labels →
  build_ind_val_dsets dims sp steps initial_values labels units
  = Raise (ValueError msg_labels).
Proof.
  intros H1 H2 H3. unfold build_ind_val_dsets.
  rewrite (default_or_check_resolved dims steps) by assumption.
  rewrite (default_or_check_resolved dims initial_values) by assumption.
  rewrite (default_or_check_mismatch dims labels) by assumption.
  reflexivity.
Qed.

(** Whether a call raises, and what, does not depend on the mode. *)
Lemma raise_any_mode dims sp sp' steps initial_values labels units e :
  build_ind_val_dsets dims sp steps initial_values labels units = Raise e →
  build_ind_val_dsets dims sp' steps initial_values labels units = Raise e.
Proof.
  unfold build_ind_val_dsets.
  destruct (default_or_check dims steps _ _); [|done].
  destruct (default_or_check dims initial_values _ _); [|done].
  destruct (default_or_check dims labels _ _); [|done].
  destruct (make_position_mat dims); [|done]. cbn [mbind result_bind].
  destruct (indices_to_values _ _ _); [|done]. cbn [mbind result_bind].
  destruct sp, sp', units as [u|]; cbn; try case_decide; congruence.
Qed.

(** The messages of the length checks are not those of the exceptions
    raised while the matrices are built. *)
Lemma length_message_own (msg : string) :
  msg ∈ [msg_steps; msg_initial_values; msg_labels] →
  msg ≠ "negative dimensions are not allowed"
  ∧ (∀ n m, setitem_error n m ≠ ValueError msg)
  ∧ (∀ x y, broadcast_error x y ≠ ValueError msg).
Proof.
  intros H. repeat (apply elem_of_cons in H as [->|H]);
    [| | |by apply elem_of_nil in H]; repeat split; discriminate.
Qed.

(** C7, as amended. A supplied steps, initial-values or labels array of
    the wrong length raises the length-mismatch [ValueError] of that array
    whatever the dimensions are, before any matrix is built; the units are
    looked at only at the end: when the three first checks pass, an
    exception raised while the index or the value matrix is built leaves
    the call whatever the units are, and is not a length-mismatch error,
    and a units array of the wrong length raises the length-mismatch
    [ValueError] once both matrices have been built; and a length-mismatch
    [ValueError] is raised only when a supplied array has the wrong
    length, never for an omitted one. *)
Theorem length_mismatch_errors (dimensions : list Z) (is_spectral : bool)
    (steps initial_values : option (list float))
    (labels units : option (list string)) :
  let call :=
    build_ind_val_dsets dimensions is_spectral steps initial_values labels
      units in
  (mismatch dimensions steps → call = Raise (ValueError msg_steps))
  ∧ (¬ mismatch dimensions steps → mismatch dimensions initial_values →
     call = Raise (ValueError msg_initial_values))
  ∧ (¬ mismatch dimensions steps → ¬ mismatch dimensions initial_values →
     mismatch dimensions labels → call = Raise (ValueError msg_labels))
  ∧ (¬ mismatch dimensions steps → ¬ mismatch dimensions initial_values →
     ¬ mismatch dimensions labels →
     ∀ e,
       (make_position_mat dimensions = Raise e
        ∨ ∃ indices,
            make_position_mat dimensions = Ok indices
            ∧ raw_values indices (resolved dimensions steps 1%float)
                (resolved dimensions initial_values 0%float) = Raise e) →
       call = Raise e
       ∧ ∀ msg, msg ∈ [msg_steps; msg_initial_values; msg_labels] →
           e ≠ ValueError msg)
  ∧ (¬ mismatch dimensions steps → ¬ mismatch dimensions initial_values →
     ¬ mismatch dimensions labels → mismatch dimensions units →
     ∀ indices values,
       make_position_mat dimensions = Ok indices →
       raw_values indices (resolved dimensions steps 1%float)
         (resolved dimensions initial_values 0%float) = Ok values →
       call = Raise (ValueError msg_labels))
  ∧ (∀ msg, msg ∈ [msg_steps; msg_initial_values; msg_labels] →
       call = Raise (ValueError msg) →
       mismatch dimensions steps ∨ mismatch dimensions initial_values
       ∨ mismatch dimensions labels ∨ mismatch dimensions units).
Proof.
  intros call. subst call. split; [|split; [|split; [|split; [|split]]]].
  - apply raise_steps.
  - apply raise_initial_values.
  - apply raise_labels.
  - intros H1 H2 H3 e He.
    rewrite build_ind_val_dsets_checked by assumption.
    destruct He as [Hind|(indices & Hind & Hval)].
    + rewrite Hind. split; [reflexivity|]. intros msg Hmsg ->.
      destruct (length_message_own msg Hmsg) as (Hn1 & Hn2 & _).
      apply make_position_mat_Raise in Hind
        as [(_ & msg' & [=])|(_ & [[= ->]|(n & m & Hnm)])].
      * by apply Hn1.
      * by apply (Hn2 n m).
    + rewrite Hind. cbn [mbind result_bind]. rewrite Hval.
      split; [reflexivity|]. intros msg Hmsg ->.
      destruct (length_message_own msg Hmsg) as (_ & _ & Hn3).
      apply raw_values_Raise in Hval as (x & y & Hxy).
      by apply (Hn3 x y).
  - intros H1 H2 H3 H4 indices values Hind Hval.
    rewrite build_ind_val_dsets_checked by assumption.
    rewrite Hind. cbn [mbind result_bind]. rewrite Hval.
    cbn [mbind result_bind].
    destruct units as [u|]; [|done]. simpl in H4. by rewrite decide_True.
  - intros msg Hmsg Hcall.
    destruct (length_message_own msg Hmsg) as (Hn1 & Hn2 & Hn3).
    destruct (decide (mismatch dimensions steps)) as [|H1]; [by left|].
    destruct (decide (mismatch dimensions initial_values)) as [|H2];
      [by right; left|].
    destruct (decide (mismatch dimensions labels)) as [|H3];
      [by right; right; left|].
    right; right; right.
    rewrite build_ind_val_dsets_checked in Hcall by assumption.
    destruct (make_position_mat dimensions) as [indices|e] eqn:Hind.
    + cbn [mbind result_bind] in Hcall.
      destruct (raw_values indices _ _) as [values|e] eqn:Hval.
      * cbn [mbind result_bind] in Hcall.
        destruct units as [u|]; [|discriminate]. simpl.
        case_decide; [assumption|discriminate].
      * cbn [mbind result_bind] in Hcall. injection Hcall as ->.
        apply raw_values_Raise in Hval as (x & y & Hxy).
        destruct (Hn3 x y (eq_sym Hxy)).
    + cbn [mbind result_bind] in Hcall. injection Hcall as ->.
      apply make_position_mat_Raise in Hind
        as [(_ & msg' & [=])|(_ & [[= ->]|(n & m & Hnm)])].
      * by destruct Hn1.
      * destruct (Hn2 n m (eq_sym Hnm)).
Qed.

(** The theorem at one axis of size 2 with two steps. *)
Lemma length_mismatch_errors_witness :
  build_ind_val_dsets [2]%Z false (Some [1; 2]%float) None None None
  = Raise (ValueError msg_steps).
Proof.
  apply (proj1 (length_mismatch_errors [2]%Z false (Some [1; 2]%float) None
                  None None)).
  simpl. lia.
Defined.

(** C7 as stated fails at sizes [2, 1, 3]. With every optional argument
    omitted a [ValueError] is raised, so a [ValueError] does not imply a
    supplied array of the wrong length; and with a units array of the
    wrong length the exception raised is the same broadcast error and not
    a length-mismatch message, the units being looked at only after the
    matrices are built. *)
Lemma valueerror_iff_mismatch_counterexample :
  ¬ (∀ (dimensions : list Z) (is_spectral : bool)
       (steps initial_values : option (list float))
       (labels units : option (list string)),
       (∃ msg, build_ind_val_dsets dimensions is_spectral steps initial_values
                 labels units = Raise (ValueError msg))
       ↔ (mismatch dimensions steps ∨ mismatch dimensions initial_values
          ∨ mismatch dimensions labels ∨ mismatch dimensions units))
  ∧ ¬ (∀ (dimensions : list Z) (is_spectral : bool)
         (steps initial_values : option (list float))
         (labels units : option (list string)),
         (∃ msg, msg ∈ [msg_steps; msg_initial_values; msg_labels]
                 ∧ build_ind_val_dsets dimensions is_spectral steps
                     initial_values labels units = Raise (ValueError msg))
         ↔ (mismatch dimensions steps ∨ mismatch dimensions initial_values
            ∨ mismatch dimensions labels ∨ mismatch dimensions units)).
Proof.
  split; intros H.
  - destruct (H [2; 1; 3]%Z false None None None None) as [H1 _].
    destruct H1 as [[]|[[]|[[]|[]]]].
    eexists. vm_compute. reflexivity.
  - destruct (H [2; 1; 3]%Z false None None None (Some ["nm"])) as [_ H2].
    destruct H2 as (msg & Hmsg & Hraise).
    { right; right; right. simpl. lia. }
    apply length_message_own in Hmsg as (_ & _ & Hne).
    apply (Hne (6, 2) (1, 3)). vm_compute in Hraise.
    injection Hraise as <-. vm_compute. reflexivity.
Qed.

(** ** build_ind_val_dsets with and without singleton axes *)

Lemma count_active_le (l : list Z) : count_active l ≤ length l.
Proof. unfold count_active. apply length_filter. Qed.

Lemma count_active_full (l : list Z) :
  count_active l = length l → Forall (λ s, (1 < s)%Z) l.
Proof.
  induction l as [|s l IH]; [constructor|].
  rewrite count_active_cons. simpl. pose proof (count_active_le l) as Hle.
  destruct (Z.ltb_spec 1 s); intros Hc; [|lia].
  constructor; [assumption|]. apply IH. lia.
Qed.

Lemma count_active_all (l : list Z) :
  Forall (λ s, (1 < s)%Z) l → count_active l = length l.
Proof.
  induction 1 as [|s l Hs _ IH]; [reflexivity|].
  rewrite count_active_cons. destruct (Z.ltb_spec 1 s); simpl; lia.
Qed.

(** Without singleton axes the column of axis [k] is column [k]. *)
Lemma axis_column_aligned (dims : list Z) (k : nat) :
  aligned dims → k < length dims → axis_column dims k = k.
Proof.
  unfold aligned, axis_column. intros Hal Hk.
  destruct (decide (count_active dims = length dims)) as [Hfull|Hne].
  - rewrite count_active_all, length_take; [lia|].
    apply Forall_take, count_active_full, Hfull.
  - assert (k = 0) as -> by lia. reflexivity.
Qed.

Lemma all_active_aligned (dimensions : list Z) :
  dimensions ≠ [] → Forall (λ s, (1 < s)%Z) dimensions → aligned dimensions.
Proof.
  intros Hne Hall. unfold aligned, count_active.
  assert (filter (λ s, (1 < s)%Z) dimensions = dimensions) as ->.
  { induction Hall as [|s l Hs _ IH]; [done|].
    rewrite filter_cons, decide_True by assumption.
    destruct l; [done|]. rewrite IH; done. }
  destruct dimensions; [done|]. simpl. lia.
Qed.

Lemma slicing_of_lookup_Some pair (labels : list string) (l : string) sel :
  slicing_of pair labels !! l = Some sel →
  ∃ k, labels !! k = Some l ∧ sel = pair k.
Proof.
  induction labels as [|x labels IH] using rev_ind; [done|].
  rewrite slicing_of_snoc. destruct (decide (x = l)) as [->|Hx].
  - rewrite lookup_insert_eq. intros [= <-]. exists (length labels).
    split; [|reflexivity]. rewrite lookup_app_r, Nat.sub_diag by lia. done.
  - rewrite lookup_insert_ne by assumption. intros H.
    destruct (IH H) as (k & Hk & ->). exists k. split; [|reflexivity].
    rewrite lookup_app_l; [exact Hk|]. by eapply lookup_lt_Some.
Qed.

(** The position-mode slice pair of column [k] selects that column. *)
Lemma getitem_column {A} (m : ndarray A) (k : nat) :
  wf_ndarray m → k < ncols m →
  shape (getitem m (position_pair None k)) = (nrows m, 1)
  ∧ ∀ r, item (getitem m (position_pair None k)) r 0 = item m r k.
Proof.
  intros [Hlen Hrows] Hk. unfold getitem, position_pair. cbn [fst snd].
  rewrite slice_indices_slice1_None, slice_indices_slice2 by assumption.
  unfold shape, item, sublist. cbn [nrows ncols cells].
  rewrite Nat.sub_0_r, drop_0, take_ge by lia.
  split; [f_equal; lia|].
  intros r. rewrite list_lookup_fmap.
  destruct (cells m !! r) as [row|]; [|reflexivity]. simpl.
  rewrite lookup_take_lt by lia. rewrite lookup_drop. f_equal. lia.
Qed.

(** The spectroscopic-mode slice pair of row [k] selects that row. *)
Lemma getitem_row {A} (m : ndarray A) (k : nat) :
  wf_ndarray m → k < nrows m →
  shape (getitem m (spectral_pair None k)) = (1, ncols m)
  ∧ ∀ c, item (getitem m (spectral_pair None k)) 0 c = item m k c.
Proof.
  intros [Hlen Hrows] Hk. unfold getitem, spectral_pair. cbn [fst snd].
  rewrite slice_indices_slice1_None, slice_indices_slice2 by assumption.
  unfold shape, item, sublist. cbn [nrows ncols cells].
  split; [f_equal; lia|].
  intros c. rewrite list_lookup_fmap, lookup_take_lt, lookup_drop by lia.
  rewrite Nat.add_0_r.
  destruct (cells m !! k) as [row|] eqn:Hrow; [|reflexivity]. simpl.
  rewrite Forall_lookup in Hrows. pose proof (Hrows k row Hrow) as Hr.
  simpl in Hr. rewrite Nat.sub_0_r, take_ge; [reflexivity|].
  rewrite ?drop_0. simpl. lia.
Qed.

(** The slice pair that [build_ind_val_dsets] attaches for position [k]
    selects the data of column (position mode) or row (spectroscopic mode)
    [k], whole and alone. *)
Lemma getitem_axis {A} (sp : bool) (m : ndarray A) (k : nat) :
  wf_ndarray m → k < ncols m →
  let sel := if sp then spectral_pair None k else position_pair None k in
  shape (getitem (orient sp m) sel)
  = (if sp then (1, nrows m) else (nrows m, 1))
  ∧ ∀ r, item_at sp (getitem (orient sp m) sel) r 0 = item m r k.
Proof.
  intros Hwf Hk. destruct sp; simpl.
  - destruct (getitem_row (transpose m) k (wf_transpose m Hwf) Hk) as [Hs Hi].
    split; [exact Hs|]. intros r. rewrite Hi. by apply item_transpose.
  - by apply getitem_column.
Qed.

(** Without singleton axes, in either mode: the call returns whenever the
    supplied arrays have the right lengths; the value matrix has the shape
    of the index matrix; each stored value is the binary32 rounding of
    [initial_value + index * step] for the index at the same place and the
    step and initial value of its axis; and the slice pair of every label
    selects the whole column (or row) of one axis. *)
Lemma build_ind_val_dsets_aligned dims sp steps initial_values labels units :
  sizes_ok dims → aligned dims →
  ¬ mismatch dims steps → ¬ mismatch dims initial_values →
  ¬ mismatch dims labels → ¬ mismatch dims units →
  ∃ ds_indices ds_values indices,
    build_ind_val_dsets dims sp steps initial_values labels units
    = Ok (ds_indices, ds_values)
    ∧ make_position_mat dims = Ok indices
    ∧ data ds_indices = orient sp indices
    ∧ shape (data ds_values) = shape (data ds_indices)
    ∧ (∀ r k idx, item_at sp (data ds_indices) r k = Some idx →
         ∃ step_k initial_value_k,
           resolved dims steps 1%float !! k = Some step_k
           ∧ resolved dims initial_values 0%float !! k = Some initial_value_k
           ∧ item_at sp (data ds_values) r k
             = Some (to_f32 (initial_value_k
                             + float32_of_uint32 idx * step_k)%float))
    ∧ (∃ region_slices,
         attrs ds_indices !! "labels" = Some (ASlices region_slices)
         ∧ attrs ds_values !! "labels" = Some (ASlices region_slices)
         ∧ ∀ l sel, region_slices !! l = Some sel →
             ∃ k, resolved dims labels "" !! k = Some l
                  ∧ sel = (if sp then spectral_pair None k
                           else position_pair None k)
                  ∧ shape (getitem (data ds_indices) sel)
                    = (if sp then (1, nrows indices) else (nrows indices, 1))
                  ∧ ∀ r, item_at sp (getitem (data ds_indices) sel) r 0
                         = item indices r k).
Proof.
  intros Hok Hal H1 H2 H3 H4.
  pose proof (sizes_ok_pos dims Hok) as Hpos.
  assert (∀ {A} (arg : option (list A)) d,
            ¬ mismatch dims arg → length (resolved dims arg d) = length dims)
    as Hlen.
  { intros A [l|] d H; simpl in *; [lia|apply length_replicate]. }
  pose proof (make_position_mat_closed dims Hok) as Hind.
  pose proof (make_position_mat_wf dims _ Hok Hind) as Hwf.
  set (indices := NDArray _ _ _) in Hind, Hwf.
  assert (ncols indices = max 1 (count_active dims)) as Hcols by reflexivity.
  destruct (raw_values_aligned indices (resolved dims steps 1%float)
              (resolved dims initial_values 0%float) Hwf)
    as (values & Hval & Hshape & Hwfv & Hlaw).
  { rewrite Hlen by assumption. congruence. }
  { rewrite Hlen by assumption. congruence. }
  destruct (build_ind_val_dsets dims sp steps initial_values labels units)
    as [[di dv]|e] eqn:Hb.
  - exists di, dv, indices. split; [reflexivity|].
    apply build_ind_val_dsets_inv in Hb
      as (st & iv & lb & indices' & values' & Hst & Hiv & Hlb & Hind' & Hval'
          & _ & Hdi & Hdv & Hai & Hav).
    rewrite default_or_check_resolved in Hst by assumption.
    rewrite default_or_check_resolved in Hiv by assumption.
    rewrite default_or_check_resolved in Hlb by assumption.
    injection Hst as <-. injection Hiv as <-. injection Hlb as <-.
    rewrite Hind in Hind'. injection Hind' as <-.
    rewrite Hval in Hval'. injection Hval' as <-.
    rewrite Hdi, Hdv, nd_map_orient.
    split; [exact Hind|]. split; [reflexivity|].
    split; [by apply shape_orient|]. split.
    + intros r k idx Hidx. apply item_at_orient in Hidx; [|exact Hwf].
      destruct (Hlaw r k idx Hidx) as (s & i0 & Hs & Hi0 & Hv).
      exists s, i0. split; [exact Hs|]. split; [exact Hi0|].
      apply item_at_orient; [by apply wf_nd_map|].
      rewrite item_nd_map, Hv. reflexivity.
    + eexists. split; [exact Hai|]. split; [exact Hav|].
      intros l sel Hsel.
      assert (∃ k, resolved dims labels "" !! k = Some l
                   ∧ sel = (if sp then spectral_pair None k
                            else position_pair None k)) as (k & Hk & ->).
      { unfold region_slices_of in Hsel. destruct sp.
        - rewrite get_spectral_slicing_eq in Hsel.
          apply slicing_of_lookup_Some in Hsel as (k & Hk & ->). eauto.
        - rewrite get_position_slicing_eq in Hsel.
          apply slicing_of_lookup_Some in Hsel as (k & Hk & ->). eauto. }
      exists k. split; [exact Hk|]. split; [reflexivity|].
      apply (getitem_axis sp indices k Hwf).
      apply lookup_lt_Some in Hk. rewrite Hlen in Hk by assumption.
      unfold aligned in Hal. lia.
  - exfalso. rewrite build_ind_val_dsets_checked in Hb by assumption.
    rewrite Hind in Hb. cbn [mbind result_bind] in Hb.
    rewrite Hval in Hb. cbn [mbind result_bind] in Hb.
    destruct units as [u|]; [|discriminate]. simpl in H4.
    rewrite decide_False in Hb by assumption. discriminate.
Qed.

Lemma aligned_sizes_ok (dims : list Z) :
  Forall (λ s, (0 < s)%Z) dims → (Zprod dims ≤ 2 ^ 53)%Z → aligned dims →
  sizes_ok dims.
Proof.
  intros Hpos Hmax Hal. split; [|done].
  intros ->. unfold aligned in Hal. simpl in Hal. discriminate Hal.
Qed.

(** X17. For positive sizes without singleton axes and with at most 2^53
    points, the call raises exactly when a supplied array (steps, initial
    values, labels or units) has the wrong length. *)
Lemma aligned_raises_iff_mismatch dims sp steps initial_values labels units :
  Forall (λ s, (0 < s)%Z) dims → (Zprod dims ≤ 2 ^ 53)%Z → aligned dims →
  (∃ e, build_ind_val_dsets dims sp steps initial_values labels units = Raise e)
  ↔ (mismatch dims steps ∨ mismatch dims initial_values
     ∨ mismatch dims labels ∨ mismatch dims units).
Proof.
  intros Hpos0 Hmax Hal.
  pose proof (aligned_sizes_ok dims Hpos0 Hmax Hal) as Hpos. split.
  - intros [e He].
    destruct (decide (mismatch dims steps)) as [|H1]; [by left|].
    destruct (decide (mismatch dims initial_values)) as [|H2];
      [by right; left|].
    destruct (decide (mismatch dims labels)) as [|H3];
      [by right; right; left|].
    destruct (decide (mismatch dims units)) as [|H4];
      [by right; right; right|].
    exfalso.
    destruct (build_ind_val_dsets_aligned dims sp steps initial_values labels
                units Hpos Hal H1 H2 H3 H4) as (di & dv & indices & Hb & _).
    congruence.
  - intros Hm.
    destruct (decide (mismatch dims steps)) as [H1|H1].
    { eexists. by apply raise_steps. }
    destruct (decide (mismatch dims initial_values)) as [H2|H2].
    { eexists. by apply raise_initial_values. }
    destruct (decide (mismatch dims labels)) as [H3|H3].
    { eexists. by apply raise_labels. }
    destruct Hm as [?|[?|[?|H4]]]; [done..|].
    rewrite build_ind_val_dsets_checked by assumption.
    destruct (make_position_mat dims) as [indices|]; [|eauto].
    cbn [mbind result_bind].
    destruct (raw_values _ _ _) as [values|]; [|eauto].
    cbn [mbind result_bind].
    destruct units as [u|]; [|done]. simpl in H4.
    rewrite decide_True by assumption. eauto.
Qed.

Lemma float_neq (x y : float) : Prim2SF x ≠ Prim2SF y → x ≠ y.
Proof. intros H ->. apply H. reflexivity. Qed.

(** C3, as amended. For positive sizes without singleton axes, with at
    most 2^53 points, and arrays of the right lengths the call returns,
    axis [k] has column [k], and in
    either mode the value stored for row [r] and axis [k] is the binary32
    rounding of [initial_value_k + index * step_k], the sum and product
    being taken in binary64 on the index at the same place; sizes [4] with
    step [0.5] and initial value [10.0] give the values
    [10.0, 10.5, 11.0, 11.5]. *)
Theorem value_law_float32 :
  (∀ (dimensions : list Z) (is_spectral : bool)
     (steps initial_values : option (list float))
     (labels units : option (list string)),
     Forall (λ s, (0 < s)%Z) dimensions → (Zprod dimensions ≤ 2 ^ 53)%Z →
     aligned dimensions →
     ¬ mismatch dimensions steps → ¬ mismatch dimensions initial_values →
     ¬ mismatch dimensions labels → ¬ mismatch dimensions units →
     ∃ ds_indices ds_values,
       build_ind_val_dsets dimensions is_spectral steps initial_values labels
         units = Ok (ds_indices, ds_values)
       ∧ (∀ k, k < length dimensions → axis_column dimensions k = k)
       ∧ ∀ r k idx, item_at is_spectral (data ds_indices) r k = Some idx →
           ∃ step_k initial_value_k,
             resolved dimensions steps 1%float !! k = Some step_k
             ∧ resolved dimensions initial_values 0%float !! k
               = Some initial_value_k
             ∧ item_at is_spectral (data ds_values) r k
               = Some (to_f32 (initial_value_k
                               + float32_of_uint32 idx * step_k)%float))
  ∧ (∃ ds_indices ds_values,
       build_ind_val_dsets [4]%Z false (Some [0.5]%float) (Some [10]%float)
         None None = Ok (ds_indices, ds_values)
       ∧ column (data ds_values) 0 = [10; 10.5; 11; 11.5]%float).
Proof.
  split.
  - intros dimensions is_spectral steps initial_values labels units
      Hpos Hmax Hal H1 H2 H3 H4.
    pose proof (aligned_sizes_ok dimensions Hpos Hmax Hal) as Hok.
    destruct (build_ind_val_dsets_aligned dimensions is_spectral steps
                initial_values labels units Hok Hal H1 H2 H3 H4)
      as (di & dv & indices & Hb & _ & _ & _ & Hlaw & _).
    exists di, dv. split; [exact Hb|]. split; [|exact Hlaw].
    intros k Hk. by apply axis_column_aligned.
  - eexists _, _. split; [vm_compute; reflexivity|]. vm_compute. reflexivity.
Qed.

(** The theorem at sizes [3, 2] with steps [0.5, 2]. *)
Lemma value_law_float32_witness :
  ∃ ds_indices ds_values,
    build_ind_val_dsets [3; 2]%Z false (Some [0.5; 2]%float) None None None
    = Ok (ds_indices, ds_values).
Proof.
  destruct (proj1 value_law_float32 [3; 2]%Z false (Some [0.5; 2]%float)
              None None None) as (di & dv & Hb & _).
  - repeat constructor.
  - vm_compute. discriminate.
  - reflexivity.
  - simpl. lia.
  - simpl. tauto.
  - simpl. tauto.
  - simpl. tauto.
  - exists di, dv. exact Hb.
Defined.

(** C3 as stated fails in two ways. With exact arithmetic: for one axis of
    size 2 and the step 0.1 (the binary64 number nearest to it) the value
    stored for row 1 is the binary32 rounding of 0.1, a different number.
    With a singleton axis: for sizes [1, 5], steps [7, 0.5] and initial
    values [100, 10], axis 1 is the only active axis and column 0 of the
    index matrix holds its index, but column 0 of the value matrix is
    [100 + index * 7], computed from the step and initial value of axis 0,
    and not [10 + index * 0.5]. *)
Lemma value_law_counterexample :
  ¬ (∀ (dimensions : list Z) (is_spectral : bool)
       (steps initial_values : option (list float))
       (labels units : option (list string)) ds_indices ds_values,
       build_ind_val_dsets dimensions is_spectral steps initial_values labels
         units = Ok (ds_indices, ds_values) →
       ∀ r k size_k idx step_k initial_value_k,
         dimensions !! k = Some size_k → (1 < size_k)%Z →
         item_at is_spectral (data ds_indices) r (axis_column dimensions k)
         = Some idx →
         resolved dimensions steps 1%float !! k = Some step_k →
         resolved dimensions initial_values 0%float !! k
         = Some initial_value_k →
         item_at is_spectral (data ds_values) r (axis_column dimensions k)
         = Some (initial_value_k + float64_of_uint32 idx * step_k)%float)
  ∧ match build_ind_val_dsets [1; 5]%Z false (Some [7; 0.5]%float)
            (Some [100; 10]%float) None None with
    | Ok (ds_indices, ds_values) =>
        axis_column [1; 5]%Z 1 = 0
        ∧ column (data ds_indices) 0 = [0; 1; 2; 3; 4]%Z
        ∧ column (data ds_values) 0 = [100; 107; 114; 121; 128]%float
        ∧ item (data ds_values) 1 0
          ≠ Some (to_f32 (10 + float32_of_uint32 1 * 0.5)%float)
    | Raise _ => False
    end.
Proof.
  split.
  - intros H.
    destruct (build_ind_val_dsets [2]%Z false
                (Some [0x1.999999999999ap-4]%float) None None None)
      as [[di dv]|e] eqn:Hb; [|vm_compute in Hb; discriminate Hb].
    specialize (H _ _ _ _ _ _ di dv Hb 1 0 2%Z 1%Z
                  0x1.999999999999ap-4%float 0%float eq_refl eq_refl).
    vm_compute in Hb. injection Hb as <- <-.
    specialize (H eq_refl eq_refl eq_refl).
    apply (inj Some) in H. revert H. apply float_neq. vm_compute. discriminate.
  - vm_compute. repeat split.
    intros H. apply (inj Some) in H. revert H. apply float_neq.
    vm_compute. discriminate.
Qed.

(** C4 at sizes [1, 5] with every optional argument omitted: the index
    matrix has shape (5, 1) and the value matrix has shape (5, 2). *)
Theorem value_shape_singleton_axis :
  match build_ind_val_dsets [1; 5]%Z false None None None None with
  | Ok (ds_indices, ds_values) =>
      shape (data ds_indices) = (5, 1) ∧ shape (data ds_values) = (5, 2)
  | Raise _ => False
  end.
Proof. vm_compute. split; reflexivity. Qed.

(** Sizes [2, 1, 3]: the defaulted steps have three entries, the index
    matrix two columns, and the product of line 328 raises in either
    mode. *)
Example broadcast_error_singleton_axis :
  build_ind_val_dsets [2; 1; 3]%Z false None None None None
  = Raise (ValueError
             "operands could not be broadcast together with shapes (6,2) (1,3) ")
  ∧ build_ind_val_dsets [2; 1; 3]%Z true None None None None
    = Raise (broadcast_error (6, 2) (1, 3))
  ∧ build_ind_val_dsets [2; 1; 3]%Z false None None None (Some ["nm"])
    = Raise (broadcast_error (6, 2) (1, 3)).
Proof. repeat split; vm_compute; reflexivity. Qed.

(** C8 at sizes [1, 5] with labels [X, Y]. In position mode the index
    matrix has the single column 0, and the slice pair of label Y, the
    active axis, selects columns [1, 2): no column at all. In
    spectroscopic mode it has the single row 0, and the pair of Y selects
    rows [1, 2): no row at all. *)
Theorem label_slice_out_of_bounds :
  match build_ind_val_dsets [1; 5]%Z false None None (Some ["X"; "Y"]) None,
        build_ind_val_dsets [1; 5]%Z true None None (Some ["X"; "Y"]) None
  with
  | Ok (pos_inds, _), Ok (spec_inds, _) =>
      shape (data pos_inds) = (5, 1)
      ∧ shape (data spec_inds) = (1, 5)
      ∧ ∃ pos_slices spec_slices,
          attrs pos_inds !! "labels" = Some (ASlices pos_slices)
          ∧ attrs spec_inds !! "labels" = Some (ASlices spec_slices)
          ∧ pos_slices !! "Y" = Some (slice1 None, slice2 1 2)
          ∧ spec_slices !! "Y" = Some (slice2 1 2, slice1 None)
          ∧ shape (getitem (data pos_inds) (slice1 None, slice2 1 2)) = (5, 0)
          ∧ shape (getitem (data spec_inds) (slice2 1 2, slice1 None)) = (0, 5)
  | _, _ => False
  end.
Proof.
  vm_compute. split; [reflexivity|]. split; [reflexivity|].
  eexists _, _. repeat split; reflexivity.
Qed.

(** ** The container assembler *)

Section ContainerAssemblerProps.

Variable dataset : Type.
Variable dataset_name : dataset → string.
Variables world hdf h5ref : Type.
Variable path_exists : string → world → bool.
Variable remove : string → world → result world.
Variable ioHDF5 : string → world → result (hdf * world).
Variable writeData : hdf → MicroData dataset → world → result (list h5ref * world).
Variable get_h5_obj_refs : list string → list h5ref → list h5ref.
Variable link_h5_objects_as_attrs : h5ref → list h5ref → world → result world.
Variable hdf_close : hdf → world → result world.
Variables (translate_date : string) (experiment_unix_time : float).

Abbreviation simple_write_here :=
  (simple_write dataset dataset_name world hdf h5ref path_exists remove ioHDF5
     writeData get_h5_obj_refs link_h5_objects_as_attrs hdf_close
     translate_date experiment_unix_time).

(** C9. The root of the tree that [simple_write] hands to the writer has
    as attributes the generated default parameters with [data_type] and
    [translator] set to the supplied names, whatever the run parameters;
    the run parameters (empty when omitted) are the attributes of
    [Measurement_000]; a call that returns has written this tree and
    returns the supplied path, and the call returns whenever no external
    call raises and the main dataset is found among the written
    references. *)
Theorem simple_write_root_attrs (h5_path data_name translator_name : string)
    (ds_main : dataset) (aux_dset_list : list (MicroData dataset))
    (parm_dict : option (gmap string attr_value)) :
  let spm_data :=
    simple_write_tree translate_date experiment_unix_time data_name
      translator_name ds_main aux_dset_list parm_dict in
  group_attrs spm_data
  = <["translator" := AStr translator_name]>
      (<["data_type" := AStr data_name]>
         (generate_dummy_main_parms translate_date experiment_unix_time))
  ∧ group_attrs spm_data !! "data_type" = Some (AStr data_name)
  ∧ group_attrs spm_data !! "translator" = Some (AStr translator_name)
  ∧ group_children spm_data
    = [MicroDataGroup "Measurement_000" (default ∅ parm_dict)
         [MicroDataGroup "Channel_000" ∅ (MDataset ds_main :: aux_dset_list)]]
  ∧ (∀ w p w',
       simple_write_here h5_path data_name translator_name ds_main
         aux_dset_list parm_dict w = Ok (p, w') →
       p = h5_path
       ∧ ∃ h w1 h5_refs w2, writeData h spm_data w1 = Ok (h5_refs, w2))
  ∧ ((∀ p w, is_Ok (remove p w)) →
     (∀ p w, is_Ok (ioHDF5 p w)) →
     (∀ h t w, is_Ok (writeData h t w)) →
     (∀ h t w h5_refs w', writeData h t w = Ok (h5_refs, w') →
        get_h5_obj_refs [dataset_name ds_main] h5_refs ≠ []) →
     (∀ r rs w, is_Ok (link_h5_objects_as_attrs r rs w)) →
     (∀ h w, is_Ok (hdf_close h w)) →
     ∀ w, ∃ w',
       simple_write_here h5_path data_name translator_name ds_main
         aux_dset_list parm_dict w = Ok (h5_path, w')).
Proof.
  intros spm_data. split; [reflexivity|].
  split; [subst spm_data; cbn; by rewrite lookup_insert_ne, lookup_insert_eq|].
  split; [subst spm_data; cbn; by rewrite lookup_insert_eq|].
  split; [reflexivity|]. split.
  - intros w p w'. unfold simple_write. fold spm_data.
    destruct (if path_exists h5_path w then remove h5_path w else Ok w)
      as [w0|]; [|discriminate].
    cbn [mbind result_bind].
    destruct (ioHDF5 h5_path w0) as [[h w1]|]; [|discriminate].
    cbn [mbind result_bind].
    destruct (writeData h spm_data w1) as [[h5_refs w2]|] eqn:Hw; [|discriminate].
    cbn [mbind result_bind].
    destruct (get_h5_obj_refs [dataset_name ds_main] h5_refs) as [|h5_raw ?];
      [discriminate|].
    cbn [mbind result_bind].
    destruct (link_h5_objects_as_attrs _ _ _) as [w3|]; [|discriminate].
    cbn [mbind result_bind].
    destruct (hdf_close h w3) as [w4|]; [|discriminate].
    cbn [mbind result_bind].
    intros [= <- <-]. split; [reflexivity|]. eauto.
  - intros Hrm Hopen Hwrite Hrefs Hlink Hclose w.
    unfold simple_write. fold spm_data.
    assert (∃ w0, (if path_exists h5_path w then remove h5_path w else Ok w)
                  = Ok w0) as [w0 ->].
    { destruct (path_exists h5_path w); [apply Hrm|eauto]. }
    cbn [mbind result_bind].
    destruct (Hopen h5_path w0) as [[h w1] ->]. cbn [mbind result_bind].
    destruct (Hwrite h spm_data w1) as [[h5_refs w2] Hw]. rewrite Hw.
    cbn [mbind result_bind].
    specialize (Hrefs h spm_data w1 h5_refs w2 Hw).
    destruct (get_h5_obj_refs [dataset_name ds_main] h5_refs) as [|h5_raw ?];
      [done|].
    cbn [mbind result_bind].
    destruct (Hlink h5_raw
                (get_h5_obj_refs
                   (omap (λ dset, match dset with
                                  | MDataset ds => Some (dataset_name ds)
                                  | MicroDataGroup _ _ _ => None
                                  end) aux_dset_list) h5_refs) w2) as [w3 ->].
    cbn [mbind result_bind].
    destruct (Hclose h w3) as [w4 ->]. cbn [mbind result_bind].
    eauto.
Qed.

End ContainerAssemblerProps.

(** The theorem for a writer that records the trees it is given and
    returns the names [Raw_Data] and [Position_Indices] as references. *)
Lemma simple_write_root_attrs_witness :
  ∃ written,
    simple_write string id (list (MicroData string)) string string
      (λ _ _, true) (λ _ w, Ok w) (λ p w, Ok (p, w))
      (λ _ t w, Ok (["Raw_Data"; "Position_Indices"], t :: w))
      (λ names refs, filter (.∈ names) refs)
      (λ _ _ w, Ok w) (λ _ w, Ok w) "2015_11_03" 0%float
      "out.h5" "demo" "DemoTranslator" "Raw_Data"
      [MDataset "Position_Indices"] None []
    = Ok ("out.h5", written).
Proof.
  refine (proj2 (proj2 (proj2 (proj2 (proj2
    (simple_write_root_attrs string id (list (MicroData string)) string string
       (λ _ _, true) (λ _ w, Ok w) (λ p w, Ok (p, w))
       (λ _ t w, Ok (["Raw_Data"; "Position_Indices"], t :: w))
       (λ names refs, filter (.∈ names) refs)
       (λ _ _ w, Ok w) (λ _ w, Ok w) "2015_11_03" 0%float
       "out.h5" "demo" "DemoTranslator" "Raw_Data"
       [MDataset "Position_Indices"] None))))) _ _ _ _ _ _ []).
  - intros p w. exists w. reflexivity.
  - intros p w. exists (p, w). reflexivity.
  - intros h t w. eexists. reflexivity.
  - intros h t w h5_refs w' [= <- _]. vm_compute. discriminate.
  - intros r rs w. exists w. reflexivity.
  - intros h w. exists w. reflexivity.
Defined.

(** * Further properties *)

(** ** make_position_mat: the columns of the index matrix *)

(** The cell of an active axis of size at most 2^32. *)
Lemma item_active_axis (sizes : list Z) (i : nat) (s : Z) (r : nat) :
  sizes_ok sizes →
  sizes !! i = Some s → (1 < s ≤ 2 ^ 32)%Z →
  (Z.of_nat r < Zprod sizes)%Z →
  ∃ pos_mat,
    make_position_mat sizes = Ok pos_mat
    ∧ item pos_mat r (axis_column sizes i)
      = Some (index_formula sizes i (Z.of_nat r)).
Proof.
  intros Hok Hi [Hs Hmax] Hr.
  destruct (item_active_axis_uint32 sizes i s r Hok Hi Hs Hr)
    as (pos_mat & Hmat & Hitem).
  exists pos_mat. split; [exact Hmat|]. rewrite Hitem. f_equal.
  apply to_uint32_small.
  pose proof (index_formula_bounds sizes i s (Z.of_nat r)
                (sizes_ok_pos sizes Hok) Hi). lia.
Qed.

(** X1. For positive sizes with at most 2^53 points, the column of an
    active axis of size [s] (at most 2^32) holds only values in [0, s),
    and holds each of them: the value [v] stands in row [v * part2]. *)
Theorem active_column_range (sizes : list Z) (i : nat) (s : Z) :
  Forall (λ s, (0 < s)%Z) sizes → (Zprod sizes ≤ 2 ^ 53)%Z →
  sizes !! i = Some s → (1 < s ≤ 2 ^ 32)%Z →
  ∃ pos_mat,
    make_position_mat sizes = Ok pos_mat
    ∧ (∀ r cell, item pos_mat r (axis_column sizes i) = Some cell →
         (0 ≤ cell < s)%Z)
    ∧ (∀ v, (0 ≤ v < s)%Z →
         item pos_mat (Z.to_nat (v * Zprod (take i sizes)))
           (axis_column sizes i) = Some v).
Proof.
  intros Hpos Hmax Hi Hs.
  pose proof (sizes_ok_lookup sizes i s Hpos Hmax Hi) as Hok.
  pose proof (make_position_mat_closed sizes Hok) as Hclosed.
  pose proof (make_position_mat_wf sizes _ Hok Hclosed) as Hwf.
  eexists. split; [exact Hclosed|]. split.
  - intros r cell Hcell.
    destruct (item_lt _ _ _ _ Hwf Hcell) as [Hr _]. simpl in Hr.
    destruct (item_active_axis sizes i s r Hok Hi Hs) as (m & Hm & Hitem);
      [lia|].
    rewrite Hclosed in Hm. injection Hm as <-.
    rewrite Hitem in Hcell. injection Hcell as <-.
    apply index_formula_bounds; [assumption..|lia].
  - intros v Hv.
    pose proof (Zprod_take_le sizes i Hpos) as [Hp2 _].
    pose proof (Zprod_take_le sizes (S i) Hpos) as [_ Hp1].
    rewrite (Zprod_take_S i sizes s Hi) in Hp1.
    destruct (item_active_axis sizes i s
                (Z.to_nat (v * Zprod (take i sizes))) Hok Hi Hs)
      as (m & Hm & Hitem); [nia|].
    rewrite Hclosed in Hm. injection Hm as <-.
    rewrite Hitem. f_equal. unfold index_formula.
    rewrite Z2Nat.id by nia.
    rewrite (Zprod_take_S i sizes s Hi).
    rewrite Z.mod_small by nia.
    apply Z.div_mul. lia.
Qed.

(** The theorem at sizes [3, 2], axis 1. *)
Lemma active_column_range_witness :
  ∃ pos_mat,
    make_position_mat [3; 2]%Z = Ok pos_mat
    ∧ item pos_mat 3 (axis_column [3; 2]%Z 1) = Some 1%Z.
Proof.
  destruct (active_column_range [3; 2]%Z 1 2%Z) as (pos_mat & H1 & _ & H2).
  - repeat constructor.
  - vm_compute. discriminate.
  - reflexivity.
  - lia.
  - exists pos_mat. split; [exact H1|]. apply (H2 1%Z). lia.
Defined.

(** X2. For positive sizes with at most 2^53 points and an active axis
    [i] of size at most 2^32, two rows whose numbers are congruent modulo
    [part1_i = prod(sizes[0..i])] hold the same index of axis [i]: the
    column repeats with period [part1_i]. *)
Theorem active_column_period (sizes : list Z) (i : nat) (s : Z) (r r' : nat) :
  Forall (λ s, (0 < s)%Z) sizes → (Zprod sizes ≤ 2 ^ 53)%Z →
  sizes !! i = Some s → (1 < s ≤ 2 ^ 32)%Z →
  (Z.of_nat r < Zprod sizes)%Z → (Z.of_nat r' < Zprod sizes)%Z →
  (Z.of_nat r mod Zprod (take (S i) sizes)
   = Z.of_nat r' mod Zprod (take (S i) sizes))%Z →
  ∃ pos_mat cell,
    make_position_mat sizes = Ok pos_mat
    ∧ item pos_mat r (axis_column sizes i) = Some cell
    ∧ item pos_mat r' (axis_column sizes i) = Some cell.
Proof.
  intros Hpos Hmax Hi Hs Hr Hr' Hmod.
  pose proof (sizes_ok_lookup sizes i s Hpos Hmax Hi) as Hok.
  destruct (item_active_axis sizes i s r Hok Hi Hs Hr) as (m & Hm & Hitem).
  destruct (item_active_axis sizes i s r' Hok Hi Hs Hr') as (m' & Hm' & Hitem').
  rewrite Hm in Hm'. injection Hm' as <-.
  exists m, (index_formula sizes i (Z.of_nat r)).
  split; [exact Hm|]. split; [exact Hitem|].
  rewrite Hitem'. unfold index_formula. rewrite Hmod. reflexivity.
Qed.

(** The theorem at sizes [3, 2], axis 0, rows 1 and 4. *)
Lemma active_column_period_witness :
  ∃ pos_mat cell,
    make_position_mat [3; 2]%Z = Ok pos_mat
    ∧ item pos_mat 1 (axis_column [3; 2]%Z 0) = Some cell
    ∧ item pos_mat 4 (axis_column [3; 2]%Z 0) = Some cell.
Proof.
  apply (active_column_period [3; 2]%Z 0 3%Z 1 4).
  - repeat constructor.
  - vm_compute. discriminate.
  - reflexivity.
  - lia.
  - reflexivity.
  - reflexivity.
  - reflexivity.
Defined.

Lemma index_formula_telescope (a b c : Z) :
  (0 < b)%Z → (0 < c)%Z →
  ((a mod (b * c)) / b * b = a mod (b * c) - a mod b)%Z.
Proof.
  intros Hb Hc.
  rewrite Z.rem_mul_r by lia.
  pose proof (Z.mod_pos_bound a b Hb) as Hx.
  set (x := (a mod b)%Z) in *. set (q := ((a / b) mod c)%Z).
  assert ((x + b * q) / b = q)%Z as ->.
  { rewrite (Z.mul_comm b q), Z.div_add, Z.div_small by lia. lia. }
  lia.
Qed.

Lemma ravel_active_entries (sizes : list Z) (r : nat) :
  Forall (λ s, (0 < s ≤ 2 ^ 32)%Z) sizes →
  ∀ (todo done rest : list Z),
    sizes = done ++ todo →
    ravel todo (Zprod done)
      (active_entries sizes todo (length done) r ++ rest)
    = (Z.of_nat r mod Zprod sizes - Z.of_nat r mod Zprod done)%Z.
Proof.
  intros Hall todo.
  induction todo as [|s todo IH]; intros done rest Hsplit.
  - rewrite app_nil_r in Hsplit. subst done. simpl. lia.
  - assert (sizes = (done ++ [s]) ++ todo) as Hsplit'
      by (rewrite <- app_assoc; exact Hsplit).
    assert (length (done ++ [s]) = S (length done)) as Hl
      by (rewrite length_app; simpl; lia).
    assert (Zprod (done ++ [s]) = Zprod done * s)%Z as Hp
      by (rewrite Zprod_app; simpl; lia).
    assert (0 < s ≤ 2 ^ 32)%Z as Hs.
    { rewrite Forall_forall in Hall. apply Hall. subst sizes.
      apply elem_of_app. right. constructor. }
    assert (0 < Zprod done)%Z as Hd.
    { apply Zprod_pos. subst sizes. apply Forall_app in Hall as [Hall _].
      eapply Forall_impl; [exact Hall|]. simpl. lia. }
    specialize (IH (done ++ [s]) rest Hsplit'). rewrite Hl, Hp in IH.
    cbn [ravel active_entries].
    destruct (Z.ltb_spec 1 s) as [Hact|Hone].
    + cbn [app]. rewrite IH.
      assert (index_formula sizes (length done) (Z.of_nat r)
              = (Z.of_nat r mod (Zprod done * s)) / Zprod done)%Z as Hf.
      { unfold index_formula.
        rewrite (Zprod_take_S (length done) sizes s).
        - subst sizes. rewrite take_app_length. reflexivity.
        - subst sizes. rewrite lookup_app_r, Nat.sub_diag by lia. reflexivity. }
      rewrite Hf, to_uint32_small.
      * rewrite index_formula_telescope by lia. lia.
      * pose proof (Z.mod_pos_bound (Z.of_nat r) (Zprod done * s)
                      ltac:(nia)) as Hb.
        split; [apply Z.div_pos; lia|].
        apply Z.div_lt_upper_bound; [lia|]. nia.
    + assert (s = 1%Z) as -> by lia. cbn [app].
      rewrite IH. rewrite Z.mul_1_r. reflexivity.
Qed.

(** X3. For a non-empty list of positive sizes, each at most 2^32, with
    at most 2^53 points, every row of the index matrix determines its own
    row number: the sum of its indices, each weighted by the product of
    the sizes of the faster axes, is the row number; so no two rows are
    equal. *)
Theorem rows_determine_row_number (sizes : list Z) :
  sizes ≠ [] →
  Forall (λ s, (0 < s ≤ 2 ^ 32)%Z) sizes →
  (Zprod sizes ≤ 2 ^ 53)%Z →
  ∃ pos_mat,
    make_position_mat sizes = Ok pos_mat
    ∧ (∀ r row, cells pos_mat !! r = Some row →
         ravel sizes 1 row = Z.of_nat r)
    ∧ NoDup (cells pos_mat).
Proof.
  intros Hne Hall Hmax.
  assert (Forall (λ s, (0 < s)%Z) sizes) as Hpos
    by (eapply Forall_impl; [exact Hall|]; simpl; lia).
  assert (sizes_ok sizes) as Hok by done.
  pose proof (make_position_mat_closed sizes Hok) as Hclosed.
  pose proof (Zprod_pos sizes Hpos) as Hprod.
  eexists. split; [exact Hclosed|].
  assert (∀ r row,
            ((λ r0, active_entries sizes sizes 0 r0
                      ++ replicate (1 `max` count_active sizes
                                    - count_active sizes) 0%Z)
               <$> seq 0 (Z.to_nat (Zprod sizes))) !! r = Some row →
            ravel sizes 1 row = Z.of_nat r) as Hravel.
  { intros r row Hrow. rewrite list_lookup_fmap in Hrow.
    destruct (seq 0 (Z.to_nat (Zprod sizes)) !! r) as [r0|] eqn:Hr0;
      [|discriminate].
    apply lookup_seq in Hr0 as [-> Hlt]. simpl in Hrow. injection Hrow as <-.
    pose proof (ravel_active_entries sizes r Hall sizes []
                  (replicate (1 `max` count_active sizes
                              - count_active sizes) 0%Z) eq_refl) as H.
    simpl in H. rewrite H. rewrite Z.mod_1_r, Z.mod_small by lia. lia. }
  split; [exact Hravel|].
  apply NoDup_alt. intros r r' row Hr Hr'.
  apply Hravel in Hr, Hr'. lia.
Qed.

(** The theorem at sizes [3, 1, 2]. *)
Lemma rows_determine_row_number_witness :
  ∃ pos_mat,
    make_position_mat [3; 1; 2]%Z = Ok pos_mat ∧ NoDup (cells pos_mat).
Proof.
  destruct (rows_determine_row_number [3; 1; 2]%Z) as (pos_mat & H1 & _ & H2).
  - discriminate.
  - repeat constructor; lia.
  - vm_compute. discriminate.
  - exists pos_mat. split; [exact H1|exact H2].
Defined.

(** ** make_position_mat: shape, cell range and edge sizes *)

Lemma to_uint32_range (z : Z) : (0 ≤ to_uint32 z < 2 ^ 32)%Z.
Proof. unfold to_uint32. apply Z.mod_pos_bound. lia. Qed.

Lemma Forall_insert_to_uint32 (row : list Z) (j : nat) (v : Z) :
  Forall (λ c, (0 ≤ c < 2 ^ 32)%Z) row →
  Forall (λ c, (0 ≤ c < 2 ^ 32)%Z) (<[j := to_uint32 v]> row).
Proof.
  intros H. destruct (decide (j < length row)) as [Hj|Hj].
  - apply Forall_insert; [exact H|apply to_uint32_range].
  - rewrite list_insert_ge by lia. exact H.
Qed.

Lemma Forall_zip_with_insert (P : list Z → Prop) (rows : list (list Z))
    (col : list Z) (j : nat) :
  (∀ row v, P row → P (<[j := to_uint32 v]> row)) →
  Forall P rows →
  Forall P (zip_with (λ row v, <[j := to_uint32 v]> row) rows col).
Proof.
  intros Hstep Hrows. revert col.
  induction Hrows as [|row rows Hrow _ IH]; intros [|v col]; simpl;
    constructor; auto.
Qed.

Lemma set_column_invariant (pos_mat m : ndarray Z) (j : nat) (col : list Z) :
  set_column pos_mat j col = Ok m →
  wf_ndarray pos_mat → uint32_cells pos_mat →
  wf_ndarray m ∧ uint32_cells m ∧ shape m = shape pos_mat.
Proof.
  unfold set_column, wf_ndarray, uint32_cells, shape.
  intros H [Hlen Hrows] Hcells.
  case_decide as Hcol.
  - injection H as <-. simpl. split; [split|split; [|reflexivity]].
    + rewrite length_zip_with. lia.
    + apply Forall_zip_with_insert; [|exact Hrows].
      intros row v Hrow. rewrite length_insert. exact Hrow.
    + apply Forall_zip_with_insert; [|exact Hcells].
      intros row v Hrow. by apply Forall_insert_to_uint32.
  - destruct col as [|v [|? ?]]; [discriminate| |discriminate].
    injection H as <-. simpl. split; [split|split; [|reflexivity]].
    + rewrite length_fmap. exact Hlen.
    + apply Forall_fmap. eapply Forall_impl; [exact Hrows|].
      intros row Hrow. simpl. rewrite length_insert. exact Hrow.
    + apply Forall_fmap. eapply Forall_impl; [exact Hcells|].
      intros row Hrow. simpl. by apply Forall_insert_to_uint32.
Qed.

Lemma fill_columns_invariant sizes todo indx pos_ind pos_mat m :
  fill_columns sizes todo indx pos_ind pos_mat = Ok m →
  wf_ndarray pos_mat → uint32_cells pos_mat →
  wf_ndarray m ∧ uint32_cells m ∧ shape m = shape pos_mat.
Proof.
  revert indx pos_ind pos_mat.
  induction todo as [|s todo IH]; intros indx pos_ind pos_mat.
  - intros [= <-]. tauto.
  - cbn [fill_columns]. destruct (1 <? s)%Z; [|apply IH].
    destruct (np_tile _ _) as [col|]; [|discriminate].
    cbn [mbind result_bind].
    destruct (set_column pos_mat pos_ind col) as [pos_mat'|] eqn:Hset;
      [|discriminate].
    cbn [mbind result_bind]. intros Hfill Hwf Hcells.
    destruct (set_column_invariant _ _ _ _ Hset Hwf Hcells)
      as (Hwf' & Hcells' & Hshape').
    destruct (IH _ _ _ Hfill Hwf' Hcells') as (Hwf'' & Hcells'' & Hshape'').
    split; [exact Hwf''|]. split; [exact Hcells''|]. congruence.
Qed.

Lemma np_zeros_invariant (rows cols : nat) :
  wf_ndarray (np_zeros rows cols) ∧ uint32_cells (np_zeros rows cols).
Proof.
  unfold wf_ndarray, uint32_cells, np_zeros. simpl. split; [split|].
  - apply length_replicate.
  - apply Forall_replicate. apply length_replicate.
  - apply Forall_replicate, Forall_replicate. lia.
Qed.

Lemma make_position_mat_Ok_invariant (sizes : list Z) (pos_mat : ndarray Z) :
  make_position_mat sizes = Ok pos_mat →
  wf_ndarray pos_mat
  ∧ nrows pos_mat = Z.to_nat (np_prod sizes)
  ∧ (0 ≤ np_prod sizes)%Z
  ∧ ncols pos_mat = max 1 (count_active sizes)
  ∧ uint32_cells pos_mat
  ∧ sizes ≠ [].
Proof.
  intros H.
  assert (sizes ≠ []) as Hne by (intros ->; discriminate H).
  rewrite make_position_mat_nonempty in H by exact Hne.
  destruct (Z.ltb_spec (np_prod sizes) 0) as [|Hnn]; [discriminate|].
  destruct (np_zeros_invariant (Z.to_nat (np_prod sizes))
              (max 1 (count_active sizes))) as [Hwf Hcells].
  destruct (fill_columns_invariant _ _ _ _ _ _ H Hwf Hcells)
    as (Hwf' & Hcells' & Hshape).
  injection Hshape as Hr Hc. simpl in Hr, Hc. tauto.
Qed.

Lemma Zprod_abs_le (l : list Z) : (Z.abs (Zprod l) ≤ magnitude l)%Z.
Proof.
  unfold magnitude. induction l as [|x l IH]; [simpl; lia|].
  cbn [Zprod foldr fmap list_fmap]. fold (Zprod l).
  rewrite Z.abs_mul. apply Z.mul_le_mono_nonneg; [lia|lia|lia|exact IH].
Qed.

Lemma np_prod_magnitude (l : list Z) :
  (magnitude l ≤ 2 ^ 53)%Z → np_prod l = Zprod l.
Proof.
  intros H. apply np_prod_exact. pose proof (Zprod_abs_le l). lia.
Qed.

(** X4. For sizes of any sign whose non-zero entries have a product of
    at most 2^53 in absolute value: a matrix returned by
    [make_position_mat] is rectangular, its number of rows is the product
    of the sizes, which is then not negative, it has
    [max(1, number of sizes > 1)] columns and all its cells are in the
    [np.uint32] range; an exception raised by [make_position_mat] is a
    [TypeError] for the empty list and a [ValueError] for every other
    list. *)
Theorem make_position_mat_invariant (sizes : list Z) :
  (magnitude sizes ≤ 2 ^ 53)%Z →
  match make_position_mat sizes with
  | Ok pos_mat =>
      sizes ≠ []
      ∧ wf_ndarray pos_mat
      ∧ (0 ≤ Zprod sizes)%Z
      ∧ nrows pos_mat = Z.to_nat (Zprod sizes)
      ∧ ncols pos_mat = max 1 (count_active sizes)
      ∧ uint32_cells pos_mat
  | Raise e =>
      (sizes = [] ∧ ∃ msg, e = TypeError msg)
      ∨ (sizes ≠ [] ∧ ∃ msg, e = ValueError msg)
  end.
Proof.
  intros Hmag. destruct (make_position_mat sizes) as [pos_mat|e] eqn:H.
  - apply make_position_mat_Ok_invariant in H.
    rewrite (np_prod_magnitude sizes Hmag) in H. tauto.
  - apply make_position_mat_Raise in H
      as [(-> & msg & ->)|(Hne & [->|(n & m & ->)])].
    + left. eauto.
    + right. eauto.
    + right. unfold setitem_error. eauto.
Qed.

(** The theorem at sizes [0, 3, -2]: a matrix without rows. *)
Lemma make_position_mat_invariant_witness :
  ∃ pos_mat,
    make_position_mat [0; 3; -2]%Z = Ok pos_mat
    ∧ shape pos_mat = (0, 1).
Proof.
  assert (magnitude [0; 3; -2]%Z ≤ 2 ^ 53)%Z as Hmag
    by (vm_compute; discriminate).
  pose proof (make_position_mat_invariant [0; 3; -2]%Z Hmag) as H.
  destruct (make_position_mat [0; 3; -2]%Z) as [pos_mat|e] eqn:Hmat.
  - exists pos_mat. split; [reflexivity|].
    destruct H as (_ & _ & _ & Hrows & Hcols & _).
    unfold shape. rewrite Hrows, Hcols. vm_compute. reflexivity.
  - vm_compute in Hmat. discriminate Hmat.
Defined.

Lemma np_prod_zero (l : list Z) : 0%Z ∈ l → np_prod l = 0%Z.
Proof. intros H. rewrite np_prod_wrap, Zprod_zero by exact H. reflexivity. Qed.

(** With a size 0 every column that the loop assigns is empty. *)
Lemma fill_columns_zero (sizes : list Z) :
  0%Z ∈ sizes →
  ∀ todo indx pos_ind pos_mat,
    nrows pos_mat = 0 →
    ∃ m, fill_columns sizes todo indx pos_ind pos_mat = Ok m.
Proof.
  intros Hzero todo.
  induction todo as [|s todo IH]; intros indx pos_ind pos_mat Hrows;
    [by eexists|].
  cbn [fill_columns]. destruct (1 <? s)%Z; [|by apply IH].
  rewrite part2_eq, part3_eq.
  assert (np_tile
            ((λ a, a / np_prod (take indx sizes))%Z
               <$> arange (np_prod (take (S indx) sizes)))
            (np_prod (drop (S indx) sizes)) = Ok []) as ->.
  { rewrite <- (take_drop (S indx) sizes) in Hzero.
    apply elem_of_app in Hzero as [Hz|Hz].
    - rewrite (np_prod_zero _ Hz). reflexivity.
    - rewrite (np_prod_zero (drop _ _) Hz). unfold np_tile.
      case_match; reflexivity. }
  cbn [mbind result_bind]. unfold set_column.
  rewrite decide_True by (simpl; lia).
  cbn [mbind result_bind]. apply IH. exact Hrows.
Qed.

Lemma make_position_mat_zero (sizes : list Z) :
  0%Z ∈ sizes →
  ∃ pos_mat,
    make_position_mat sizes = Ok pos_mat
    ∧ shape pos_mat = (0, max 1 (count_active sizes))
    ∧ cells pos_mat = [].
Proof.
  intros Hzero.
  assert (sizes ≠ []) as Hne by (intros ->; by apply elem_of_nil in Hzero).
  destruct (fill_columns_zero sizes Hzero sizes 0 0
              (np_zeros 0 (max 1 (count_active sizes))) eq_refl) as [m Hm].
  assert (make_position_mat sizes = Ok m) as Hmake.
  { rewrite make_position_mat_nonempty by exact Hne.
    rewrite (np_prod_zero sizes Hzero). exact Hm. }
  exists m. split; [exact Hmake|].
  destruct (make_position_mat_Ok_invariant sizes m Hmake)
    as ([Hlen _] & Hrows & _ & Hcols & _).
  rewrite (np_prod_zero sizes Hzero) in Hrows.
  split; [unfold shape; by rewrite Hrows, Hcols|].
  apply length_zero_iff_nil. rewrite Hlen, Hrows. reflexivity.
Qed.

(** X5. The edge sizes of [make_position_mat].  The empty list raises a
    [TypeError].  A size of 0, among sizes whose non-zero entries have a
    product of at most 2^53 in absolute value, gives a matrix without
    rows.  Sizes that are [np.int64] values and whose product is negative
    as an [np.int64] (a negative product, or a product of positive sizes
    from 2^63 on that wraps around) raise the [ValueError] of a negative
    dimension. *)
Theorem make_position_mat_edge_sizes (sizes : list Z) :
  (sizes = [] → ∃ msg, make_position_mat sizes = Raise (TypeError msg))
  ∧ ((magnitude sizes ≤ 2 ^ 53)%Z → 0%Z ∈ sizes →
     ∃ pos_mat,
       make_position_mat sizes = Ok pos_mat
       ∧ shape pos_mat = (0, max 1 (count_active sizes))
       ∧ cells pos_mat = [])
  ∧ (Forall int64 sizes → sizes ≠ [] → (wrap_int64 (Zprod sizes) < 0)%Z →
     make_position_mat sizes
     = Raise (ValueError "negative dimensions are not allowed"))
  ∧ (Forall int64 sizes → Forall (λ s, (0 < s)%Z) sizes →
     (2 ^ 63 ≤ Zprod sizes < 2 ^ 64)%Z →
     make_position_mat sizes
     = Raise (ValueError "negative dimensions are not allowed")).
Proof.
  assert (sizes ≠ [] → (wrap_int64 (Zprod sizes) < 0)%Z →
          make_position_mat sizes
          = Raise (ValueError "negative dimensions are not allowed")) as Hneg.
  { intros Hne Hlt. rewrite make_position_mat_nonempty by exact Hne.
    rewrite np_prod_wrap.
    destruct (Z.ltb_spec (wrap_int64 (Zprod sizes)) 0); [reflexivity|lia]. }
  split; [|split; [|split]].
  - intros ->. eexists. reflexivity.
  - intros _. apply make_position_mat_zero.
  - intros _. exact Hneg.
  - intros _ Hpos Hbig. apply Hneg.
    + intros ->. simpl in Hbig. lia.
    + unfold wrap_int64.
      replace (Zprod sizes + 2 ^ 63)%Z
        with (Zprod sizes - 2 ^ 63 + 1 * 2 ^ 64)%Z by lia.
      rewrite Z.mod_add by lia. rewrite Z.mod_small by lia. lia.
Qed.

(** The theorem at sizes [3, 0], [3, -1] and [2^62, 2]. *)
Lemma make_position_mat_edge_sizes_witness :
  (∃ pos_mat, make_position_mat [3; 0]%Z = Ok pos_mat ∧ cells pos_mat = [])
  ∧ make_position_mat [3; -1]%Z
    = Raise (ValueError "negative dimensions are not allowed")
  ∧ make_position_mat [2 ^ 62; 2]%Z
    = Raise (ValueError "negative dimensions are not allowed").
Proof.
  split; [|split].
  - destruct (proj1 (proj2 (make_position_mat_edge_sizes [3; 0]%Z)))
      as (pos_mat & H1 & _ & H2).
    + vm_compute. discriminate.
    + compute_done.
    + exists pos_mat. split; [exact H1|exact H2].
  - apply (proj1 (proj2 (proj2 (make_position_mat_edge_sizes [3; -1]%Z)))).
    + repeat constructor; unfold int64; lia.
    + discriminate.
    + vm_compute. reflexivity.
  - apply (proj2 (proj2 (proj2 (make_position_mat_edge_sizes [2 ^ 62; 2]%Z)))).
    + repeat constructor; unfold int64; lia.
    + repeat constructor.
    + vm_compute. split; [discriminate|reflexivity].
Defined.

(** ** get_position_slicing and get_spectral_slicing *)

Lemma slicing_of_dom pair (labels : list string) :
  dom (slicing_of pair labels) = list_to_set labels.
Proof.
  induction labels as [|x labels IH] using rev_ind; [apply dom_empty_L|].
  rewrite slicing_of_snoc, dom_insert_L, IH, list_to_set_app_L. simpl.
  rewrite (right_id_L ∅ (∪)). apply (comm_L (∪)).
Qed.

Lemma slicing_of_size pair (labels : list string) :
  size (slicing_of pair labels) ≤ length labels
  ∧ (NoDup labels → size (slicing_of pair labels) = length labels).
Proof.
  induction labels as [|x labels [IH1 IH2]] using rev_ind; [done|].
  rewrite slicing_of_snoc, length_app. simpl.
  destruct (slicing_of pair labels !! x) as [p|] eqn:Hx.
  - split.
    + rewrite map_size_insert_Some by eauto. lia.
    + intros Hnd. apply NoDup_app in Hnd as (_ & Hdisj & _).
      exfalso. assert (x ∈ dom (slicing_of pair labels)) as Hin
        by (apply elem_of_dom; eauto).
      rewrite slicing_of_dom, elem_of_list_to_set in Hin.
      apply (Hdisj x Hin). constructor.
  - rewrite map_size_insert_None by assumption. split; [lia|].
    intros Hnd. apply NoDup_app in Hnd as (Hnd & _). rewrite IH2; [lia|done].
Qed.

(** X6. The keys of the dictionary returned by [get_position_slicing] and
    by [get_spectral_slicing] are exactly the labels given: a label that
    was not given has no entry, the dictionary has at most one entry per
    axis, and exactly one per axis when the labels are distinct. *)
Theorem slicing_keys (labels : list string) (bound : option Z) :
  dom (get_position_slicing labels bound) = list_to_set labels
  ∧ dom (get_spectral_slicing labels bound) = list_to_set labels
  ∧ (∀ l, l ∉ labels →
       get_position_slicing labels bound !! l = None
       ∧ get_spectral_slicing labels bound !! l = None)
  ∧ size (get_position_slicing labels bound) ≤ length labels
  ∧ size (get_spectral_slicing labels bound) ≤ length labels
  ∧ (NoDup labels →
     size (get_position_slicing labels bound) = length labels
     ∧ size (get_spectral_slicing labels bound) = length labels).
Proof.
  rewrite get_position_slicing_eq, get_spectral_slicing_eq.
  split; [apply slicing_of_dom|]. split; [apply slicing_of_dom|].
  split; [intros l Hl; split; by apply slicing_of_lookup_None|].
  split; [apply slicing_of_size|]. split; [apply slicing_of_size|].
  intros Hnd. split; by apply slicing_of_size.
Qed.

(** The theorem at labels [X, Y]. *)
Lemma slicing_keys_witness :
  get_position_slicing ["X"; "Y"] None !! "Z" = None
  ∧ size (get_position_slicing ["X"; "Y"] None) = 2.
Proof.
  destruct (slicing_keys ["X"; "Y"] None) as (_ & _ & H1 & _ & _ & H2).
  split.
  - apply H1. compute_done.
  - apply H2. compute_done.
Defined.

(** X7. The dictionary of [get_spectral_slicing] is the dictionary of
    [get_position_slicing] for the same labels and bound with the two
    slices of every pair exchanged. *)
Theorem spectral_slicing_swaps_position (labels : list string)
    (bound : option Z) :
  get_spectral_slicing labels bound
  = prod_swap <$> get_position_slicing labels bound.
Proof.
  rewrite get_position_slicing_eq, get_spectral_slicing_eq.
  induction labels as [|x labels IH] using rev_ind.
  - unfold slicing_of. simpl. by rewrite fmap_empty.
  - rewrite !slicing_of_snoc, IH, fmap_insert. reflexivity.
Qed.

Lemma item_ge_rows {A} (m : ndarray A) (r c : nat) :
  wf_ndarray m → nrows m ≤ r → item m r c = None.
Proof.
  intros [Hlen _] Hr. unfold item. rewrite lookup_ge_None_2 by lia. reflexivity.
Qed.

Lemma item_ge_cols {A} (m : ndarray A) (r c : nat) :
  wf_ndarray m → ncols m ≤ c → item m r c = None.
Proof.
  intros [_ Hrows] Hc. unfold item.
  destruct (cells m !! r) as [row|] eqn:Hrow; [|reflexivity]. simpl.
  apply lookup_ge_None_2. rewrite Forall_lookup in Hrows.
  rewrite (Hrows r row Hrow). exact Hc.
Qed.

(** The position-mode pair with a bound: the first rows of one column. *)
Lemma getitem_column_bound {A} (m : ndarray A) (k : nat) (c : Z) :
  wf_ndarray m → k < ncols m → (0 ≤ c)%Z →
  shape (getitem m (position_pair (Some c) k))
  = (Z.to_nat c `min` nrows m, 1)
  ∧ ∀ r, r < Z.to_nat c →
      item (getitem m (position_pair (Some c) k)) r 0 = item m r k.
Proof.
  intros Hwf Hk Hc. pose proof Hwf as [Hlen Hrows].
  unfold getitem, position_pair. cbn [fst snd].
  rewrite slice_indices_slice1_Some, slice_indices_slice2 by assumption.
  unfold shape, sublist. cbn [nrows ncols cells].
  split; [f_equal; lia|].
  intros r Hr. unfold item at 1. cbn [cells].
  rewrite list_lookup_fmap, Nat.sub_0_r, drop_0.
  destruct (decide (r < nrows m)) as [Hlt|Hge].
  - rewrite lookup_take_lt by lia. unfold item.
    destruct (cells m !! r) as [row|]; [|reflexivity]. simpl.
    rewrite lookup_take_lt by lia. rewrite lookup_drop. f_equal. lia.
  - rewrite lookup_take_ge by lia. simpl.
    symmetry. apply item_ge_rows; [exact Hwf|lia].
Qed.

(** The spectroscopic-mode pair with a bound: the first columns of one
    row. *)
Lemma getitem_row_bound {A} (m : ndarray A) (k : nat) (c : Z) :
  wf_ndarray m → k < nrows m → (0 ≤ c)%Z →
  shape (getitem m (spectral_pair (Some c) k))
  = (1, Z.to_nat c `min` ncols m)
  ∧ ∀ j, j < Z.to_nat c →
      item (getitem m (spectral_pair (Some c) k)) 0 j = item m k j.
Proof.
  intros Hwf Hk Hc. pose proof Hwf as [Hlen Hrows].
  unfold getitem, spectral_pair. cbn [fst snd].
  rewrite slice_indices_slice1_Some, slice_indices_slice2 by assumption.
  unfold shape, sublist. cbn [nrows ncols cells].
  split; [f_equal; lia|].
  intros j Hj. unfold item at 1. cbn [cells].
  rewrite list_lookup_fmap, lookup_take_lt, lookup_drop, Nat.add_0_r by lia.
  unfold item.
  destruct (cells m !! k) as [row|] eqn:Hrow; [|reflexivity]. simpl.
  rewrite Nat.sub_0_r, drop_0.
  destruct (decide (j < ncols m)) as [Hlt|Hge].
  - rewrite lookup_take_lt by lia. reflexivity.
  - rewrite lookup_take_ge by lia. symmetry. apply lookup_ge_None_2.
    rewrite Forall_lookup in Hrows. rewrite (Hrows k row Hrow). lia.
Qed.

(** X8. With a non-negative bound, the slice pair that
    [get_position_slicing] keeps for a label selects, from a matrix that
    has a column for the label's axis, the first [bound] rows (all rows
    if there are fewer) of that one column; the pair of
    [get_spectral_slicing] selects the first [bound] columns of that one
    row. The label is one that does not occur again later in the list. *)
Theorem bounded_slicing_selects_prefix {A} (labels : list string) (bound : Z)
    (k : nat) (l : string) (m : ndarray A) :
  labels !! k = Some l →
  (∀ j, k < j → labels !! j ≠ Some l) →
  wf_ndarray m → (0 ≤ bound)%Z →
  (k < ncols m →
   ∃ sel,
     get_position_slicing labels (Some bound) !! l = Some sel
     ∧ shape (getitem m sel) = (Z.to_nat bound `min` nrows m, 1)
     ∧ ∀ r, r < Z.to_nat bound → item (getitem m sel) r 0 = item m r k)
  ∧ (k < nrows m →
     ∃ sel,
       get_spectral_slicing labels (Some bound) !! l = Some sel
       ∧ shape (getitem m sel) = (1, Z.to_nat bound `min` ncols m)
       ∧ ∀ j, j < Z.to_nat bound → item (getitem m sel) 0 j = item m k j).
Proof.
  intros Hk Hlast Hwf Hb. split; intros Hin.
  - exists (position_pair (Some bound) k). split.
    + rewrite get_position_slicing_eq.
      apply (slicing_of_lookup_last (position_pair (Some bound)) labels k l Hk
               Hlast).
    + by apply getitem_column_bound.
  - exists (spectral_pair (Some bound) k). split.
    + rewrite get_spectral_slicing_eq.
      apply (slicing_of_lookup_last (spectral_pair (Some bound)) labels k l Hk
               Hlast).
    + by apply getitem_row_bound.
Qed.

(** The theorem at labels [X, Y], bound 2 and a 3 by 2 matrix. *)
Lemma bounded_slicing_selects_prefix_witness :
  ∃ sel,
    get_position_slicing ["X"; "Y"] (Some 2%Z) !! "Y" = Some sel
    ∧ shape (getitem (NDArray 3 2 [[1; 2]; [3; 4]; [5; 6]]) sel) = (2, 1).
Proof.
  destruct (bounded_slicing_selects_prefix ["X"; "Y"] 2 1 "Y"
              (NDArray 3 2 [[1; 2]; [3; 4]; [5; 6]])) as [H _].
  - reflexivity.
  - intros [|[|[|j]]] Hj; simpl; (lia || discriminate).
  - split; [reflexivity|]. repeat constructor.
  - lia.
  - destruct H as (sel & H1 & H2 & _); [simpl; lia|].
    exists sel. split; [exact H1|exact H2].
Defined.

(** ** build_ind_val_dsets: the two modes, names and attributes *)

Lemma broadcast2_Ok_wf {A B C} (f : A → B → C) (x : ndarray A) (y : ndarray B)
    (z : ndarray C) :
  wf_ndarray x → wf_ndarray y → broadcast2 f x y = Ok z → wf_ndarray z.
Proof.
  intros Hx Hy Hz.
  destruct (broadcast_dim (nrows x) (nrows y)) as [rows|] eqn:Hr;
    [|unfold broadcast2 in Hz; rewrite Hr in Hz; discriminate].
  destruct (broadcast_dim (ncols x) (ncols y)) as [cols|] eqn:Hc;
    [|unfold broadcast2 in Hz; rewrite Hr, Hc in Hz; discriminate].
  destruct (broadcast2_spec f x y rows cols Hx Hy Hr Hc)
    as (z' & Hz' & _ & _ & Hwf & _).
  congruence.
Qed.

Lemma raw_values_wf (indices : ndarray Z) (st iv : list float)
    (values : ndarray float) :
  wf_ndarray indices → raw_values indices st iv = Ok values →
  wf_ndarray values.
Proof.
  intros Hwf. unfold raw_values, indices_to_values.
  destruct (broadcast2 PrimFloat.mul _ _) as [scaled|] eqn:Hsc; [|discriminate].
  cbn [mbind result_bind]. intros Hval.
  eapply broadcast2_Ok_wf; [apply wf_atleast_2d| |exact Hval].
  eapply broadcast2_Ok_wf; [|apply wf_atleast_2d|exact Hsc].
  by apply wf_nd_map.
Qed.

(** The two matrices of a call that returns are rectangular. *)
Lemma build_ind_val_dsets_wf dims sp steps initial_values labels units di dv :
  build_ind_val_dsets dims sp steps initial_values labels units = Ok (di, dv) →
  wf_ndarray (data di) ∧ wf_ndarray (data dv).
Proof.
  intros Hb. apply build_ind_val_dsets_inv in Hb
    as (st & iv & lb & indices & values & _ & _ & _ & Hind & Hval & _
        & -> & -> & _).
  destruct (make_position_mat_Ok_invariant dims indices Hind) as (Hwf & _).
  split; [by apply wf_orient|].
  apply wf_nd_map, wf_orient. by eapply raw_values_wf.
Qed.

Lemma transpose_involutive {A} (m : ndarray A) :
  wf_ndarray m → transpose (transpose m) = m.
Proof.
  intros Hwf. pose proof Hwf as [Hlen Hrows].
  destruct m as [rows cols cs]. unfold transpose at 1. simpl in *.
  f_equal. apply list_eq. intros r.
  rewrite list_lookup_fmap.
  destruct (decide (r < rows)) as [Hr|Hr].
  - rewrite lookup_seq_lt by assumption. simpl.
    destruct (lookup_lt_is_Some_2 cs r) as [row Hrow]; [lia|].
    rewrite Hrow. f_equal. apply list_eq. intros c.
    pose proof (item_transpose (NDArray rows cols cs) r c Hwf) as Hit.
    unfold column.
    assert (Forall (λ x : list A, is_Some (x !! r))
              (cells (transpose (NDArray rows cols cs)))) as Hall.
    { pose proof (wf_transpose _ Hwf) as [_ Hrows'].
      eapply Forall_impl; [exact Hrows'|]. intros col Hcol. simpl in *.
      apply lookup_lt_is_Some_2. lia. }
    destruct (omap_is_Some (.!! r) _ Hall) as [Hlo Hlk].
    destruct (decide (c < cols)) as [Hc|Hc].
    + rewrite Hlk. specialize (Hit Hc). unfold item in Hit. simpl in Hit.
      rewrite Hrow in Hit. simpl in Hit. exact Hit.
    + rewrite lookup_ge_None_2; [symmetry; apply lookup_ge_None_2|].
      * rewrite Forall_lookup in Hrows. rewrite (Hrows r row Hrow). lia.
      * rewrite Hlo. simpl. rewrite length_fmap, length_seq. lia.
  - rewrite lookup_seq_ge by lia. simpl. symmetry.
    apply lookup_ge_None_2. lia.
Qed.

(** X9. When the same arguments make [build_ind_val_dsets] return in both
    modes, transposing the spectroscopic index and value matrices gives
    back the position-mode matrices, whatever the sizes. *)
Theorem spectroscopic_transposed_back (dimensions : list Z)
    (steps initial_values : option (list float))
    (labels units : option (list string))
    (pos_inds spec_inds : MicroDataset Z)
    (pos_vals spec_vals : MicroDataset float) :
  build_ind_val_dsets dimensions false steps initial_values labels units
  = Ok (pos_inds, pos_vals) →
  build_ind_val_dsets dimensions true steps initial_values labels units
  = Ok (spec_inds, spec_vals) →
  transpose (data spec_inds) = data pos_inds
  ∧ transpose (data spec_vals) = data pos_vals.
Proof.
  intros Hp Hs.
  destruct (build_ind_val_dsets_wf _ _ _ _ _ _ _ _ Hp) as [Hwi Hwv].
  apply build_ind_val_dsets_inv in Hp
    as (st & iv & lb & indices & values & Hst & Hiv & _ & Hind & Hval & _
        & Hpi & Hpv & _).
  apply build_ind_val_dsets_inv in Hs
    as (st' & iv' & lb' & indices' & values' & Hst' & Hiv' & _ & Hind' & Hval'
        & _ & Hsi & Hsv & _).
  rewrite Hst in Hst'. injection Hst' as <-.
  rewrite Hiv in Hiv'. injection Hiv' as <-.
  rewrite Hind in Hind'. injection Hind' as <-.
  rewrite Hval in Hval'. injection Hval' as <-.
  simpl in Hpi, Hpv, Hsi, Hsv. rewrite Hpi in Hwi. rewrite Hpv in Hwv.
  rewrite Hsi, Hsv, Hpi, Hpv, nd_map_transpose.
  split; by apply transpose_involutive.
Qed.

(** The theorem at sizes [3, 2]. *)
Lemma spectroscopic_transposed_back_witness :
  ∃ pos_inds pos_vals spec_inds spec_vals,
    build_ind_val_dsets [3; 2]%Z false None None None None
    = Ok (pos_inds, pos_vals)
    ∧ build_ind_val_dsets [3; 2]%Z true None None None None
      = Ok (spec_inds, spec_vals)
    ∧ transpose (data spec_inds) = data pos_inds.
Proof.
  destruct (build_ind_val_dsets [3; 2]%Z false None None None None)
    as [[pos_inds pos_vals]|e] eqn:Hp; [|vm_compute in Hp; discriminate Hp].
  destruct (build_ind_val_dsets [3; 2]%Z true None None None None)
    as [[spec_inds spec_vals]|e] eqn:Hs; [|vm_compute in Hs; discriminate Hs].
  exists pos_inds, pos_vals, spec_inds, spec_vals.
  split; [reflexivity|]. split; [reflexivity|].
  apply (spectroscopic_transposed_back _ _ _ _ _ _ _ _ _ Hp Hs).
Defined.

(** X10. The datasets of a call that returns are named after the mode
    ([Position_] or [Spectroscopic_] followed by [Indices] and [Values]),
    are typed [uint32] and [float32], and carry the same attributes: the
    [labels] dictionary always, and [units] exactly when units were
    supplied, holding the supplied list, which then has one entry per
    dimension. *)
Theorem dataset_names_and_attrs (dimensions : list Z) (is_spectral : bool)
    (steps initial_values : option (list float))
    (labels units : option (list string))
    (ds_indices : MicroDataset Z) (ds_values : MicroDataset float) :
  build_ind_val_dsets dimensions is_spectral steps initial_values labels units
  = Ok (ds_indices, ds_values) →
  name ds_indices
  = (if is_spectral then "Spectroscopic_Indices" else "Position_Indices")
  ∧ name ds_values
    = (if is_spectral then "Spectroscopic_Values" else "Position_Values")
  ∧ dtype ds_indices = np_uint32 ∧ dtype ds_values = np_float32
  ∧ attrs ds_values = attrs ds_indices
  ∧ is_Some (attrs ds_indices !! "labels")
  ∧ attrs ds_indices !! "units" = AStrList <$> units
  ∧ (∀ key, is_Some (attrs ds_indices !! key) →
       key = "labels" ∨ key = "units")
  ∧ (∀ u, units = Some u → length u = length dimensions).
Proof.
  unfold build_ind_val_dsets.
  destruct (default_or_check dimensions steps _ _) as [st|]; [|discriminate].
  destruct (default_or_check dimensions initial_values _ _) as [iv|];
    [|discriminate].
  destruct (default_or_check dimensions labels _ _) as [lb|]; [|discriminate].
  destruct (make_position_mat dimensions) as [indices|]; [|discriminate].
  cbn [mbind result_bind].
  destruct (indices_to_values _ _ _) as [values|]; [|discriminate].
  cbn [mbind result_bind].
  assert (∀ (d : gmap string (slice * slice)) key,
            is_Some (({["labels" := ASlices d]} : gmap string attr_value)
                       !! key) → key = "labels") as Hone.
  { intros d key [v Hv]. apply lookup_singleton_Some in Hv as [<- _]. done. }
  assert (∀ (d : gmap string (slice * slice)) u key,
            is_Some ((<["units" := AStrList u]> {["labels" := ASlices d]}
                      : gmap string attr_value) !! key) →
            key = "labels" ∨ key = "units") as Htwo.
  { intros d u key Hkey. destruct (decide (key = "units")) as [|Hne];
      [by right|left].
    rewrite lookup_insert_ne in Hkey by congruence. by eapply Hone. }
  destruct is_spectral, units as [u|]; cbn;
    try (case_decide as Hu; [discriminate|]); intros [= <- <-]; cbn;
    repeat split; eauto; try (intros u' [= <-]; lia); try discriminate;
    try (intros key; cbn; rewrite insert_empty; by eauto).
Qed.

(** The theorem at one axis of size 2 with units [nm]. *)
Lemma dataset_names_and_attrs_witness :
  ∃ ds_indices ds_values,
    build_ind_val_dsets [2]%Z false None None None (Some ["nm"])
    = Ok (ds_indices, ds_values)
    ∧ name ds_indices = "Position_Indices"
    ∧ attrs ds_indices !! "units" = Some (AStrList ["nm"]).
Proof.
  destruct (build_ind_val_dsets [2]%Z false None None None (Some ["nm"]))
    as [[ds_indices ds_values]|e] eqn:Hb; [|vm_compute in Hb; discriminate Hb].
  destruct (dataset_names_and_attrs _ _ _ _ _ _ _ _ Hb)
    as (H1 & _ & _ & _ & _ & _ & H2 & _).
  exists ds_indices, ds_values. split; [reflexivity|].
  split; [exact H1|exact H2].
Defined.

Lemma item_at_orient_eq {A} (sp : bool) (m : ndarray A) (r k : nat) :
  wf_ndarray m → k < ncols m →
  item_at sp (orient sp m) r k = item m r k.
Proof.
  intros Hwf Hk. destruct sp; simpl; [|reflexivity].
  by apply item_transpose.
Qed.

(** X11. For positive sizes without singleton axes, with at most 2^53
    points, and arrays of the right lengths, in either mode: the index
    and value matrices have the same
    shape, [prod(sizes)] by the number of axes (transposed in
    spectroscopic mode), and the slice pair kept for a label selects from
    each of them the whole column (row in spectroscopic mode) of one axis
    that carries this label, and nothing else. *)
Theorem aligned_shapes_and_label_slices (dimensions : list Z)
    (is_spectral : bool) (steps initial_values : option (list float))
    (labels units : option (list string)) :
  Forall (λ s, (0 < s)%Z) dimensions → (Zprod dimensions ≤ 2 ^ 53)%Z →
  aligned dimensions →
  ¬ mismatch dimensions steps → ¬ mismatch dimensions initial_values →
  ¬ mismatch dimensions labels → ¬ mismatch dimensions units →
  ∃ ds_indices ds_values region_slices,
    build_ind_val_dsets dimensions is_spectral steps initial_values labels
      units = Ok (ds_indices, ds_values)
    ∧ shape (data ds_indices)
      = (if is_spectral
         then (length dimensions, Z.to_nat (Zprod dimensions))
         else (Z.to_nat (Zprod dimensions), length dimensions))
    ∧ shape (data ds_values) = shape (data ds_indices)
    ∧ attrs ds_indices !! "labels" = Some (ASlices region_slices)
    ∧ ∀ l sel, region_slices !! l = Some sel →
        ∃ k, resolved dimensions labels "" !! k = Some l
             ∧ shape (getitem (data ds_indices) sel)
               = (if is_spectral then (1, Z.to_nat (Zprod dimensions))
                  else (Z.to_nat (Zprod dimensions), 1))
             ∧ shape (getitem (data ds_values) sel)
               = shape (getitem (data ds_indices) sel)
             ∧ ∀ r,
                 item_at is_spectral (getitem (data ds_indices) sel) r 0
                 = item_at is_spectral (data ds_indices) r k
                 ∧ item_at is_spectral (getitem (data ds_values) sel) r 0
                   = item_at is_spectral (data ds_values) r k.
Proof.
  intros Hpos Hmax Hal H1 H2 H3 H4.
  pose proof (aligned_sizes_ok dimensions Hpos Hmax Hal) as Hok.
  destruct (build_ind_val_dsets_aligned dimensions is_spectral steps
              initial_values labels units Hok Hal H1 H2 H3 H4)
    as (di & dv & indices & Hb & Hind & Hdi & Hshape & _ & d & Hai & _ & Hsl).
  exists di, dv, d. split; [exact Hb|].
  destruct (make_position_mat_Ok_invariant dimensions indices Hind)
    as (Hwf & Hrows & _ & Hcols & _).
  rewrite (np_prod_sizes dimensions Hok) in Hrows.
  unfold aligned in Hal. rewrite Hal in Hcols.
  pose proof Hb as Hinv. apply build_ind_val_dsets_inv in Hinv
    as (st & iv & lb & indices' & values & _ & _ & _ & Hind' & Hval & _
        & _ & Hdv & _).
  rewrite Hind in Hind'. injection Hind' as <-.
  pose proof (raw_values_wf _ _ _ _ Hwf Hval) as Hwfv.
  assert (shape values = shape indices) as Hsv.
  { rewrite Hdi, Hdv in Hshape. unfold shape in *.
    destruct is_spectral; simpl in Hshape; congruence. }
  injection Hsv as Hvr Hvc.
  split; [rewrite Hdi; unfold shape; destruct is_spectral; simpl; congruence|].
  split; [exact Hshape|]. split; [exact Hai|].
  intros l sel Hsel.
  destruct (Hsl l sel Hsel) as (k & Hk & -> & Hgs & Hgi).
  assert (k < ncols indices) as Hkc.
  { apply lookup_lt_Some in Hk. rewrite Hcols.
    destruct labels as [lb0|]; simpl in Hk, H3;
      [lia|by rewrite length_replicate in Hk]. }
  exists k. split; [exact Hk|].
  rewrite Hdv, nd_map_orient.
  destruct (getitem_axis is_spectral (nd_map to_f32 values) k)
    as [Hvs Hvi]; [by apply wf_nd_map|simpl; lia|].
  split; [rewrite Hgs, Hrows; reflexivity|].
  split.
  { rewrite Hgs, Hvs. simpl. rewrite Hvr. reflexivity. }
  intros r. split.
  - rewrite Hgi, Hdi. symmetry. by apply item_at_orient_eq.
  - rewrite Hvi. symmetry. apply item_at_orient_eq; [by apply wf_nd_map|].
    simpl. lia.
Qed.

(** The theorem at sizes [3, 2] with labels [X, Y]. *)
Lemma aligned_shapes_and_label_slices_witness :
  ∃ ds_indices ds_values,
    build_ind_val_dsets [3; 2]%Z false None None (Some ["X"; "Y"]) None
    = Ok (ds_indices, ds_values)
    ∧ shape (data ds_indices) = (6, 2)
    ∧ shape (data ds_values) = (6, 2).
Proof.
  destruct (aligned_shapes_and_label_slices [3; 2]%Z false None None
              (Some ["X"; "Y"]) None)
    as (di & dv & d & Hb & Hs1 & Hs2 & _).
  - repeat constructor.
  - vm_compute. discriminate.
  - reflexivity.
  - simpl. tauto.
  - simpl. tauto.
  - simpl. lia.
  - simpl. tauto.
  - exists di, dv. split; [exact Hb|]. split; [exact Hs1|].
    rewrite Hs2. exact Hs1.
Defined.

(** The lemma [aligned_raises_iff_mismatch] at sizes [3, 2] with three
    labels. *)
Lemma aligned_raises_iff_mismatch_witness :
  ∃ e, build_ind_val_dsets [3; 2]%Z true None None (Some ["X"; "Y"; "Z"]) None
       = Raise e.
Proof.
  apply (aligned_raises_iff_mismatch [3; 2]%Z true None None
           (Some ["X"; "Y"; "Z"]) None).
  - repeat constructor.
  - vm_compute. discriminate.
  - reflexivity.
  - right; right; left. simpl. lia.
Defined.

(** ** build_ind_val_dsets with singleton axes *)

Lemma broadcast_dim_None (a b : nat) :
  a ≠ b → a ≠ 1 → b ≠ 1 → broadcast_dim a b = None.
Proof. intros. unfold broadcast_dim. by rewrite !decide_False. Qed.

Lemma length_resolved {A B} (dims : list B) (arg : option (list A)) (d : A) :
  ¬ mismatch dims arg → length (resolved dims arg d) = length dims.
Proof. destruct arg as [l|]; simpl; [lia|intros _; apply length_replicate]. Qed.

(** The value matrix over an index matrix of one column: one column for
    each step, all computed from that column. *)
Lemma raw_values_one_column (indices : ndarray Z) (st iv : list float) :
  wf_ndarray indices → ncols indices = 1 → length iv = length st →
  ∃ values,
    raw_values indices st iv = Ok values
    ∧ shape values = (nrows indices, length st)
    ∧ wf_ndarray values
    ∧ ∀ r k s i0 idx,
        item indices r 0 = Some idx → st !! k = Some s → iv !! k = Some i0 →
        item values r k = Some (i0 + float32_of_uint32 idx * s)%float.
Proof.
  intros Hwf Hc Hiv. unfold raw_values, indices_to_values.
  destruct (broadcast2_spec PrimFloat.mul (nd_map float32_of_uint32 indices)
              (np_atleast_2d st) (nrows indices) (length st))
    as (scaled & -> & Hr1 & Hc1 & Hwf1 & Hitem1).
  { by apply wf_nd_map. }
  { apply wf_atleast_2d. }
  { apply broadcast_dim_1_r. }
  { simpl. rewrite Hc. apply broadcast_dim_1_l. }
  cbn [mbind result_bind].
  destruct (broadcast2_spec PrimFloat.add (np_atleast_2d iv) scaled
              (nrows indices) (length st))
    as (values & -> & Hr2 & Hc2 & Hwf2 & Hitem2).
  { apply wf_atleast_2d. }
  { exact Hwf1. }
  { simpl. rewrite Hr1. apply broadcast_dim_1_l. }
  { simpl. rewrite Hiv, Hc1. apply broadcast_dim_same. }
  exists values. split; [reflexivity|].
  split; [unfold shape; congruence|]. split; [exact Hwf2|].
  intros r k s i0 idx Hidx Hs Hi0.
  destruct (item_lt _ _ _ _ Hwf Hidx) as [Hr _].
  pose proof (lookup_lt_Some _ _ _ Hs) as Hk.
  destruct (Hitem2 r k Hr Hk) as (i0' & sv & Hi0' & Hsv & Hv).
  destruct (Hitem1 r k Hr Hk) as (fv & s' & Hfv & Hs' & Hsc).
  simpl in Hi0', Hs', Hfv.
  rewrite Hr1, (bidx_id _ r Hr), Hc1, (bidx_id _ k Hk), Hsc in Hsv.
  injection Hsv as <-.
  rewrite Hc in Hfv. change (bidx 1 k) with 0 in Hfv.
  rewrite (bidx_id _ r Hr), item_nd_map, Hidx in Hfv.
  injection Hfv as <-.
  rewrite (bidx_id _ k Hk) in Hs'.
  rewrite Hiv, (bidx_id _ k Hk) in Hi0'.
  change (bidx 1 r) with 0 in Hs', Hi0'.
  rewrite item_atleast_2d in Hs', Hi0'.
  rewrite Hs in Hs'. injection Hs' as <-.
  rewrite Hi0 in Hi0'. injection Hi0' as <-.
  exact Hv.
Qed.

(** X16. What singleton axes do to a call whose sizes are a non-empty
    list of positive integers with at most 2^53 points and whose steps,
    initial values and labels have the right lengths.
    The per-axis arrays keep one entry for every axis while the index
    matrix has a column only for the axes larger than 1.  With two or more
    such axes and a singleton axis besides, the product of line 328 cannot
    be broadcast: the call raises numpy's [ValueError] for the shapes
    (points, number of axes larger than 1) and (1, number of axes), in
    either mode, whatever the units.
    With at most one axis larger than 1 the call returns: the index matrix
    has one column and the value matrix one column for every axis, each
    computed from that one column of indices with the step and initial
    value of its own axis. *)
Theorem singleton_axes_outcome (dims : list Z) (sp : bool)
    (steps initial_values : option (list float))
    (labels units : option (list string)) :
  dims ≠ [] → Forall (λ s, (0 < s)%Z) dims → (Zprod dims ≤ 2 ^ 53)%Z →
  ¬ mismatch dims steps → ¬ mismatch dims initial_values →
  ¬ mismatch dims labels →
  let call := build_ind_val_dsets dims sp steps initial_values labels units in
  let rows := Z.to_nat (Zprod dims) in
  (1 < count_active dims < length dims →
   call = Raise (broadcast_error (rows, count_active dims) (1, length dims)))
  ∧ (count_active dims ≤ 1 → ¬ mismatch dims units →
     ∃ ds_indices ds_values,
       call = Ok (ds_indices, ds_values)
       ∧ shape (data ds_indices) = (if sp then (1, rows) else (rows, 1))
       ∧ shape (data ds_values)
         = (if sp then (length dims, rows) else (rows, length dims))
       ∧ ∀ r k idx step_k initial_value_k,
           item_at sp (data ds_indices) r 0 = Some idx →
           resolved dims steps 1%float !! k = Some step_k →
           resolved dims initial_values 0%float !! k = Some initial_value_k →
           item_at sp (data ds_values) r k
           = Some (to_f32 (initial_value_k
                           + float32_of_uint32 idx * step_k)%float)).
Proof.
  intros Hne Hpos Hmax H1 H2 H3 call rows. subst call.
  assert (sizes_ok dims) as Hok by done.
  destruct (make_position_mat dims) as [indices|] eqn:Hind;
    [|by rewrite make_position_mat_closed in Hind].
  destruct (make_position_mat_Ok_invariant dims indices Hind)
    as (Hwf & Hrows & _ & Hcols & _).
  rewrite (np_prod_sizes dims Hok) in Hrows.
  rewrite build_ind_val_dsets_checked by assumption.
  rewrite Hind. cbn [mbind result_bind].
  pose proof (length_resolved dims steps 1%float H1) as Hst.
  pose proof (length_resolved dims initial_values 0%float H2) as Hiv.
  split.
  - intros [Hlo Hhi]. unfold raw_values, indices_to_values, broadcast2.
    cbn [nd_map np_atleast_2d nrows ncols shape].
    rewrite broadcast_dim_1_r, broadcast_dim_None by lia.
    unfold shape. cbn [nd_map np_atleast_2d nrows ncols].
    rewrite Hst, Hrows, Hcols.
    replace (1 `max` count_active dims) with (count_active dims) by lia.
    reflexivity.
  - intros Hone H4.
    destruct (raw_values_one_column indices (resolved dims steps 1%float)
                (resolved dims initial_values 0%float) Hwf)
      as (values & -> & Hshape & Hwfv & Hlaw); [lia|congruence|].
    cbn [mbind result_bind].
    assert (∃ lb, region_slices_of sp (resolved dims labels "") = lb)
      as [lb ->] by eauto.
    assert (shape (orient sp indices)
            = (if sp then (1, rows) else (rows, 1))) as Hsi.
    { unfold shape, rows. destruct sp; simpl; f_equal; lia. }
    assert (shape (nd_map to_f32 (orient sp values))
            = (if sp then (length dims, rows) else (rows, length dims)))
      as Hsv.
    { unfold shape in *. injection Hshape as Hvr Hvc. unfold rows.
      destruct sp; simpl; f_equal; lia. }
    assert (∀ r k idx step_k initial_value_k,
              item_at sp (orient sp indices) r 0 = Some idx →
              resolved dims steps 1%float !! k = Some step_k →
              resolved dims initial_values 0%float !! k
              = Some initial_value_k →
              item_at sp (nd_map to_f32 (orient sp values)) r k
              = Some (to_f32 (initial_value_k
                              + float32_of_uint32 idx * step_k)%float))
      as Hv.
    { intros r k idx s i0 Hidx Hs Hi0.
      apply item_at_orient in Hidx; [|exact Hwf].
      rewrite nd_map_orient. apply item_at_orient; [by apply wf_nd_map|].
      rewrite item_nd_map, (Hlaw r k s i0 idx Hidx Hs Hi0). reflexivity. }
    destruct units as [u|].
    + simpl in H4. rewrite decide_False by assumption.
      eexists _, _. split; [reflexivity|]. cbn [data set_attr].
      split; [exact Hsi|]. split; [exact Hsv|exact Hv].
    + eexists _, _. split; [reflexivity|]. cbn [data set_attr].
      split; [exact Hsi|]. split; [exact Hsv|exact Hv].
Qed.

(** The theorem at sizes [2, 1, 3], which raise, and at sizes [1, 5],
    where one column of indices stands against two columns of values. *)
Lemma singleton_axes_outcome_witness :
  build_ind_val_dsets [2; 1; 3]%Z true None None None (Some ["nm"])
  = Raise (ValueError
             "operands could not be broadcast together with shapes (6,2) (1,3) ")
  ∧ ∃ ds_indices ds_values,
      build_ind_val_dsets [1; 5]%Z false None None None None
      = Ok (ds_indices, ds_values)
      ∧ shape (data ds_indices) = (5, 1)
      ∧ shape (data ds_values) = (5, 2).
Proof.
  split.
  - apply (proj1 (singleton_axes_outcome [2; 1; 3]%Z true None None None
                    (Some ["nm"]) ltac:(discriminate)
                    ltac:(repeat constructor; lia)
                    ltac:(vm_compute; discriminate)
                    ltac:(simpl; tauto) ltac:(simpl; tauto)
                    ltac:(simpl; tauto))).
    vm_compute. lia.
  - destruct (proj2 (singleton_axes_outcome [1; 5]%Z false None None None
                       None ltac:(discriminate)
                       ltac:(repeat constructor; lia)
                       ltac:(vm_compute; discriminate)
                       ltac:(simpl; tauto) ltac:(simpl; tauto)
                       ltac:(simpl; tauto)))
      as (di & dv & Hb & Hsi & Hsv & _).
    + vm_compute. lia.
    + simpl. tauto.
    + exists di, dv. split; [exact Hb|]. split; [exact Hsi|exact Hsv].
Defined.

(** ** generate_dummy_main_parms and the root attributes *)

Lemma lookup_insert_both (m m' : gmap string attr_value) (k key : string)
    (v : attr_value) :
  m !! key = m' !! key → <[k := v]> m !! key = <[k := v]> m' !! key.
Proof. intros H. rewrite !lookup_insert. case_decide; [reflexivity|exact H]. Qed.

Lemma generate_dummy_main_parms_size (translate_date : string)
    (experiment_unix_time : float) :
  size (generate_dummy_main_parms translate_date experiment_unix_time) = 16
  ∧ generate_dummy_main_parms translate_date experiment_unix_time
      !! "data_type" = None
  ∧ generate_dummy_main_parms translate_date experiment_unix_time
      !! "translator" = None.
Proof.
  split; [|split]; vm_compute; reflexivity.
Qed.

(** X12. The defaults of [generate_dummy_main_parms] are sixteen fields,
    of which only [translate_date] and [experiment_unix_time] depend on
    the clock; none of them is [data_type] or [translator], so the root of
    the tree built by [simple_write] has eighteen attributes and every
    default is still there unchanged. *)
Theorem root_attrs_keep_defaults {dataset : Type}
    (translate_date translate_date' : string)
    (experiment_unix_time experiment_unix_time' : float)
    (data_name translator_name : string) (ds_main : dataset)
    (aux_dset_list : list (MicroData dataset))
    (parm_dict : option (gmap string attr_value)) :
  let defaults :=
    generate_dummy_main_parms translate_date experiment_unix_time in
  let root :=
    group_attrs (simple_write_tree translate_date experiment_unix_time
                   data_name translator_name ds_main aux_dset_list parm_dict) in
  size defaults = 16
  ∧ size root = 18
  ∧ (∀ key v, defaults !! key = Some v → root !! key = Some v)
  ∧ (∀ key, key ≠ "translate_date" → key ≠ "experiment_unix_time" →
       generate_dummy_main_parms translate_date' experiment_unix_time' !! key
       = defaults !! key).
Proof.
  intros defaults root.
  destruct (generate_dummy_main_parms_size translate_date experiment_unix_time)
    as (Hsize & Hdt & Htr).
  fold defaults in Hsize, Hdt, Htr.
  assert (root = <["translator" := AStr translator_name]>
                   (<["data_type" := AStr data_name]> defaults)) as ->
    by reflexivity.
  split; [exact Hsize|]. split; [|split].
  - rewrite map_size_insert_None.
    + rewrite map_size_insert_None by exact Hdt. rewrite Hsize. reflexivity.
    + rewrite lookup_insert_ne by discriminate. exact Htr.
  - intros key v Hkey.
    rewrite lookup_insert_ne by congruence.
    rewrite lookup_insert_ne by congruence. exact Hkey.
  - intros key H1 H2. subst defaults. unfold generate_dummy_main_parms.
    cbn zeta.
    do 4 apply lookup_insert_both.
    rewrite (lookup_insert_ne _ "experiment_unix_time" key) by congruence.
    rewrite (lookup_insert_ne _ "experiment_unix_time" key) by congruence.
    do 10 apply lookup_insert_both.
    rewrite (lookup_insert_ne _ "translate_date" key) by congruence.
    rewrite (lookup_insert_ne _ "translate_date" key) by congruence.
    reflexivity.
Qed.

(** ** simple_write: the external calls and what it raises *)

Section ContainerAssemblerErrors.

Variable dataset : Type.
Variable dataset_name : dataset → string.
Variables world hdf h5ref : Type.
Variable path_exists : string → world → bool.
Variable remove : string → world → result world.
Variable ioHDF5 : string → world → result (hdf * world).
Variable writeData : hdf → MicroData dataset → world → result (list h5ref * world).
Variable get_h5_obj_refs : list string → list h5ref → list h5ref.
Variable link_h5_objects_as_attrs : h5ref → list h5ref → world → result world.
Variable hdf_close : hdf → world → result world.
Variables (translate_date : string) (experiment_unix_time : float).

(** X13. A file that does not exist is not removed: when [path.exists]
    answers no, the outcome of [simple_write] is the same whatever
    [os.remove] would do. *)
Theorem simple_write_fresh_path_skips_remove
    (remove' : string → world → result world)
    (h5_path data_name translator_name : string)
    (ds_main : dataset) (aux_dset_list : list (MicroData dataset))
    (parm_dict : option (gmap string attr_value)) (w : world) :
  path_exists h5_path w = false →
  simple_write dataset dataset_name world hdf h5ref path_exists remove ioHDF5
    writeData get_h5_obj_refs link_h5_objects_as_attrs hdf_close
    translate_date experiment_unix_time
    h5_path data_name translator_name ds_main aux_dset_list parm_dict w
  = simple_write dataset dataset_name world hdf h5ref path_exists remove' ioHDF5
      writeData get_h5_obj_refs link_h5_objects_as_attrs hdf_close
      translate_date experiment_unix_time
      h5_path data_name translator_name ds_main aux_dset_list parm_dict w.
Proof. intros Hfresh. unfold simple_write. rewrite Hfresh. reflexivity. Qed.

(** X14. When the written references do not hold the main dataset,
    [simple_write] raises the [IndexError] of [...[0]] after the file was
    written; nothing is linked and the file is not closed: the outcome is
    the same whatever the linking and closing calls would do. *)
Theorem simple_write_main_dataset_not_found
    (link' : h5ref → list h5ref → world → result world)
    (close' : hdf → world → result world)
    (h5_path data_name translator_name : string)
    (ds_main : dataset) (aux_dset_list : list (MicroData dataset))
    (parm_dict : option (gmap string attr_value))
    (w w0 w1 w2 : world) (h : hdf) (h5_refs : list h5ref) :
  (if path_exists h5_path w then remove h5_path w else Ok w) = Ok w0 →
  ioHDF5 h5_path w0 = Ok (h, w1) →
  writeData h
    (simple_write_tree translate_date experiment_unix_time data_name
       translator_name ds_main aux_dset_list parm_dict) w1
  = Ok (h5_refs, w2) →
  get_h5_obj_refs [dataset_name ds_main] h5_refs = [] →
  simple_write dataset dataset_name world hdf h5ref path_exists remove ioHDF5
    writeData get_h5_obj_refs link' close'
    translate_date experiment_unix_time
    h5_path data_name translator_name ds_main aux_dset_list parm_dict w
  = Raise (IndexError "list index out of range").
Proof.
  intros Hpre Hopen Hwrite Hrefs. unfold simple_write.
  rewrite Hpre. cbn [mbind result_bind].
  rewrite Hopen. cbn [mbind result_bind].
  rewrite Hwrite. cbn [mbind result_bind].
  rewrite Hrefs. reflexivity.
Qed.

(** X15. [simple_write] raises nothing of its own but that [IndexError]:
    an exception that leaves it was raised by [os.remove] on an existing
    file, by opening the file, by the writer, by the linking or by the
    closing, each reached only after the earlier calls returned, or it is
    the [IndexError] for a main dataset missing from the written
    references.  The linking is given the first reference found for the
    main dataset and the references of the auxiliary datasets, groups of
    the auxiliary list left out. *)
Theorem simple_write_raises_from
    (h5_path data_name translator_name : string)
    (ds_main : dataset) (aux_dset_list : list (MicroData dataset))
    (parm_dict : option (gmap string attr_value)) (w : world) (e : exn) :
  simple_write dataset dataset_name world hdf h5ref path_exists remove ioHDF5
    writeData get_h5_obj_refs link_h5_objects_as_attrs hdf_close
    translate_date experiment_unix_time
    h5_path data_name translator_name ds_main aux_dset_list parm_dict w
  = Raise e →
  (path_exists h5_path w = true ∧ remove h5_path w = Raise e)
  ∨ ∃ w0, (if path_exists h5_path w then remove h5_path w else Ok w) = Ok w0
    ∧ (ioHDF5 h5_path w0 = Raise e
       ∨ ∃ h w1, ioHDF5 h5_path w0 = Ok (h, w1)
         ∧ let spm_data :=
             simple_write_tree translate_date experiment_unix_time data_name
               translator_name ds_main aux_dset_list parm_dict in
           (writeData h spm_data w1 = Raise e
            ∨ ∃ h5_refs w2, writeData h spm_data w1 = Ok (h5_refs, w2)
              ∧ ((get_h5_obj_refs [dataset_name ds_main] h5_refs = []
                  ∧ e = IndexError "list index out of range")
                 ∨ ∃ h5_raw rest,
                     get_h5_obj_refs [dataset_name ds_main] h5_refs
                     = h5_raw :: rest
                     ∧ let linked :=
                         get_h5_obj_refs
                           (omap (λ dset, match dset with
                                          | MDataset ds => Some (dataset_name ds)
                                          | MicroDataGroup _ _ _ => None
                                          end) aux_dset_list) h5_refs in
                       (link_h5_objects_as_attrs h5_raw linked w2 = Raise e
                        ∨ ∃ w3, link_h5_objects_as_attrs h5_raw linked w2
                                = Ok w3
                          ∧ hdf_close h w3 = Raise e)))).
Proof.
  unfold simple_write.
  destruct (if path_exists h5_path w then remove h5_path w else Ok w)
    as [w0|e0] eqn:Hpre; cbn [mbind result_bind].
  2: { intros [= ->]. left. destruct (path_exists h5_path w); [|discriminate].
       split; [reflexivity|exact Hpre]. }
  intros H. right. exists w0. split; [reflexivity|]. revert H.
  destruct (ioHDF5 h5_path w0) as [[h w1]|e1]; cbn [mbind result_bind];
    [|intros [= ->]; by left].
  intros H. right. exists h, w1. split; [reflexivity|]. cbn zeta. revert H.
  destruct (writeData h _ w1) as [[h5_refs w2]|e2]; cbn [mbind result_bind];
    [|intros [= ->]; by left].
  intros H. right. exists h5_refs, w2. split; [reflexivity|]. revert H.
  destruct (get_h5_obj_refs [dataset_name ds_main] h5_refs)
    as [|h5_raw rest]; cbn [mbind result_bind];
    [intros [= <-]; left; split; reflexivity|].
  intros H. right. exists h5_raw, rest. split; [reflexivity|]. revert H.
  destruct (link_h5_objects_as_attrs h5_raw _ w2) as [w3|e3];
    cbn [mbind result_bind]; [|intros [= ->]; by left].
  intros H. right. exists w3. split; [reflexivity|]. revert H.
  destruct (hdf_close h w3) as [w4|e4]; cbn [mbind result_bind];
    [discriminate|intros [= ->]; reflexivity].
Qed.

End ContainerAssemblerErrors.

(** A path that does not exist, with a removal that would fail and one
    that would not. *)
Lemma simple_write_fresh_path_skips_remove_witness :
  simple_write string id (list (MicroData string)) string string
    (λ _ _, false) (λ _ _, Raise (IOError "No such file or directory"))
    (λ p w, Ok (p, w))
    (λ _ t w, Ok (["Raw_Data"; "Position_Indices"], t :: w))
    (λ names refs, filter (.∈ names) refs)
    (λ _ _ w, Ok w) (λ _ w, Ok w) "2015_11_03" 0%float
    "out.h5" "demo" "DemoTranslator" "Raw_Data"
    [MDataset "Position_Indices"] None []
  = simple_write string id (list (MicroData string)) string string
      (λ _ _, false) (λ _ w, Ok w)
      (λ p w, Ok (p, w))
      (λ _ t w, Ok (["Raw_Data"; "Position_Indices"], t :: w))
      (λ names refs, filter (.∈ names) refs)
      (λ _ _ w, Ok w) (λ _ w, Ok w) "2015_11_03" 0%float
      "out.h5" "demo" "DemoTranslator" "Raw_Data"
      [MDataset "Position_Indices"] None [].
Proof.
  apply (simple_write_fresh_path_skips_remove string id
           (list (MicroData string)) string string (λ _ _, false)
           (λ _ _, Raise (IOError "No such file or directory"))).
  reflexivity.
Defined.

(** A writer that returns a reference to [Position_Indices] alone, for a
    main dataset named [Raw_Data]. *)
Lemma simple_write_main_dataset_not_found_witness :
  simple_write string id (list (MicroData string)) string string
    (λ _ _, true) (λ _ w, Ok w) (λ p w, Ok (p, w))
    (λ _ t w, Ok (["Position_Indices"], t :: w))
    (λ names refs, filter (.∈ names) refs)
    (λ _ _ w, Ok w) (λ _ w, Ok w) "2015_11_03" 0%float
    "out.h5" "demo" "DemoTranslator" "Raw_Data"
    [MDataset "Position_Indices"] None []
  = Raise (IndexError "list index out of range").
Proof.
  eapply (simple_write_main_dataset_not_found string id
            (list (MicroData string)) string string
            (λ _ _, true) (λ _ w, Ok w) (λ p w, Ok (p, w))
            (λ _ t w, Ok (["Position_Indices"], t :: w))
            (λ names refs, filter (.∈ names) refs)).
  - reflexivity.
  - reflexivity.
  - reflexivity.
  - vm_compute. reflexivity.
Defined.

(** A closing call that fails after everything else went through: the
    exception that leaves [simple_write] is the one of the closing. *)
Lemma simple_write_raises_from_witness :
  let close := λ (_ : string) (_ : list (MicroData string)),
                 @Raise (list (MicroData string)) (IOError "close failed") in
  simple_write string id (list (MicroData string)) string string
    (λ _ _, true) (λ _ w, Ok w) (λ p w, Ok (p, w))
    (λ _ t w, Ok (["Raw_Data"; "Position_Indices"], t :: w))
    (λ names refs, filter (.∈ names) refs)
    (λ _ _ w, Ok w) close "2015_11_03" 0%float
    "out.h5" "demo" "DemoTranslator" "Raw_Data"
    [MDataset "Position_Indices"] None []
  = Raise (IOError "close failed")
  ∧ ∃ h w3, close h w3 = Raise (IOError "close failed").
Proof.
  intros close.
  assert (simple_write string id (list (MicroData string)) string string
            (λ _ _, true) (λ _ w, Ok w) (λ p w, Ok (p, w))
            (λ _ t w, Ok (["Raw_Data"; "Position_Indices"], t :: w))
            (λ names refs, filter (.∈ names) refs)
            (λ _ _ w, Ok w) close "2015_11_03" 0%float
            "out.h5" "demo" "DemoTranslator" "Raw_Data"
            [MDataset "Position_Indices"] None []
          = Raise (IOError "close failed")) as Hraise
    by (vm_compute; reflexivity).
  split; [exact Hraise|].
  destruct (simple_write_raises_from _ _ _ _ _ _ _ _ _ _ _ _ _ _ _ _ _ _ _ _ _ _
              Hraise)
    as [[_ Hrm]|(w0 & _ & [Hopen|(h & w1 & _ & [Hwrite|(h5_refs & w2 & _
        & [[_ Hidx]|(h5_raw & rest & _ & [Hlink|(w3 & _ & Hclose)])])])])].
  - discriminate Hrm.
  - discriminate Hopen.
  - discriminate Hwrite.
  - discriminate Hidx.
  - discriminate Hlink.
  - exists h, w3. exact Hclose.
Defined.
